(** * The flow-graph editor of the dashboard page

    A shallow embedding of [src/app/(protected)/dashboard/flow.tsx]: the
    default connection points of a shape, the node and edge operations of
    the [Flow] component, its undo/redo history and its persistence to the
    local storage slot ['flow'], its toolbar and keyboard shortcuts, the
    node controls, and the code blocks of the Markdown content.

    The component is JavaScript, so its data are JavaScript values: nodes
    and edges are objects (ordered lists of properties), what is read back
    from the slot is an arbitrary JSON value, and a property read on [null]
    or [undefined] throws.  The functions the component calls but does not
    define ([nanoid], [Math.random], [JSON.stringify], [JSON.parse] and
    React Flow's [addEdge]) are the fields of the class [Platform]. *)

From Stdlib Require Import List String Ascii ZArith Bool Lia PeanoNat.
From Stdlib Require Import DecimalString DecimalNat DecimalPos.
From Stdlib Require Nnat.
Import ListNotations.
Set Warnings "-register-all".
Open Scope list_scope.
Open Scope string_scope.

(** ** JavaScript values *)

(** Numbers.  The component does no arithmetic on coordinates; it counts
    nodes and reads the number that ends a label.  Finite numbers are
    integers here: [Int z] is the Number nearest [z], which is [z] itself
    up to 2^53 (see [nearest_double]).  Numbers with a fraction are not
    among these values. *)
Inductive number : Type :=
| Int (z : Z)
| Infinity (negative : bool)
| NaN.

Inductive value : Type :=
| VUndefined
| VNull
| VBool (b : bool)
| VNum (n : number)
| VStr (s : string)
| VArr (xs : list value)
| VObj (fields : list (string * value)).

(** An object: its own properties, in order. *)
Definition obj : Type := list (string * value).

(** A computation that returns or throws (a [TypeError] or a
    [SyntaxError]; the component never looks at which). *)
Inductive result (A : Type) : Type :=
| Ok (a : A)
| Throw.
Arguments Ok {A} a.
Arguments Throw {A}.

Definition rbind {A B} (r : result A) (k : A -> result B) : result B :=
  match r with
  | Ok a => k a
  | Throw => Throw
  end.

Fixpoint rmap {A B} (f : A -> result B) (xs : list A) : result (list B) :=
  match xs with
  | [] => Ok []
  | x :: xs' =>
      rbind (f x) (fun y => rbind (rmap f xs') (fun ys => Ok (y :: ys)))
  end.

(** A computation that draws from the identifier and random supply: the
    state is the number of draws made so far. *)
Definition M (A : Type) : Type := nat -> result A * nat.

Definition ret {A} (a : A) : M A := fun t => (Ok a, t).

Definition throw {A} : M A := fun t => (Throw, t).

Definition bind {A B} (m : M A) (k : A -> M B) : M B :=
  fun t =>
    match m t with
    | (Ok a, t') => k a t'
    | (Throw, t') => (Throw, t')
    end.

Definition lift {A} (r : result A) : M A := fun t => (r, t).

Declare Scope js_scope.
Delimit Scope js_scope with js.
Notation "x <- m ;; k" := (bind m (fun x => k))
  (at level 61, m at next level, right associativity) : js_scope.
Notation "x <~ r ;; k" := (rbind r (fun x => k))
  (at level 61, r at next level, right associativity) : js_scope.
Open Scope js_scope.

Fixpoint mapM {A B} (f : A -> M B) (xs : list A) : M (list B) :=
  match xs with
  | [] => ret []
  | x :: xs' => y <- f x ;; ys <- mapM f xs' ;; ret (y :: ys)
  end.

(** *** Truthiness, property access, spread *)

(** [ToBoolean]. *)
Definition truthy (v : value) : bool :=
  match v with
  | VUndefined | VNull => false
  | VBool b => b
  | VNum (Int z) => negb (Z.eqb z 0)
  | VNum (Infinity _) => true
  | VNum NaN => false
  | VStr s => negb (String.eqb s "")
  | VArr _ | VObj _ => true
  end.

(** [a || b] on values already evaluated. *)
Definition or_else (a b : value) : value := if truthy a then a else b.

(** [v === s] for a string [s]. *)
Definition is_str (v : value) (s : string) : bool :=
  match v with
  | VStr s' => String.eqb s' s
  | _ => false
  end.

(** [xs.includes(v)] for an array [xs] of strings. *)
Definition includes (xs : list string) (v : value) : bool :=
  existsb (is_str v) xs.

(** [o.k] on an object. *)
Fixpoint lookup (k : string) (o : obj) : value :=
  match o with
  | [] => VUndefined
  | (k', v) :: o' => if String.eqb k' k then v else lookup k o'
  end.

Definition string_of_nat (n : nat) : string :=
  NilEmpty.string_of_uint (Nat.to_uint n).

(** The decimal numeral of an integer, with all its digits. *)
Definition string_of_Z (z : Z) : string :=
  match z with
  | Z0 => "0"
  | Zpos p => NilEmpty.string_of_uint (Pos.to_uint p)
  | Zneg p => "-" ++ NilEmpty.string_of_uint (Pos.to_uint p)
  end.

(** [v.k].  Reading a property of [null] or [undefined] throws.  Arrays and
    strings have a [length]; their index properties are never read by the
    component and are left out. *)
Definition get (v : value) (k : string) : result value :=
  match v with
  | VUndefined | VNull => Throw
  | VObj o => Ok (lookup k o)
  | VArr xs =>
      Ok (if String.eqb k "length"
          then VNum (Int (Z.of_nat (List.length xs))) else VUndefined)
  | VStr s =>
      Ok (if String.eqb k "length"
          then VNum (Int (Z.of_nat (String.length s))) else VUndefined)
  | VBool _ | VNum _ => Ok VUndefined
  end.

(** [v?.k]. *)
Definition optget (v : value) (k : string) : value :=
  match get v k with
  | Ok x => x
  | Throw => VUndefined
  end.

(** [{ ...o, k: v }]: an existing property keeps its place, a new one
    goes last. *)
Fixpoint set (k : string) (v : value) (o : obj) : obj :=
  match o with
  | [] => [(k, v)]
  | (k', v') :: o' =>
      if String.eqb k' k then (k, v) :: o' else (k', v') :: set k v o'
  end.

Definition assign (o upd : obj) : obj :=
  fold_left (fun acc kv => set (fst kv) (snd kv) acc) upd o.

Fixpoint index_props_from (i : nat) (xs : list value) : obj :=
  match xs with
  | [] => []
  | x :: xs' => (string_of_nat i, x) :: index_props_from (S i) xs'
  end.

Fixpoint chars (s : string) : list value :=
  match s with
  | EmptyString => []
  | String c s' => VStr (String c EmptyString) :: chars s'
  end.

(** The properties [{ ...v }] copies: those of an object, the elements of
    an array, the characters of a string, none of anything else. *)
Definition spread (v : value) : obj :=
  match v with
  | VObj o => o
  | VArr xs => index_props_from 0 xs
  | VStr s => index_props_from 0 (chars s)
  | _ => []
  end.

(** [Array.isArray(v) && v.length > 0]. *)
Definition nonempty_array (v : value) : bool :=
  match v with
  | VArr (_ :: _) => true
  | _ => false
  end.

(** *** Numbers as doubles

    A JavaScript Number is a double.  An integer up to 2^53 is one
    exactly, and is printed with all its digits.  Above 2^53 an integer
    is rounded to 53 significant bits when it is read, and printed with
    the fewest digits that read back as the same Number, in exponent form
    from 1e21 on. *)

(** The Number nearest an integer.  Up to 2^53 it is the integer itself;
    above, the integer is rounded to 53 significant bits, a tie going to
    the even one, and from 2^1024 - 2^970 on the result is an infinity. *)
Definition nearest_double (z : Z) : number :=
  let a := Z.abs z in
  if (a <=? 2 ^ 53)%Z then Int z
  else
    let shift := (Z.log2 a - 52)%Z in
    let q := Z.shiftr a shift in
    let r := (a - Z.shiftl q shift)%Z in
    let half := Z.shiftl 1 (shift - 1) in
    let q' :=
      if (r <? half)%Z then q
      else if (half <? r)%Z then (q + 1)%Z
      else if Z.even q then q else (q + 1)%Z in
    let v := Z.shiftl q' shift in
    if (2 ^ 1024 <=? v)%Z then Infinity (z <? 0)%Z
    else Int (if (z <? 0)%Z then - v else v)%Z.

Definition reads_back (x v : Z) : bool :=
  match nearest_double v with
  | Int y => Z.eqb y x
  | _ => false
  end.

(** The decimal numerals of [k] digits that read back as [x]: [(s, n)]
    stands for [s * 10^(n - k)]. *)
Definition candidates (x N k : Z) : list (Z * Z) :=
  flat_map
    (fun n =>
       let p := (10 ^ (n - k))%Z in
       filter
         (fun sn =>
            (10 ^ (k - 1) <=? fst sn)%Z && (fst sn <? 10 ^ k)%Z
            && reads_back x (fst sn * p))
         [ ((x / p)%Z, n); ((x / p + 1)%Z, n) ])
    [ N; (N + 1)%Z ].

(** The candidate nearest [x], the even one of two equally near. *)
Definition closest (x k : Z) (cs : list (Z * Z)) : option (Z * Z) :=
  fold_left
    (fun best c =>
       match best with
       | None => Some c
       | Some b =>
           let d (sn : Z * Z) := Z.abs (fst sn * 10 ^ (snd sn - k) - x) in
           if (d c <? d b)%Z || ((d c =? d b)%Z && Z.even (fst c))
           then Some c else Some b
       end)
    cs None.

(** The fewest digits that read back as [x]: [(s, k, n)]. *)
Fixpoint shortest (fuel : nat) (x N k : Z) : Z * Z * Z :=
  match fuel with
  | O => (x, N, N)
  | S fuel' =>
      match closest x k (candidates x N k) with
      | Some (s, n) => (s, k, n)
      | None => shortest fuel' x N (k + 1)
      end
  end.

Fixpoint zeros (n : nat) : string :=
  match n with
  | O => ""
  | S n' => String "0" (zeros n')
  end.

(** [Number::toString] of a positive integer Number above 2^53. *)
Definition large_to_string (x : Z) : string :=
  let N := Z.of_nat (String.length (string_of_Z x)) in
  let '(s, k, n) := shortest (Z.to_nat N) x N 1 in
  let ds := string_of_Z s in
  if (n <=? 21)%Z then ds ++ zeros (Z.to_nat (n - k))
  else
    match ds with
    | String d EmptyString => String d ("e+" ++ string_of_Z (n - 1))
    | String d rest => String d ("." ++ rest ++ "e+" ++ string_of_Z (n - 1))
    | EmptyString => ""
    end.

(** [Number::toString], radix ten. *)
Definition Number_toString (n : number) : string :=
  match n with
  | NaN => "NaN"
  | Infinity false => "Infinity"
  | Infinity true => "-Infinity"
  | Int z =>
      if (Z.abs z <=? 2 ^ 53)%Z then string_of_Z z
      else
        match nearest_double z with
        | Int x =>
            (if (x <? 0)%Z then "-" else "") ++ large_to_string (Z.abs x)
        | Infinity false => "Infinity"
        | Infinity true => "-Infinity"
        | NaN => "NaN"
        end
  end.

(** *** Strings *)

Fixpoint join (sep : string) (xs : list string) : string :=
  match xs with
  | [] => ""
  | [x] => x
  | x :: xs' => x ++ sep ++ join sep xs'
  end.

(** [String(v)], as a template literal applies it. *)
Fixpoint to_string (v : value) : string :=
  match v with
  | VUndefined => "undefined"
  | VNull => "null"
  | VBool true => "true"
  | VBool false => "false"
  | VNum n => Number_toString n
  | VStr s => s
  | VArr xs =>
      join ","
        (map (fun x =>
                match x with
                | VUndefined | VNull => ""
                | _ => to_string x
                end) xs)
  | VObj _ => "[object Object]"
  end.

Definition upper (c : ascii) : ascii :=
  let n := nat_of_ascii c in
  if (97 <=? n)%nat && (n <=? 122)%nat then ascii_of_nat (n - 32) else c.

(** [s.charAt(0).toUpperCase() + s.slice(1)]. *)
Definition capitalize (s : string) : string :=
  match s with
  | EmptyString => ""
  | String c s' => String (upper c) s'
  end.

(** [s.split(' ')]. *)
Fixpoint split_spaces_from (cur : string) (s : string) : list string :=
  match s with
  | EmptyString => [cur]
  | String c s' =>
      if Ascii.eqb c " "%char
      then cur :: split_spaces_from "" s'
      else split_spaces_from (cur ++ String c EmptyString) s'
  end.

Definition split_spaces (s : string) : list string := split_spaces_from "" s.

(** White space that [parseInt] skips (code units below 256). *)
Definition is_space (c : ascii) : bool :=
  let n := nat_of_ascii c in
  ((9 <=? n)%nat && (n <=? 13)%nat) || (n =? 32)%nat || (n =? 160)%nat.

Fixpoint skip_space (s : string) : string :=
  match s with
  | String c s' => if is_space c then skip_space s' else s
  | EmptyString => s
  end.

Definition digit_value (radix : Z) (c : ascii) : option Z :=
  let n := Z.of_nat (nat_of_ascii c) in
  let d :=
    if (48 <=? n)%Z && (n <=? 57)%Z then Some (n - 48)%Z
    else if (97 <=? n)%Z && (n <=? 122)%Z then Some (n - 87)%Z
    else if (65 <=? n)%Z && (n <=? 90)%Z then Some (n - 55)%Z
    else None in
  match d with
  | Some x => if (x <? radix)%Z then Some x else None
  | None => None
  end.

(** The longest prefix of digits, read in [radix]; [None] when there is
    no digit. *)
Fixpoint digits (radix : Z) (acc : option Z) (s : string) : option Z :=
  match s with
  | EmptyString => acc
  | String c s' =>
      match digit_value radix c with
      | Some d =>
          digits radix
            (Some (match acc with Some a => a * radix + d | None => d end)%Z)
            s'
      | None => acc
      end
  end.

Definition is_digit (c : ascii) : bool :=
  let n := nat_of_ascii c in (48 <=? n)%nat && (n <=? 57)%nat.

Fixpoint all_digits (s : string) : bool :=
  match s with
  | EmptyString => true
  | String c s' => is_digit c && all_digits s'
  end.

(** [parseInt(s)]: white space, a sign, [0x] for base sixteen, digits;
    what follows the digits is ignored.  The result is the Number nearest
    the integer read. *)
Definition parseInt (s : string) : number :=
  let s1 := skip_space s in
  let '(neg, s2) :=
    match s1 with
    | String "-"%char r => (true, r)
    | String "+"%char r => (false, r)
    | _ => (false, s1)
    end in
  let '(radix, s3) :=
    match s2 with
    | String "0"%char (String "x"%char r) => (16%Z, r)
    | String "0"%char (String "X"%char r) => (16%Z, r)
    | _ => (10%Z, s2)
    end in
  match digits radix None s3 with
  | Some n => nearest_double (if neg then - n else n)%Z
  | None => NaN
  end.

(** ** The platform *)

Class Platform : Type := {
  (** the identifier returned by the call of [nanoid()] that is draw
      number [k] *)
  nanoid : nat -> string;
  (** [Math.floor(Math.random() * n)] when it is draw number [k] *)
  random_below : nat -> nat -> nat;
  JSON_stringify : value -> string;
  (** [None] when the text is not JSON and [JSON.parse] throws *)
  JSON_parse : string -> option value;
  (** React Flow's [addEdge(edge, edges)] *)
  addEdge : obj -> list obj -> list obj
}.

(** ** Shapes and their default connection points *)

Inductive NodeCategoryType : Type :=
| rectangle
| circle.

Definition tag (c : NodeCategoryType) : string :=
  match c with
  | rectangle => "rectangle"
  | circle => "circle"
  end.

Definition COLORS : list string :=
  [ "#2563eb";
    "#16a34a"; "#dc2626"; "#ca8a04";
    "#9333ea"; "#0891b2"; "#ea580c"; "#be185d" ].

Definition AVAILABLE_SHAPES : list string := [tag rectangle; tag circle].

(** One entry of [customHandles]. *)
Definition handle (type position id : string) (style : obj) : value :=
  VObj [ ("type", VStr type); ("position", VStr position);
         ("id", VStr id); ("style", VObj style) ].

Section Editor.

Context {P : Platform}.

(** [nanoid()]. *)
Definition fresh_id : M value :=
  fun t => (Ok (VStr (nanoid t)), S t).

Definition getDefaultHandlesForShape (shapeType nodeId : value) : M value :=
  baseId <- (if truthy nodeId then ret nodeId else fresh_id) ;;
  let base := to_string baseId in
  if is_str shapeType "rectangle" then
    ret (VArr
      [ handle "target" "left" (base ++ "-left-target") [("top", VStr "50%")];
        handle "source" "right" (base ++ "-right-source") [("top", VStr "50%")] ])
  else if is_str shapeType "circle" then
    ret (VArr
      [ handle "target" "top" (base ++ "-top-target") [("left", VStr "50%")];
        handle "source" "bottom" (base ++ "-bottom-source") [("left", VStr "50%")];
        handle "target" "left" (base ++ "-left-target") [("top", VStr "50%")];
        handle "source" "right" (base ++ "-right-source") [("top", VStr "50%")] ])
  else ret (VArr []).

(** [COLORS[i]]. *)
Definition COLORS_at (i : nat) : value :=
  match nth_error COLORS i with
  | Some c => VStr c
  | None => VUndefined
  end.

(** ** The component's state *)

(** One history entry. *)
Record FlowState : Type := {
  fs_nodes : list obj;
  fs_edges : list obj
}.

Record Flow : Type := {
  nodes : list obj;
  edges : list obj;
  selectedNode : option obj;
  history : list FlowState;
  currentStep : nat;
  isInitialLoadDone : bool;
  (** the slot ['flow'] of [localStorage] *)
  localStorage : option string;
  (** draws made from [nanoid] and [Math.random] *)
  draws : nat;
  (** [nodes] or [edges] were set since the save effect last ran *)
  stale : bool
}.

(** The state of the first render, before any effect has run. *)
Definition initial (slot : option string) (t : nat) : Flow :=
  {| nodes := []; edges := []; selectedNode := None;
     history := [ {| fs_nodes := []; fs_edges := [] |} ]; currentStep := 0;
     isInitialLoadDone := false; localStorage := slot; draws := t;
     stale := false |}.

(** ** Loading from the slot *)

(** The callback of [(parsedFlow.nodes || []).map]. *)
Definition loadNode (node : value) : M obj :=
  data <- lift (get node "data") ;;
  nodeCategory <- lift
    (if includes AVAILABLE_SHAPES (optget data "nodeCategory")
     then get data "nodeCategory"
     else
       type <~ get node "type" ;;
       Ok (if includes AVAILABLE_SHAPES type then type else VStr "rectangle")) ;;
  customHandles <-
    (if nonempty_array (optget data "customHandles")
     then lift (get data "customHandles")
     else id <- lift (get node "id") ;; getDefaultHandlesForShape nodeCategory id) ;;
  ret (assign (spread node)
         [ ("type", nodeCategory);
           ("data",
            VObj (assign (spread (or_else data (VObj [])))
                    [ ("nodeCategory", nodeCategory);
                      ("customHandles", customHandles);
                      ("color", or_else (optget data "color") (COLORS_at 0));
                      ("content", or_else (optget data "content") (VStr "")) ])) ]).

(** The callback of [(parsedFlow.edges || []).map]. *)
Definition loadEdge (edge : value) : result obj :=
  type <~ get edge "type" ;;
  animated <~ get edge "animated" ;;
  style <~ get edge "style" ;;
  style' <~
    (if truthy style then
       stroke <~ get style "stroke" ;;
       strokeWidth <~ get style "strokeWidth" ;;
       Ok (assign (spread style)
             [ ("stroke", or_else stroke (VStr "#2563eb"));
               ("strokeWidth", or_else strokeWidth (VNum (Int 2))) ])
     else Ok [ ("stroke", VStr "#2563eb"); ("strokeWidth", VNum (Int 2)) ]) ;;
  Ok (assign (spread edge)
        [ ("type", or_else type (VStr "bezier"));
          ("animated",
           match animated with VUndefined => VBool true | _ => animated end);
          ("style", VObj style') ]).

(** [(v || []).map(f)]: only an array has a [map]. *)
Definition loadNodes (parsedFlow : value) : M (list obj) :=
  stored <- lift (get parsedFlow "nodes") ;;
  match or_else stored (VArr []) with
  | VArr xs => mapM loadNode xs
  | _ => throw
  end.

Definition loadEdges (parsedFlow : value) : result (list obj) :=
  stored <~ get parsedFlow "edges" ;;
  match or_else stored (VArr []) with
  | VArr xs => rmap loadEdge xs
  | _ => Throw
  end.

(** The body of the [try]: what [initialNodes] and [initialEdges] hold
    after it, whether the [catch] ran, and the draws made. *)
Definition readSlot (savedFlow : string) (t : nat)
  : list obj * list obj * bool * nat :=
  match JSON_parse savedFlow with
  | None => ([], [], true, t)
  | Some parsedFlow =>
      match loadNodes parsedFlow t with
      | (Throw, t') => ([], [], true, t')
      | (Ok initialNodes, t') =>
          match loadEdges parsedFlow with
          | Throw => (initialNodes, [], true, t')
          | Ok initialEdges => (initialNodes, initialEdges, false, t')
          end
      end
  end.

(** The effect that runs once on mount. *)
Definition loadEffect (s : Flow) : Flow :=
  let '(initialNodes, initialEdges, slot, t) :=
    match localStorage s with
    | Some savedFlow =>
        if String.eqb savedFlow "" then ([], [], localStorage s, draws s)
        else
          let '(ns, es, caught, t) := readSlot savedFlow (draws s) in
          (ns, es, if caught then None else localStorage s, t)
    | None => ([], [], None, draws s)
    end in
  {| nodes := initialNodes; edges := initialEdges;
     selectedNode := selectedNode s;
     history := [ {| fs_nodes := initialNodes; fs_edges := initialEdges |} ];
     currentStep := 0; isInitialLoadDone := true;
     localStorage := slot; draws := t; stale := true |}.

(** ** Saving and recording *)

Definition saveNode (node : obj) : result obj :=
  let data := lookup "data" node in
  label <~ get data "label" ;;
  nodeCategory <~ get data "nodeCategory" ;;
  color <~ get data "color" ;;
  content <~ get data "content" ;;
  customHandles <~ get data "customHandles" ;;
  Ok [ ("id", lookup "id" node);
       ("position", lookup "position" node);
       ("type", lookup "type" node);
       ("data",
        VObj [ ("label", label); ("nodeCategory", nodeCategory);
               ("color", color); ("content", content);
               ("customHandles", customHandles) ]) ].

Definition saveEdge (edge : obj) : obj :=
  [ ("id", lookup "id" edge);
    ("source", lookup "source" edge);
    ("target", lookup "target" edge);
    ("sourceHandle", lookup "sourceHandle" edge);
    ("targetHandle", lookup "targetHandle" edge);
    ("type", lookup "type" edge);
    ("animated", lookup "animated" edge);
    ("style", lookup "style" edge) ].

(** [JSON.stringify] of an array of objects. *)
Definition stringify_all (xs : list obj) : string :=
  JSON_stringify (VArr (map VObj xs)).

(** The document written to the slot. *)
Definition document (nodesToSave edgesToSave : list obj) : value :=
  VObj [ ("nodes", VArr (map VObj nodesToSave));
         ("edges", VArr (map VObj edgesToSave)) ].

Definition last_entry (h : list FlowState) : option FlowState :=
  nth_error h (List.length h - 1).

(** The comparison that decides [isDuplicate]. *)
Definition same_serialization (e : FlowState) (ns es : list obj) : bool :=
  String.eqb (stringify_all (fs_nodes e)) (stringify_all ns)
  && String.eqb (stringify_all (fs_edges e)) (stringify_all es).

(** The history part of the save effect: what [history] and
    [currentStep] are once the effect has run. *)
Definition record_snapshot (nodesToSave edgesToSave : list obj)
    (h : list FlowState) (step : nat) : list FlowState * nat :=
  let newHistoryEntry :=
    {| fs_nodes := nodesToSave; fs_edges := edgesToSave |} in
  let baseHistory := firstn (step + 1) h in
  let isDuplicate :=
    match last_entry baseHistory with
    | Some lastSavedEntryInBase =>
        same_serialization lastSavedEntryInBase nodesToSave edgesToSave
    | None => false
    end in
  if isDuplicate then (h, step)
  else ((baseHistory ++ [newHistoryEntry])%list, List.length baseHistory).

(** The effect that runs when [nodes] or [edges] have changed. *)
Definition saveEffect (s : Flow) : result Flow :=
  if negb (isInitialLoadDone s) then Ok s
  else
    nodesToSave <~ rmap saveNode (nodes s) ;;
    let edgesToSave := map saveEdge (edges s) in
    let '(h, step) :=
      record_snapshot nodesToSave edgesToSave (history s) (currentStep s) in
    Ok {| nodes := nodes s; edges := edges s; selectedNode := selectedNode s;
          history := h; currentStep := step;
          isInitialLoadDone := isInitialLoadDone s;
          localStorage :=
            Some (JSON_stringify (document nodesToSave edgesToSave));
          draws := draws s; stale := false |}.

(** React runs the save effect after a render in which [nodes] or [edges]
    were set. *)
Definition settle (s : Flow) : result Flow :=
  if stale s then saveEffect s else Ok s.

(** ** Undo and redo *)

(** [{ ...n, data: { ...n.data } }]. *)
Definition copyNode (n : obj) : obj :=
  assign n [ ("data", VObj (spread (lookup "data" n))) ].

(** [{ ...e }]. *)
Definition copyEdge (e : obj) : obj := spread (VObj e).

Definition restore (e : FlowState) (step : nat) (s : Flow) : Flow :=
  {| nodes := map copyNode (fs_nodes e);
     edges := map copyEdge (fs_edges e);
     selectedNode := selectedNode s; history := history s;
     currentStep := step; isInitialLoadDone := isInitialLoadDone s;
     localStorage := localStorage s; draws := draws s; stale := true |}.

Definition undo (s : Flow) : Flow :=
  if (0 <? currentStep s)%nat then
    let newStep := currentStep s - 1 in
    match nth_error (history s) newStep with
    | Some prevState => restore prevState newStep s
    | None => s
    end
  else s.

Definition redo (s : Flow) : Flow :=
  if (currentStep s <? List.length (history s) - 1)%nat then
    let newStep := currentStep s + 1 in
    match nth_error (history s) newStep with
    | Some nextState => restore nextState newStep s
    | None => s
    end
  else s.

Definition clearAll (s : Flow) : Flow :=
  {| nodes := []; edges := []; selectedNode := selectedNode s;
     history := history s; currentStep := currentStep s;
     isInitialLoadDone := isInitialLoadDone s;
     localStorage := localStorage s; draws := draws s; stale := true |}.

(** ** Edges and nodes *)

Definition set_nodes (ns : list obj) (t : nat) (s : Flow) : Flow :=
  {| nodes := ns; edges := edges s; selectedNode := selectedNode s;
     history := history s; currentStep := currentStep s;
     isInitialLoadDone := isInitialLoadDone s;
     localStorage := localStorage s; draws := t; stale := true |}.

Definition set_draws (t : nat) (s : Flow) : Flow :=
  {| nodes := nodes s; edges := edges s; selectedNode := selectedNode s;
     history := history s; currentStep := currentStep s;
     isInitialLoadDone := isInitialLoadDone s;
     localStorage := localStorage s; draws := t; stale := stale s |}.

(** The edge [onConnect] hands to [addEdge]. *)
Definition newEdge (params : obj) (id : string) : obj :=
  assign params
    [ ("id", VStr id); ("type", VStr "bezier"); ("animated", VBool true);
      ("style",
       VObj [ ("stroke", VStr "#2563eb"); ("strokeWidth", VNum (Int 2)) ]) ].

Definition onConnect (params : obj) (s : Flow) : Flow :=
  {| nodes := nodes s;
     edges := addEdge (newEdge params (nanoid (draws s))) (edges s);
     selectedNode := selectedNode s;
     history := history s; currentStep := currentStep s;
     isInitialLoadDone := isInitialLoadDone s;
     localStorage := localStorage s; draws := S (draws s); stale := true |}.

(** [nds.filter(f).length] for a test [f] that may throw. *)
Fixpoint count_where (f : obj -> result bool) (nds : list obj) : result nat :=
  match nds with
  | [] => Ok 0
  | n :: nds' =>
      b <~ f n ;; k <~ count_where f nds' ;; Ok (if b then S k else k)
  end.

(** [n.data.nodeCategory === c]. *)
Definition has_category (c : NodeCategoryType) (n : obj) : result bool :=
  nodeCategory <~ get (lookup "data" n) "nodeCategory" ;;
  Ok (is_str nodeCategory (tag c)).

(** [`${c.charAt(0).toUpperCase() + c.slice(1)} ${k}`]. *)
Definition label_for (c : NodeCategoryType) (k : number) : string :=
  capitalize (tag c) ++ " " ++ to_string (VNum k).

(** A throw in this click handler leaves the state as it was. *)
Definition createNewNode (nodeCat : NodeCategoryType) (position : value)
    (s : Flow) : Flow :=
  let id := VStr (nanoid (draws s)) in
  match getDefaultHandlesForShape (VStr (tag nodeCat)) id (S (draws s)) with
  | (Ok customHandlesConfig, t) =>
      match count_where (has_category nodeCat) (nodes s) with
      | Ok k =>
          let count := k + 1 in
          let newNode : obj :=
            [ ("id", id); ("type", VStr (tag nodeCat)); ("position", position);
              ("data",
               VObj [ ("label",
                       VStr (label_for nodeCat (Int (Z.of_nat count))));
                      ("nodeCategory", VStr (tag nodeCat));
                      ("color",
                       COLORS_at (random_below t (List.length COLORS)));
                      ("content", VStr "");
                      ("customHandles", customHandlesConfig) ]) ] in
          set_nodes (nodes s ++ [newNode])%list (S t) s
      | Throw => set_draws t s
      end
  | (Throw, t) => set_draws t s
  end.

Definition handleDeleteNode (nodeId : string) (s : Flow) : Flow :=
  if truthy (VStr nodeId) then
    {| nodes :=
         filter (fun node => negb (is_str (lookup "id" node) nodeId)) (nodes s);
       edges :=
         filter (fun edge =>
                   negb (is_str (lookup "source" edge) nodeId)
                   && negb (is_str (lookup "target" edge) nodeId)) (edges s);
       selectedNode :=
         match selectedNode s with
         | Some n => if is_str (lookup "id" n) nodeId then None else Some n
         | None => None
         end;
       history := history s; currentStep := currentStep s;
       isInitialLoadDone := isInitialLoadDone s;
       localStorage := localStorage s; draws := draws s; stale := true |}
  else s.

(** The callback of [nds.map] in [handleChangeNodeType]. *)
Definition changeNode (nds : list obj) (nodeId : string)
    (newType : NodeCategoryType) (n : obj) : M obj :=
  if is_str (lookup "id" n) nodeId then
    newHandles <-
      getDefaultHandlesForShape (VStr (tag newType)) (lookup "id" n) ;;
    currentCountForNewType <-
      lift (count_where
              (fun node =>
                 if negb (is_str (lookup "id" node) nodeId)
                 then has_category newType node else Ok false) nds) ;;
    label <- lift (get (lookup "data" n) "label") ;;
    match label with
    | VStr l =>
        let oldLabelParts := split_spaces l in
        let oldNumber := parseInt (last oldLabelParts "") in
        let newLabelNumber :=
          match oldNumber with
          | NaN => Int (Z.of_nat (currentCountForNewType + 1))
          | _ => oldNumber
          end in
        ret (assign n
               [ ("type", VStr (tag newType));
                 ("data",
                  VObj (assign (spread (lookup "data" n))
                          [ ("label", VStr (label_for newType newLabelNumber));
                            ("nodeCategory", VStr (tag newType));
                            ("customHandles", newHandles) ])) ])
    | _ => throw
    end
  else ret n.

(** The updater runs while React renders: a throw in it is not caught. *)
Definition handleChangeNodeType (nodeId : string) (newType : NodeCategoryType)
    (s : Flow) : result Flow :=
  if truthy (VStr nodeId) && truthy (VStr (tag newType)) then
    match mapM (changeNode (nodes s) nodeId newType) (nodes s) (draws s) with
    | (Ok nds, t) => Ok (set_nodes nds t s)
    | (Throw, _) => Throw
    end
  else Ok s.

Definition handleUpdateNodeData (nodeId : string) (newData : obj) (s : Flow)
  : Flow :=
  if truthy (VStr nodeId) && truthy (VObj newData) then
    set_nodes
      (map (fun n =>
              if is_str (lookup "id" n) nodeId
              then assign n
                     [ ("data",
                        VObj (assign (spread (lookup "data" n)) newData)) ]
              else n) (nodes s))
      (draws s) s
  else s.

End Editor.

(** ** The listener of [changeNodeType] on any event

    [handleChangeNodeType] above takes the new shape at its TypeScript
    type, one of the two shapes.  The listener itself only tests that
    [newType] is truthy before it uses it: here it is on whatever text the
    event carries. *)

Module Untyped.

Section Listener.

Context {P : Platform}.

(** [n.data.nodeCategory === newType]. *)
Definition has_category (newType : string) (n : obj) : result bool :=
  nodeCategory <~ get (lookup "data" n) "nodeCategory" ;;
  Ok (is_str nodeCategory newType).

(** [`${newType.charAt(0).toUpperCase() + newType.slice(1)} ${k}`]. *)
Definition label_for (newType : string) (k : number) : string :=
  capitalize newType ++ " " ++ to_string (VNum k).

Definition changeNode (nds : list obj) (nodeId : string) (newType : string)
    (n : obj) : M obj :=
  if is_str (lookup "id" n) nodeId then
    newHandles <-
      getDefaultHandlesForShape (VStr newType) (lookup "id" n) ;;
    currentCountForNewType <-
      lift (count_where
              (fun node =>
                 if negb (is_str (lookup "id" node) nodeId)
                 then has_category newType node else Ok false) nds) ;;
    label <- lift (get (lookup "data" n) "label") ;;
    match label with
    | VStr l =>
        let oldLabelParts := split_spaces l in
        let oldNumber := parseInt (last oldLabelParts "") in
        let newLabelNumber :=
          match oldNumber with
          | NaN => Int (Z.of_nat (currentCountForNewType + 1))
          | _ => oldNumber
          end in
        ret (assign n
               [ ("type", VStr newType);
                 ("data",
                  VObj (assign (spread (lookup "data" n))
                          [ ("label", VStr (label_for newType newLabelNumber));
                            ("nodeCategory", VStr newType);
                            ("customHandles", newHandles) ])) ])
    | _ => throw
    end
  else ret n.

Definition handleChangeNodeType (nodeId : string) (newType : string)
    (s : Flow) : result Flow :=
  if truthy (VStr nodeId) && truthy (VStr newType) then
    match mapM (changeNode (nodes s) nodeId newType) (nodes s) (draws s) with
    | (Ok nds, t) => Ok (set_nodes nds t s)
    | (Throw, _) => Throw
    end
  else Ok s.

End Listener.

End Untyped.

(** ** React Flow's [addEdge]

    The library function, as its version 11 defines it for an edge that
    has an [id] (the one [onConnect] passes has): an edge without a source
    or a target is refused, and so is one whose connection (both ends and
    both handles) is there already. *)

(** [a === b] on primitives; two objects or arrays are taken to be
    distinct references. *)
Definition strict_eq (a b : value) : bool :=
  match a, b with
  | VUndefined, VUndefined | VNull, VNull => true
  | VBool x, VBool y => Bool.eqb x y
  | VNum (Int x), VNum (Int y) => Z.eqb x y
  | VNum (Infinity x), VNum (Infinity y) => Bool.eqb x y
  | VStr x, VStr y => String.eqb x y
  | _, _ => false
  end.

(** [a === b || (!a && !b)]. *)
Definition same_handle (a b : value) : bool :=
  strict_eq a b || (negb (truthy a) && negb (truthy b)).

Definition connectionExists (edge : obj) (edges : list obj) : bool :=
  existsb (fun el =>
             strict_eq (lookup "source" el) (lookup "source" edge)
             && strict_eq (lookup "target" el) (lookup "target" edge)
             && same_handle (lookup "sourceHandle" el)
                            (lookup "sourceHandle" edge)
             && same_handle (lookup "targetHandle" el)
                            (lookup "targetHandle" edge)) edges.

Definition reactflow_addEdge (edgeParams : obj) (edges : list obj) : list obj :=
  if negb (truthy (lookup "source" edgeParams))
     || negb (truthy (lookup "target" edgeParams))
  then edges
  else if connectionExists edgeParams edges then edges
  else (edges ++ [edgeParams])%list.

(** ** A concrete platform

    Identifiers [id0], [id1], ...; a JSON printer that follows
    [JSON.stringify] (a property whose value is [undefined] is left out,
    [NaN], an infinity and an [undefined] array element are printed as
    [null]) and a parser of JSON texts that follows [JSON.parse] on
    all but number literals with a fractional value and escapes above
    [\u00ff]. *)

Module Browser.

Definition dquote : ascii := ascii_of_nat 34.
Definition backslash : ascii := ascii_of_nat 92.

Definition hex_digit (n : nat) : ascii :=
  if (n <? 10)%nat then ascii_of_nat (48 + n) else ascii_of_nat (87 + n).

Fixpoint escape (s : string) : string :=
  match s with
  | EmptyString => ""
  | String c s' =>
      let n := nat_of_ascii c in
      (if Ascii.eqb c dquote then String backslash (String dquote "")
       else if Ascii.eqb c backslash then String backslash (String backslash "")
       else if (n =? 10)%nat then String backslash "n"
       else if (n =? 13)%nat then String backslash "r"
       else if (n =? 9)%nat then String backslash "t"
       else if (n =? 8)%nat then String backslash "b"
       else if (n =? 12)%nat then String backslash "f"
       else if (n <? 32)%nat
            then String backslash
                   ("u00" ++ String (hex_digit (n / 16))
                               (String (hex_digit (n mod 16)) ""))
       else String c "")
      ++ escape s'
  end.

Definition quote (s : string) : string :=
  String dquote (escape s ++ String dquote "").

Fixpoint print (v : value) : string :=
  match v with
  | VUndefined | VNull | VNum NaN | VNum (Infinity _) => "null"
  | VBool true => "true"
  | VBool false => "false"
  | VNum (Int z) => Number_toString (Int z)
  | VStr s => quote s
  | VArr xs => "[" ++ join "," (map print xs) ++ "]"
  | VObj o =>
      "{"
      ++ join ","
           ((fix members (o : list (string * value)) : list string :=
               match o with
               | [] => []
               | (_, VUndefined) :: o' => members o'
               | (k, x) :: o' => (quote k ++ ":" ++ print x) :: members o'
               end) o)
      ++ "}"
  end.

Fixpoint blanks (s : string) : string :=
  match s with
  | String c s' =>
      let n := nat_of_ascii c in
      if (n =? 32)%nat || (n =? 9)%nat || (n =? 10)%nat || (n =? 13)%nat
      then blanks s' else s
  | EmptyString => s
  end.

Definition hex_value (c : ascii) : option nat :=
  match digit_value 16 c with
  | Some d => Some (Z.to_nat d)
  | None => None
  end.

(** The characters of a string literal, after its opening quote. *)
Fixpoint parse_chars (s : string) : option (string * string) :=
  match s with
  | EmptyString => None
  | String c s' =>
      if Ascii.eqb c dquote then Some ("", s')
      else if Ascii.eqb c backslash then
        match s' with
        | String e s'' =>
            let plain (x : ascii) (rest : string) :=
              match parse_chars rest with
              | Some (r, rest') => Some (String x r, rest')
              | None => None
              end in
            if Ascii.eqb e "n"%char then plain (ascii_of_nat 10) s''
            else if Ascii.eqb e "r"%char then plain (ascii_of_nat 13) s''
            else if Ascii.eqb e "t"%char then plain (ascii_of_nat 9) s''
            else if Ascii.eqb e "b"%char then plain (ascii_of_nat 8) s''
            else if Ascii.eqb e "f"%char then plain (ascii_of_nat 12) s''
            else if Ascii.eqb e "/"%char then plain "/"%char s''
            else if Ascii.eqb e dquote then plain dquote s''
            else if Ascii.eqb e backslash then plain backslash s''
            else if Ascii.eqb e "u"%char then
              match s'' with
              | String "0" (String "0" (String h (String l rest))) =>
                  match hex_value h, hex_value l with
                  | Some a, Some b => plain (ascii_of_nat (16 * a + b)) rest
                  | _, _ => None
                  end
              | _ => None
              end
            else None
        | EmptyString => None
        end
      else if (nat_of_ascii c <? 32)%nat then None
      else
        match parse_chars s' with
        | Some (r, rest) => Some (String c r, rest)
        | None => None
        end
  end.

Fixpoint take_digits (s : string) : string * string :=
  match s with
  | String c s' =>
      match digit_value 10 c with
      | Some _ => let '(d, rest) := take_digits s' in (String c d, rest)
      | None => ("", s)
      end
  | EmptyString => ("", s)
  end.

(** The fraction of a number literal: its digits, none when there is
    no point. *)
Definition parse_fraction (s : string) : option (string * string) :=
  match s with
  | String "." r =>
      match take_digits r with
      | (EmptyString, _) => None
      | (f, rest) => Some (f, rest)
      end
  | _ => Some ("", s)
  end.

(** The exponent of a number literal, zero when there is none. *)
Definition parse_exponent (s : string) : option (Z * string) :=
  match s with
  | String c r =>
      if Ascii.eqb c "e"%char || Ascii.eqb c "E"%char then
        let '(neg, r1) :=
          match r with
          | String "-" r' => (true, r')
          | String "+" r' => (false, r')
          | _ => (false, r)
          end in
        let '(e, rest) := take_digits r1 in
        match digits 10 None e with
        | Some x => Some ((if neg then - x else x)%Z, rest)
        | None => None
        end
      else Some (0%Z, s)
  | EmptyString => Some (0%Z, s)
  end.

(** A number literal: an integer part, a fraction, an exponent.  Its
    value is rounded to the nearest Number.  A literal whose value is
    not an integer stands for none of the numbers of this development
    and is refused. *)
Definition parse_number (s : string) : option (value * string) :=
  let '(neg, s1) :=
    match s with
    | String "-" r => (true, r)
    | _ => (false, s)
    end in
  let '(d, rest) := take_digits s1 in
  match d with
  | EmptyString => None
  | String "0" (String _ _) => None
  | _ =>
      match parse_fraction rest with
      | Some (f, rest1) =>
          match parse_exponent rest1, digits 10 None (d ++ f) with
          | Some (e, rest2), Some m =>
              let scale := (e - Z.of_nat (String.length f))%Z in
              let whole (z : Z) :=
                Some (VNum (nearest_double (if neg then - z else z)%Z),
                      rest2) in
              if (0 <=? scale)%Z then whole (m * 10 ^ scale)%Z
              else if (m mod 10 ^ (- scale) =? 0)%Z
                   then whole (m / 10 ^ (- scale))%Z
                   else None
          | _, _ => None
          end
      | None => None
      end
  end.

Definition keyword (k : string) (v : value) (s : string)
  : option (value * string) :=
  if String.prefix k s
  then Some (v, String.substring (String.length k)
                   (String.length s - String.length k) s)
  else None.

(** The index a key stands for, when it is an array index (the numeral
    of a number below 2^32 - 1): such keys come first in an object, in
    ascending order, whatever the order they were written in. *)
Definition index_of (k : string) : option Z :=
  match k with
  | EmptyString => None
  | String "0" EmptyString => Some 0%Z
  | String "0" _ => None
  | _ =>
      if all_digits k then
        match digits 10 None k with
        | Some n => if (n <=? 4294967294)%Z then Some n else None
        | None => None
        end
      else None
  end.

(** An index key takes its place among the index keys that lead [o]. *)
Fixpoint insert_index (i : Z) (k : string) (v : value) (o : obj) : obj :=
  match o with
  | [] => [(k, v)]
  | (k', v') :: o' =>
      match index_of k' with
      | Some j =>
          if (j <? i)%Z then (k', v') :: insert_index i k v o'
          else (k, v) :: o
      | None => (k, v) :: o
      end
  end.

(** Any other key comes right after the index keys that lead [o]. *)
Fixpoint insert_key (k : string) (v : value) (o : obj) : obj :=
  match o with
  | [] => [(k, v)]
  | (k', v') :: o' =>
      match index_of k' with
      | Some _ => (k', v') :: insert_key k v o'
      | None => (k, v) :: o
      end
  end.

(** A member read before the members [o] that follow it: a key that
    comes again keeps its first place and takes its last value. *)
Definition member (k : string) (x : value) (o : obj) : obj :=
  let later := filter (fun kv => String.eqb (fst kv) k) o in
  let v := match later with [] => x | _ => lookup k o end in
  let o' := filter (fun kv => negb (String.eqb (fst kv) k)) o in
  match index_of k with
  | Some i => insert_index i k v o'
  | None => insert_key k v o'
  end.

Fixpoint parse_value (fuel : nat) (s : string) : option (value * string) :=
  match fuel with
  | O => None
  | S fuel' =>
      match blanks s with
      | String "n" _ => keyword "null" VNull (blanks s)
      | String "t" _ => keyword "true" (VBool true) (blanks s)
      | String "f" _ => keyword "false" (VBool false) (blanks s)
      | String "[" rest =>
          match blanks rest with
          | String "]" rest' => Some (VArr [], rest')
          | _ =>
              match parse_elements fuel' rest with
              | Some (xs, rest') => Some (VArr xs, rest')
              | None => None
              end
          end
      | String "{" rest =>
          match blanks rest with
          | String "}" rest' => Some (VObj [], rest')
          | _ =>
              match parse_members fuel' rest with
              | Some (o, rest') => Some (VObj o, rest')
              | None => None
              end
          end
      | String c rest =>
          if Ascii.eqb c dquote then
            match parse_chars rest with
            | Some (str, rest') => Some (VStr str, rest')
            | None => None
            end
          else parse_number (blanks s)
      | EmptyString => None
      end
  end

with parse_elements (fuel : nat) (s : string)
  : option (list value * string) :=
  match fuel with
  | O => None
  | S fuel' =>
      match parse_value fuel' s with
      | Some (x, rest) =>
          match blanks rest with
          | String "," rest' =>
              match parse_elements fuel' rest' with
              | Some (xs, rest'') => Some (x :: xs, rest'')
              | None => None
              end
          | String "]" rest' => Some ([x], rest')
          | _ => None
          end
      | None => None
      end
  end

with parse_members (fuel : nat) (s : string)
  : option (list (string * value) * string) :=
  match fuel with
  | O => None
  | S fuel' =>
      match blanks s with
      | String c rest =>
          if Ascii.eqb c dquote then
            match parse_chars rest with
            | Some (k, rest1) =>
                match blanks rest1 with
                | String ":" rest2 =>
                    match parse_value fuel' rest2 with
                    | Some (x, rest3) =>
                        match blanks rest3 with
                        | String "," rest4 =>
                            match parse_members fuel' rest4 with
                            | Some (o, rest5) => Some (member k x o, rest5)
                            | None => None
                            end
                        | String "}" rest4 => Some ([(k, x)], rest4)
                        | _ => None
                        end
                    | None => None
                    end
                | _ => None
                end
            | None => None
            end
          else None
      | EmptyString => None
      end
  end.

Definition parse (s : string) : option value :=
  match parse_value (2 * String.length s + 2) s with
  | Some (v, rest) =>
      match blanks rest with
      | EmptyString => Some v
      | _ => None
      end
  | None => None
  end.

#[export] Instance platform : Platform := {
  nanoid := fun k => "id" ++ string_of_nat k;
  random_below := fun k n => k mod n;
  JSON_stringify := print;
  JSON_parse := parse;
  addEdge := reactflow_addEdge
}.

End Browser.

(** ** The other flow page

    The repository has a second flow page with its own
    [getDefaultHandlesForShape]; it differs from the dashboard's in the
    connection points of a circle, of which it gives eight. *)

Module OtherFlowPage.

Section Handles.

Context {P : Platform}.

Definition getDefaultHandlesForShape (shapeType nodeId : value) : M value :=
  baseId <- (if truthy nodeId then ret nodeId else fresh_id) ;;
  let base := to_string baseId in
  if is_str shapeType "rectangle" then
    ret (VArr
      [ handle "target" "left" (base ++ "-left-target") [("top", VStr "50%")];
        handle "source" "right" (base ++ "-right-source") [("top", VStr "50%")] ])
  else if is_str shapeType "circle" then
    ret (VArr
      [ handle "target" "top" (base ++ "-top-left") [("left", VStr "25%")];
        handle "target" "top" (base ++ "-top-right") [("left", VStr "75%")];
        handle "source" "bottom" (base ++ "-bottom-left") [("left", VStr "25%")];
        handle "source" "bottom" (base ++ "-bottom-right") [("left", VStr "75%")];
        handle "target" "left" (base ++ "-left-top") [("top", VStr "25%")];
        handle "target" "left" (base ++ "-left-bottom") [("top", VStr "75%")];
        handle "source" "right" (base ++ "-right-top") [("top", VStr "25%")];
        handle "source" "right" (base ++ "-right-bottom") [("top", VStr "75%")] ])
  else ret (VArr []).

End Handles.

End OtherFlowPage.

(** ** What the properties speak of *)

(** [n.data?.k]. *)
Definition field (n : obj) (k : string) : value := optget (lookup "data" n) k.

(** What a node is to the graph: its id, position and shape tag, its label,
    category, color, content and connection points. *)
Definition node_view (n : obj) : list value :=
  [ lookup "id" n; lookup "position" n; lookup "type" n;
    field n "label"; field n "nodeCategory"; field n "color";
    field n "content"; field n "customHandles" ].

(** The two ends of an edge and the handles it is attached to. *)
Definition edge_ends (e : obj) : list value :=
  [ lookup "source" e; lookup "target" e;
    lookup "sourceHandle" e; lookup "targetHandle" e ].

Definition edge_view (e : obj) : list value :=
  lookup "id" e :: edge_ends e
  ++ [ lookup "type" e; lookup "animated" e; lookup "style" e ].

Definition graph_view (s : Flow) : list (list value) * list (list value) :=
  (map node_view (nodes s), map edge_view (edges s)).

Definition elements (v : value) : list value :=
  match v with
  | VArr xs => xs
  | _ => []
  end.

Definition customHandles_of (n : obj) : list value :=
  elements (field n "customHandles").

Definition handle_ids (hs : list value) : list value :=
  map (fun h => optget h "id") hs.

(** The role and the side of each connection point. *)
Definition handle_kinds (hs : list value) : list (value * value) :=
  map (fun h => (optget h "type", optget h "position")) hs.

Definition is_handle (type position : string) (h : value) : bool :=
  is_str (optget h "type") type && is_str (optget h "position") position.

Definition count_handles (type position : string) (hs : list value) : nat :=
  List.length (filter (is_handle type position) hs).

(** Two targets on top, two sources at the bottom, two targets on the
    left, two sources on the right. *)
Definition eight_point_layout (hs : list value) : Prop :=
  List.length hs = 8
  /\ count_handles "target" "top" hs = 2
  /\ count_handles "source" "bottom" hs = 2
  /\ count_handles "target" "left" hs = 2
  /\ count_handles "source" "right" hs = 2.

(** One target on top, one source at the bottom, one target on the left,
    one source on the right. *)
Definition four_point_layout (hs : list value) : Prop :=
  List.length hs = 4
  /\ count_handles "target" "top" hs = 1
  /\ count_handles "source" "bottom" hs = 1
  /\ count_handles "target" "left" hs = 1
  /\ count_handles "source" "right" hs = 1.

(** The suffixes of the connection-point ids of a shape. *)
Definition suffixes (c : NodeCategoryType) : list string :=
  match c with
  | rectangle => [ "-left-target"; "-right-source" ]
  | circle =>
      [ "-top-target"; "-bottom-source"; "-left-target"; "-right-source" ]
  end.

(** [n.data] can be read: it is neither [undefined] nor [null]. *)
Definition has_data (n : obj) : bool :=
  match lookup "data" n with
  | VUndefined | VNull => false
  | _ => true
  end.

(** Some node has the id [v]. *)
Definition has_node (ns : list obj) (v : value) : bool :=
  existsb (fun n => strict_eq (lookup "id" n) v) ns.

(** No edge refers to a node that is not there. *)
Definition no_dangling (s : Flow) : Prop :=
  forall e, In e (edges s) ->
    has_node (nodes s) (lookup "source" e) = true
    /\ has_node (nodes s) (lookup "target" e) = true.

(** The node [nodeId] is there and has the connection point [handleId]. *)
Definition handle_on (ns : list obj) (nodeId handleId : value) : bool :=
  existsb (fun n =>
             strict_eq (lookup "id" n) nodeId
             && existsb (fun h => strict_eq (optget h "id") handleId)
                  (customHandles_of n)) ns.

(** Both handles of a connection are on the nodes it names. *)
Definition valid_connection (ns : list obj) (params : obj) : bool :=
  handle_on ns (lookup "source" params) (lookup "sourceHandle" params)
  && handle_on ns (lookup "target" params) (lookup "targetHandle" params).

(** The render type of a node is its category, one of the two shapes. *)
Definition shape_ok (n : obj) : Prop :=
  exists c : NodeCategoryType,
    lookup "type" n = VStr (tag c) /\ field n "nodeCategory" = VStr (tag c).


(** A node as the editor makes and loads them: a recognized category that
    is also its render type, a color, a content (the empty text, or
    anything that is not falsy), connection points. *)
Definition editor_node (n : obj) : Prop :=
  shape_ok n
  /\ truthy (field n "color") = true
  /\ (truthy (field n "content") = true \/ field n "content" = VStr "")
  /\ nonempty_array (field n "customHandles") = true.

(** Equality of values whatever the order of the properties of their
    objects; a property that is [undefined] counts as absent. *)
Fixpoint same_structure (a b : value) : bool :=
  match a, b with
  | VUndefined, VUndefined | VNull, VNull => true
  | VBool x, VBool y => Bool.eqb x y
  | VNum (Int x), VNum (Int y) => Z.eqb x y
  | VNum (Infinity x), VNum (Infinity y) => Bool.eqb x y
  | VNum NaN, VNum NaN => true
  | VStr x, VStr y => String.eqb x y
  | VArr xs, VArr ys =>
      (fix all2 (xs ys : list value) : bool :=
         match xs, ys with
         | [], [] => true
         | x :: xs', y :: ys' => same_structure x y && all2 xs' ys'
         | _, _ => false
         end) xs ys
  | VObj o, VObj o' =>
      (fix each (o : list (string * value)) : bool :=
         match o with
         | [] => true
         | (k, x) :: r => same_structure x (lookup k o') && each r
         end) o
      && forallb (fun kv =>
                    match snd kv with
                    | VUndefined => true
                    | _ => existsb (fun kv' => String.eqb (fst kv') (fst kv)) o
                    end) o'
  | _, _ => false
  end.

Definition same_structure_all (xs ys : list obj) : bool :=
  same_structure (VArr (map VObj xs)) (VArr (map VObj ys)).

(** What follows the last space of a label. *)
Definition last_word (label : string) : string :=
  last (split_spaces label) "".

(** The label is the number [m], or ends in a space and the number [m]. *)
Definition ends_in_number (label : string) (m : nat) : Prop :=
  label = string_of_nat m \/ exists pre, label = pre ++ " " ++ string_of_nat m.

(** How many nodes other than [nodeId] are of category [c]. *)
Definition others_of (c : NodeCategoryType) (nodeId : string)
    (nds : list obj) : nat :=
  List.length
    (filter (fun node =>
               negb (is_str (lookup "id" node) nodeId)
               && is_str (field node "nodeCategory") (tag c)) nds).

(** How many nodes are of category [c]. *)
Definition count_of (c : NodeCategoryType) (nds : list obj) : nat :=
  List.length
    (filter (fun node => is_str (field node "nodeCategory") (tag c)) nds).

(** The numeric suffix of a label: its last word, when that is a decimal
    numeral. *)
Definition numeric_suffix (label : string) : option string :=
  let w := last_word label in
  if negb (String.eqb w "") && all_digits w then Some w else None.

(** The label of a reshaped node as the specification words it: the new
    shape's name, then the numeric suffix of the old label if it has one,
    otherwise one more than the count of the other nodes of the new
    shape. *)
Definition specified_label (c : NodeCategoryType) (nodeId : string)
    (nds : list obj) (label : string) : string :=
  capitalize (tag c) ++ " "
  ++ match numeric_suffix label with
     | Some w => w
     | None => string_of_nat (others_of c nodeId nds + 1)
     end.

(** ** The editor as a machine *)

Section Machine.

Context {P : Platform}.

(** The connection points [getDefaultHandlesForShape] gives the node
    [nodeId], when [t] draws have been made. *)
Definition defaultHandles (c : NodeCategoryType) (nodeId : string) (t : nat)
  : list value :=
  match fst (getDefaultHandlesForShape (VStr (tag c)) (VStr nodeId) t) with
  | Ok v => elements v
  | Throw => []
  end.

(** What changes the graph.  [NodesChanged] and [EdgesChanged] stand for
    React Flow's own [onNodesChange] and [onEdgesChange] (a drag, a
    selection), which may set any nodes and edges. *)
Inductive mutation : Type :=
| Connect (params : obj)
| CreateNode (nodeCat : NodeCategoryType) (position : value)
| DeleteNode (nodeId : string)
| ChangeNodeType (nodeId : string) (newType : NodeCategoryType)
| UpdateNodeData (nodeId : string) (newData : obj)
| ClearAll
| NodesChanged (ns : list obj)
| EdgesChanged (es : list obj).

Inductive event : Type :=
| Mutate (m : mutation)
| Undo
| Redo.

Definition set_edges (es : list obj) (s : Flow) : Flow :=
  {| nodes := nodes s; edges := es; selectedNode := selectedNode s;
     history := history s; currentStep := currentStep s;
     isInitialLoadDone := isInitialLoadDone s;
     localStorage := localStorage s; draws := draws s; stale := true |}.

Definition mutate (m : mutation) (s : Flow) : result Flow :=
  match m with
  | Connect params => Ok (onConnect params s)
  | CreateNode nodeCat position => Ok (createNewNode nodeCat position s)
  | DeleteNode nodeId => Ok (handleDeleteNode nodeId s)
  | ChangeNodeType nodeId newType => handleChangeNodeType nodeId newType s
  | UpdateNodeData nodeId newData => Ok (handleUpdateNodeData nodeId newData s)
  | ClearAll => Ok (clearAll s)
  | NodesChanged ns => Ok (set_nodes ns (draws s) s)
  | EdgesChanged es => Ok (set_edges es s)
  end.

Fixpoint mutate_all (ms : list mutation) (s : Flow) : result Flow :=
  match ms with
  | [] => Ok s
  | m :: ms' => s' <~ mutate m s ;; mutate_all ms' s'
  end.

(** An event, and the save effect after it. *)
Definition step (ev : event) (s : Flow) : result Flow :=
  s' <~ match ev with
        | Mutate m => mutate m s
        | Undo => Ok (undo s)
        | Redo => Ok (redo s)
        end ;;
  settle s'.

(** The component mounts: the load effect, then the save effect on what
    was loaded. *)
Definition mount (slot : option string) (t : nat) : result Flow :=
  settle (loadEffect (initial slot t)).

Inductive reachable : Flow -> Prop :=
| reachable_mount slot t s :
    mount slot t = Ok s -> reachable s
| reachable_step ev s s' :
    reachable s -> step ev s = Ok s' -> reachable s'.

(** How [handleChangeNodeType] rewrites a node: the node [nodeId] takes
    the shape [c] (render type and category), the default connection
    points of [c], and the label of [c] with the number [parseInt] reads
    in the last word of its old label or, when it reads none, one more
    than the count of the other nodes of shape [c]; so a label that ends
    in a number up to 2^53 keeps that number.  Its other properties stay,
    and so does every other node. *)
Definition reshaped (c : NodeCategoryType) (nodeId : string)
    (nds : list obj) (n n' : obj) : Prop :=
  if is_str (lookup "id" n) nodeId then
    lookup "type" n' = VStr (tag c)
    /\ field n' "nodeCategory" = VStr (tag c)
    /\ (forall t,
          getDefaultHandlesForShape (VStr (tag c)) (VStr nodeId) t
          = (Ok (field n' "customHandles"), t))
    /\ (forall text, field n "label" = VStr text ->
          field n' "label"
          = VStr (label_for c
                    match parseInt (last_word text) with
                    | NaN => Int (Z.of_nat (others_of c nodeId nds + 1))
                    | k => k
                    end)
          /\ (forall m, ends_in_number text m ->
                        (Z.of_nat m <= 2 ^ 53)%Z ->
                        field n' "label"
                        = VStr (capitalize (tag c) ++ " "
                                ++ string_of_nat m)))
    /\ (forall k, k <> "type" -> k <> "data" -> lookup k n' = lookup k n)
    /\ (forall k, k <> "label" -> k <> "nodeCategory" ->
                  k <> "customHandles" -> field n' k = field n k)
  else n' = n.

(** Restoring the entry and saving it again gives its own serialization:
    an undo or a redo to it adds nothing to the history. *)
Definition stable_entry (e : FlowState) : Prop :=
  exists ns,
    rmap saveNode (map copyNode (fs_nodes e)) = Ok ns
    /\ same_serialization e ns (map saveEdge (map copyEdge (fs_edges e)))
       = true.

(** The editor at rest: the save effect has run, and the entry at the
    cursor is one an undo or a redo can come back to. *)
Definition settled (s : Flow) : Prop :=
  stale s = false
  /\ isInitialLoadDone s = true
  /\ exists e,
       nth_error (history s) (currentStep s) = Some e /\ stable_entry e.

End Machine.

(** The mutations that create or remove a node. *)
Definition create_or_delete (m : mutation) : Prop :=
  match m with
  | CreateNode _ _ | DeleteNode _ => True
  | _ => False
  end.


Section Runs.

Context {P : Platform}.

Fixpoint run (evs : list event) (s : Flow) : result Flow :=
  match evs with
  | [] => Ok s
  | ev :: evs' => s' <~ step ev s ;; run evs' s'
  end.

End Runs.

(** ** Sample graphs *)

Module Sample.

Import Browser.

Definition at_xy (x y : Z) : value :=
  VObj [ ("x", VNum (Int x)); ("y", VNum (Int y)) ].

(** A rectangle at (0,0) and a circle at (200,0), on a new canvas. *)
Definition two_nodes : Flow :=
  createNewNode circle (at_xy 200 0)
    (createNewNode rectangle (at_xy 0 0) (initial None 0)).

(** The rectangle alone, with the label [Rectangle 3]. *)
Definition rectangle_3 : Flow :=
  handleUpdateNodeData "id0" [ ("label", VStr "Rectangle 3") ]
    (createNewNode rectangle (at_xy 0 0) (initial None 0)).

(** A slot written before nodes had a [nodeCategory]: one circle, by its
    render type only. *)
Definition earlier_document : value :=
  VObj [ ("nodes",
          VArr [ VObj [ ("id", VStr "a"); ("position", at_xy 0 0);
                        ("type", VStr "circle");
                        ("data",
                         VObj [ ("label", VStr "A");
                                ("color", VStr "#16a34a");
                                ("content", VStr "") ]) ] ]);
         ("edges", VArr []) ].

(** The editor right after it has loaded that slot. *)
Definition earlier_loaded : Flow :=
  loadEffect (initial (Some (print earlier_document)) 0).

(** The snapshot the save effect takes of it. *)
Definition earlier_snapshot : list obj :=
  match rmap saveNode (nodes earlier_loaded) with
  | Ok ns => ns
  | Throw => []
  end.

(** A slot with a node of a shape the editor does not know, stored with
    the one connection point it had. *)
Definition triangle_document : value :=
  VObj [ ("nodes",
          VArr [ VObj [ ("id", VStr "n1"); ("position", at_xy 0 0);
                        ("type", VStr "triangle");
                        ("data",
                         VObj [ ("label", VStr "Triangle 1");
                                ("nodeCategory", VStr "triangle");
                                ("color", VStr "#dc2626");
                                ("content", VStr "");
                                ("customHandles",
                                 VArr [ handle "source" "top" "n1-apex"
                                          [("left", VStr "50%")] ]) ]) ] ]);
         ("edges", VArr []) ].

Definition triangle_loaded : Flow :=
  loadEffect (initial (Some (print triangle_document)) 0).

(** A rectangle and a circle created after the mount, and an edge from
    the one to the other. *)
Definition connected : Flow :=
  onConnect
    [ ("source", VStr "id0"); ("sourceHandle", VStr "id0-right-source");
      ("target", VStr "id2"); ("targetHandle", VStr "id2-left-target") ]
    (createNewNode circle (at_xy 200 0)
       (createNewNode rectangle (at_xy 0 0) (loadEffect (initial None 0)))).

(** The editor mounted on an empty slot; a rectangle is drawn; undo;
    redo. *)
Definition canvas : Flow :=
  match mount None 0 with
  | Ok s => s
  | Throw => initial None 0
  end.

Definition drawn : Flow :=
  match step (Mutate (CreateNode rectangle (at_xy 0 0))) canvas with
  | Ok s => s
  | Throw => canvas
  end.



(** A slot with a node whose id is the empty text, and an edge from that
    node to itself. *)
Definition unnamed_document : value :=
  VObj [ ("nodes",
          VArr [ VObj [ ("id", VStr ""); ("position", at_xy 0 0);
                        ("type", VStr "rectangle");
                        ("data",
                         VObj [ ("label", VStr "Rectangle 1");
                                ("nodeCategory", VStr "rectangle");
                                ("color", VStr "#2563eb");
                                ("content", VStr "") ]) ] ]);
         ("edges",
          VArr [ VObj [ ("id", VStr "e"); ("source", VStr "");
                        ("target", VStr "") ] ]) ].

Definition unnamed : Flow :=
  match mount (Some (print unnamed_document)) 0 with
  | Ok s => s
  | Throw => initial None 0
  end.

(** The rectangle of a new canvas, connected to a node that is not
    there. *)
Definition dangling : Flow :=
  onConnect
    [ ("source", VStr "id0"); ("sourceHandle", VStr "id0-right-source");
      ("target", VStr "ghost"); ("targetHandle", VStr "ghost-left-target") ]
    (createNewNode rectangle (at_xy 0 0) (loadEffect (initial None 0))).

(** The rectangle alone, with the label [Step 12abc]. *)
Definition step_12abc : Flow :=
  handleUpdateNodeData "id0" [ ("label", VStr "Step 12abc") ]
    (createNewNode rectangle (at_xy 0 0) (initial None 0)).

(** The rectangle alone, with a label that ends in 2^53 + 1. *)
Definition rectangle_large : Flow :=
  handleUpdateNodeData "id0" [ ("label", VStr "Rectangle 9007199254740993") ]
    (createNewNode rectangle (at_xy 0 0) (initial None 0)).


(** A connection from the rectangle to a handle the circle does not
    have. *)
Definition stray_connection : obj :=
  [ ("source", VStr "id0"); ("sourceHandle", VStr "id0-right-source");
    ("target", VStr "id2"); ("targetHandle", VStr "id2-top-left") ].

End Sample.

(** ** The toolbar and the selection *)

(** [disabled={currentStep <= 0}] on the Undo button. *)
Definition undoDisabled (s : Flow) : bool := (currentStep s <=? 0)%nat.

(** [disabled={currentStep >= history.length - 1}] on the Redo button. *)
Definition redoDisabled (s : Flow) : bool :=
  (List.length (history s) - 1 <=? currentStep s)%nat.

(** [setSelectedNode(n)]: the selection is not a dependency of the save
    effect. *)
Definition setSelectedNode (n : option obj) (s : Flow) : Flow :=
  {| nodes := nodes s; edges := edges s; selectedNode := n;
     history := history s; currentStep := currentStep s;
     isInitialLoadDone := isInitialLoadDone s;
     localStorage := localStorage s; draws := draws s; stale := stale s |}.

Definition onNodeClick (node : obj) (s : Flow) : Flow :=
  setSelectedNode (Some node) s.

Definition onPaneClick (s : Flow) : Flow := setSelectedNode None s.

(** ** More of what the properties speak of *)

(** What a history entry is to the graph. *)
Definition entry_view (e : FlowState)
  : list (list value) * list (list value) :=
  (map node_view (fs_nodes e), map edge_view (fs_edges e)).

(** The entry at the cursor is the graph on the canvas. *)
Definition shows_cursor (s : Flow) : Prop :=
  exists e,
    nth_error (history s) (currentStep s) = Some e
    /\ entry_view e = graph_view s.

Section Notions.

Context {P : Platform}.

(** The slot holds the document of the graph on the canvas. *)
Definition slot_in_sync (s : Flow) : Prop :=
  exists ns,
    rmap saveNode (nodes s) = Ok ns
    /\ localStorage s
       = Some (JSON_stringify (document ns (map saveEdge (edges s)))).

End Notions.

(** An edge as the load and [onConnect] make them: a type, an [animated]
    flag, a style object with a stroke and a stroke width. *)
Definition editor_edge (e : obj) : Prop :=
  truthy (lookup "type" e) = true
  /\ lookup "animated" e <> VUndefined
  /\ exists style,
       lookup "style" e = VObj style
       /\ truthy (lookup "stroke" style) = true
       /\ truthy (lookup "strokeWidth" style) = true.

(** ** The node controls

    The handlers of [NodeControls] and [NodeMainContent] dispatch the
    custom events the [Flow] component listens to; [dispatchEvent] runs
    the listener before it returns, so a handler is the mutation it asks
    for. *)

Definition handleColorChange (nodeId color : string) : mutation :=
  UpdateNodeData nodeId [ ("color", VStr color) ].

Definition handleDelete (nodeId : string) : mutation := DeleteNode nodeId.

Definition handleShapeChange (nodeId : string) (newType : NodeCategoryType)
  : mutation :=
  ChangeNodeType nodeId newType.

Definition handleLabelBlur (nodeId : string) (localLabel : value) : mutation :=
  UpdateNodeData nodeId [ ("label", localLabel) ].

Definition handleLabelKeyPress (key nodeId : string) (localLabel : value)
  : option mutation :=
  if String.eqb key "Enter"
  then Some (UpdateNodeData nodeId [ ("label", localLabel) ])
  else None.

Definition handleContentBlur (nodeId : string) (localContent : value)
  : mutation :=
  UpdateNodeData nodeId [ ("content", localContent) ].

Definition handleContentKeyPress (key : string) (ctrlKey metaKey : bool)
    (nodeId : string) (localContent : value) : option mutation :=
  if String.eqb key "Enter" && (ctrlKey || metaKey)
  then Some (UpdateNodeData nodeId [ ("content", localContent) ])
  else None.

(** What [NodeRenderer] keeps as the content of a node before anything is
    typed: [data.content || '']. *)
Definition localContent_of (n : obj) : value :=
  or_else (field n "content") (VStr "").

(** The mutations the editor asks for: a connection, a new node, the
    node controls (the color is one of the palette, the content is what
    [NodeRenderer] keeps or a text that was typed), Clear All; and the
    node and edge changes of React Flow itself that leave every node and
    edge as the editor makes them (a drag, a selection, a removal). *)
Inductive from_controls : mutation -> Prop :=
| controls_connect params : from_controls (Connect params)
| controls_create c position : from_controls (CreateNode c position)
| controls_delete nodeId : from_controls (handleDelete nodeId)
| controls_shape nodeId c : from_controls (handleShapeChange nodeId c)
| controls_color nodeId color :
    In color COLORS -> from_controls (handleColorChange nodeId color)
| controls_label nodeId localLabel :
    from_controls (handleLabelBlur nodeId localLabel)
| controls_content nodeId localContent :
    truthy localContent = true \/ localContent = VStr "" ->
    from_controls (handleContentBlur nodeId localContent)
| controls_clear : from_controls ClearAll
| controls_nodes ns :
    Forall editor_node ns -> from_controls (NodesChanged ns)
| controls_edges es :
    Forall editor_edge es -> from_controls (EdgesChanged es).

Definition from_editor (ev : event) : Prop :=
  match ev with
  | Mutate m => from_controls m
  | Undo | Redo => True
  end.

(** Every node and edge, on the canvas or in the history, is as the
    editor makes them. *)
Definition well_formed (s : Flow) : Prop :=
  Forall editor_node (nodes s)
  /\ Forall editor_edge (edges s)
  /\ Forall (fun e => Forall editor_node (fs_nodes e)
                      /\ Forall editor_edge (fs_edges e)) (history s).

(** ** The keyboard *)

Record KeyboardEvent : Type := {
  key : string;
  ctrlKey : bool;
  metaKey : bool;
  shiftKey : bool;
  (** [event.target.tagName] *)
  tagName : string
}.

Definition lower (c : ascii) : ascii :=
  let n := nat_of_ascii c in
  if (65 <=? n)%nat && (n <=? 90)%nat then ascii_of_nat (n + 32) else c.

(** [s.toLowerCase()], on the letters A to Z; the handler compares the
    result with ['z'], which no other character is lowered to. *)
Fixpoint toLowerCase (s : string) : string :=
  match s with
  | EmptyString => ""
  | String c s' => String (lower c) (toLowerCase s')
  end.

(** What the key handler does besides [preventDefault]: it calls [undo],
    calls [redo], or dispatches [deleteNode] with the id of the selected
    node. *)
Inductive shortcut : Type :=
| CallUndo
| CallRedo
| DispatchDeleteNode (nodeId : value).

Definition handleKeyDown (event : KeyboardEvent) (s : Flow) : list shortcut :=
  let undoOrRedo :=
    if (ctrlKey event || metaKey event)
       && String.eqb (toLowerCase (key event)) "z"
    then [ if shiftKey event then CallRedo else CallUndo ]
    else [] in
  if negb (String.eqb (tagName event) "INPUT")
     && negb (String.eqb (tagName event) "TEXTAREA")
  then
    (undoOrRedo
     ++ (if String.eqb (key event) "Delete" then
           match selectedNode s with
           | Some n => [ DispatchDeleteNode (lookup "id" n) ]
           | None => []
           end
         else []))%list
  else undoOrRedo.

(** ** More on the history *)

Section HistoryNotions.

Context {P : Platform}.

(** The entry at the cursor serializes as the snapshot of the graph on
    the canvas does. *)
Definition cursor_is_saved (s : Flow) : Prop :=
  exists e ns,
    nth_error (history s) (currentStep s) = Some e
    /\ rmap saveNode (nodes s) = Ok ns
    /\ same_serialization e ns (map saveEdge (edges s)) = true.

(** No entry serializes as the entry before it does. *)
Definition no_repeats (h : list FlowState) : Prop :=
  forall i e1 e2,
    nth_error h i = Some e1 ->
    nth_error h (S i) = Some e2 ->
    same_serialization e1 (fs_nodes e2) (fs_edges e2) = false.

End HistoryNotions.

(** ** Numbering new nodes *)

Section Numbering.

Context {P : Platform}.

(** Nodes created one after the other. *)
Fixpoint createAll (cs : list (NodeCategoryType * value)) (s : Flow) : Flow :=
  match cs with
  | [] => s
  | (nodeCat, position) :: cs' =>
      createAll cs' (createNewNode nodeCat position s)
  end.

End Numbering.

(** The labels of nodes created one after the other, when [r] rectangles
    and [c] circles are there already. *)
Fixpoint numbering (r c : nat) (cs : list NodeCategoryType) : list value :=
  match cs with
  | [] => []
  | rectangle :: cs' =>
      VStr (label_for rectangle (Int (Z.of_nat (r + 1))))
      :: numbering (S r) c cs'
  | circle :: cs' =>
      VStr (label_for circle (Int (Z.of_nat (c + 1))))
      :: numbering r (S c) cs'
  end.

(** A handle of a connection as React Flow gives it: a text or [null]. *)
Definition handle_or_null (v : value) : Prop :=
  match v with
  | VStr _ | VNull | VUndefined => True
  | _ => False
  end.

(** ** Code blocks of the Markdown content *)












(** ** A tour of the editor *)

Module Tour.

Import Browser.

(** A second rectangle drawn after the first of the sample. *)
Definition two_drawn : Flow :=
  match step (Mutate (CreateNode rectangle (Sample.at_xy 40 0)))
          Sample.drawn with
  | Ok s => s
  | Throw => Sample.drawn
  end.

(** Undo once from there. *)
Definition one_back : Flow :=
  match step Undo two_drawn with
  | Ok s => s
  | Throw => two_drawn
  end.

Definition no_entry : FlowState := {| fs_nodes := []; fs_edges := [] |}.

Definition second_entry : FlowState := nth 1 (history two_drawn) no_entry.

Definition third_entry : FlowState := nth 2 (history two_drawn) no_entry.

(** The two rectangles, the first connected to the second. *)
Definition link : obj :=
  [ ("source", VStr "id0"); ("sourceHandle", VStr "id0-right-source");
    ("target", VStr "id2"); ("targetHandle", VStr "id2-left-target") ].

Definition linked : Flow :=
  match step (Mutate (Connect link)) two_drawn with
  | Ok s => s
  | Throw => two_drawn
  end.

Definition linked_saved : list obj :=
  match rmap saveNode (nodes linked) with
  | Ok ns => ns
  | Throw => []
  end.

(** The first rectangle, with the flag React Flow sets on a selected
    node. *)
Definition drawn_selected : list obj :=
  map (fun n => set "selected" (VBool true) n) (nodes Sample.drawn).

(** A slot with a circle and, where an edge should be, [null]. *)
Definition broken_document : value :=
  VObj [ ("nodes",
          VArr [ VObj [ ("id", VStr "a"); ("position", Sample.at_xy 0 0);
                        ("type", VStr "circle");
                        ("data",
                         VObj [ ("label", VStr "A");
                                ("nodeCategory", VStr "circle");
                                ("color", VStr "#16a34a");
                                ("content", VStr "") ]) ] ]);
         ("edges", VArr [ VNull ]) ].

(** The first rectangle, as a click on it selects it. *)
Definition first_drawn : obj := nth 0 (nodes Sample.drawn) [].

(** The editor mounted on the earlier slot. *)
Definition earlier_mounted : Flow :=
  match mount (Some (print Sample.earlier_document)) 0 with
  | Ok s => s
  | Throw => Sample.earlier_loaded
  end.

Definition earlier_entry : FlowState :=
  nth 0 (history earlier_mounted) no_entry.

(** A stored node with a property and a data field of another
    version. *)
Definition drifted_node : obj :=
  [ ("id", VStr "a"); ("position", Sample.at_xy 0 0); ("type", VStr "circle");
    ("zIndex", VNum (Int 3));
    ("data",
     VObj [ ("label", VStr "A"); ("color", VStr "#16a34a");
            ("note", VStr "kept") ]) ].

Definition drifted_node_loaded : obj :=
  match fst (loadNode (VObj drifted_node) 0) with
  | Ok n => n
  | Throw => []
  end.

(** The key Delete, pressed on the pane. *)
Definition delete_key : KeyboardEvent :=
  {| key := "Delete"; ctrlKey := false; metaKey := false; shiftKey := false;
     tagName := "DIV" |}.

(** A rectangle, a circle and a rectangle. *)
Definition three_shapes : list (NodeCategoryType * value) :=
  [ (rectangle, Sample.at_xy 0 0); (circle, Sample.at_xy 40 0);
    (rectangle, Sample.at_xy 80 0) ].

End Tour.

(** * Properties *)

(** ** Objects *)

Lemma lookup_set k k' v o :
  lookup k' (set k v o) = if String.eqb k k' then v else lookup k' o.
Proof.
  induction o as [|[k0 v0] o IH]; simpl.
  - reflexivity.
  - destruct (String.eqb_spec k0 k) as [->|Hne]; simpl.
    + destruct (String.eqb k k'); reflexivity.
    + destruct (String.eqb_spec k0 k') as [->|Hne'].
      * destruct (String.eqb_spec k k') as [->|_]; [congruence | reflexivity].
      * exact IH.
Qed.

Lemma assign_cons o k v upd :
  assign o ((k, v) :: upd) = assign (set k v o) upd.
Proof. reflexivity. Qed.

Lemma assign_nil o : assign o [] = o.
Proof. reflexivity. Qed.

(** Setting a property to the value it has changes nothing. *)
Lemma set_same k o :
  existsb (fun kv => String.eqb (fst kv) k) o = true ->
  set k (lookup k o) o = o.
Proof.
  induction o as [|[k0 v0] o IH]; simpl; [discriminate|].
  destruct (String.eqb_spec k0 k) as [->|Hne]; simpl.
  - reflexivity.
  - intros H. rewrite IH by exact H. reflexivity.
Qed.

Arguments assign : simpl never.

Ltac lookups :=
  repeat (rewrite ?assign_cons, ?assign_nil, ?lookup_set; simpl).

(** ** Computations *)

Lemma In_firstn {A} (x : A) k l : In x (firstn k l) -> In x l.
Proof.
  revert l. induction k as [|k IH]; intros [|y l]; simpl; try contradiction.
  intros [->|H]; [left; reflexivity | right; apply IH, H].
Qed.

Lemma rmap_Forall2 {A B} (f : A -> result B) xs ys :
  rmap f xs = Ok ys -> Forall2 (fun x y => f x = Ok y) xs ys.
Proof.
  revert ys. induction xs as [|x xs IH]; simpl; intros ys H.
  - inversion H. constructor.
  - destruct (f x) as [y|] eqn:Hx; simpl in H; [|discriminate].
    destruct (rmap f xs) as [ys'|]; simpl in H; [|discriminate].
    inversion H; subst. constructor; auto.
Qed.

Lemma rmap_total {A B} (f : A -> result B) (g : A -> B) xs :
  Forall (fun x => f x = Ok (g x)) xs -> rmap f xs = Ok (map g xs).
Proof.
  induction 1 as [|x xs Hx _ IH]; simpl.
  - reflexivity.
  - rewrite Hx. simpl. rewrite IH. reflexivity.
Qed.

(** A computation that makes no draw is a plain one. *)
Lemma mapM_no_draw {A B} (f : A -> M B) (g : A -> result B) xs t :
  Forall (fun x => f x t = (g x, t)) xs ->
  mapM f xs t = (rmap g xs, t).
Proof.
  induction 1 as [|x xs Hx _ IH]; simpl.
  - reflexivity.
  - unfold bind at 1. rewrite Hx. destruct (g x) as [y|]; simpl.
    + unfold bind at 1. rewrite IH. destruct (rmap g xs); reflexivity.
    + reflexivity.
Qed.

Lemma count_where_total (f : obj -> result bool) (g : obj -> bool) ns :
  Forall (fun n => f n = Ok (g n)) ns ->
  count_where f ns = Ok (List.length (filter g ns)).
Proof.
  induction 1 as [|n ns Hn _ IH]; simpl.
  - reflexivity.
  - rewrite Hn. simpl. rewrite IH. simpl. destruct (g n); reflexivity.
Qed.

Lemma get_has_data n k :
  has_data n = true -> get (lookup "data" n) k = Ok (field n k).
Proof.
  unfold has_data, field, optget.
  destruct (lookup "data" n); simpl; try discriminate; reflexivity.
Qed.

Lemma truthy_nonempty s : s <> "" -> truthy (VStr s) = true.
Proof.
  intros H. simpl. destruct (String.eqb_spec s ""); [contradiction|reflexivity].
Qed.

(** ** Default connection points *)

Section Handles.

Context {P : Platform}.

(** A non-empty node id is the base of the ids and no draw is made. *)
Lemma getDefaultHandlesForShape_base shapeType nodeId t :
  nodeId <> "" ->
  exists hs,
    getDefaultHandlesForShape shapeType (VStr nodeId) t = (Ok (VArr hs), t).
Proof.
  intros Hne. unfold getDefaultHandlesForShape, bind, ret.
  rewrite (truthy_nonempty _ Hne).
  destruct (is_str shapeType "rectangle"); [eauto|].
  destruct (is_str shapeType "circle"); eauto.
Qed.

(** For a non-empty node id the result does not depend on the draws. *)
Lemma getDefaultHandlesForShape_any_draw shapeType nodeId t v t' :
  nodeId <> "" ->
  getDefaultHandlesForShape shapeType (VStr nodeId) t = (Ok v, t') ->
  forall t0, getDefaultHandlesForShape shapeType (VStr nodeId) t0 = (Ok v, t0).
Proof.
  intros Hne. unfold getDefaultHandlesForShape, bind, ret.
  rewrite (truthy_nonempty _ Hne).
  destruct (is_str shapeType "rectangle");
    [|destruct (is_str shapeType "circle")];
    intros H t0; inversion H; reflexivity.
Qed.

Lemma circle_handles nodeId t :
  exists hs t',
    getDefaultHandlesForShape (VStr "circle") nodeId t = (Ok (VArr hs), t')
    /\ four_point_layout hs
    /\ handle_kinds hs
       = [ (VStr "target", VStr "top"); (VStr "source", VStr "bottom");
           (VStr "target", VStr "left"); (VStr "source", VStr "right") ].
Proof.
  unfold getDefaultHandlesForShape, bind, ret, fresh_id.
  destruct (truthy nodeId); simpl;
    (do 2 eexists; split; [reflexivity|]; split;
     [repeat split; reflexivity | reflexivity]).
Qed.

Lemma rectangle_handles nodeId t :
  exists hs t',
    getDefaultHandlesForShape (VStr "rectangle") nodeId t = (Ok (VArr hs), t')
    /\ handle_kinds hs
       = [ (VStr "target", VStr "left"); (VStr "source", VStr "right") ].
Proof.
  unfold getDefaultHandlesForShape, bind, ret, fresh_id.
  destruct (truthy nodeId); simpl;
    (do 2 eexists; split; reflexivity).
Qed.

Lemma default_handles_nonempty c nodeId t :
  exists h hs t',
    getDefaultHandlesForShape (VStr (tag c)) nodeId t
    = (Ok (VArr (h :: hs)), t').
Proof.
  unfold getDefaultHandlesForShape, bind, ret, fresh_id.
  destruct c, (truthy nodeId); simpl; do 3 eexists; reflexivity.
Qed.

End Handles.

(** ** Creating and reshaping nodes *)

Section Nodes.

Context {P : Platform}.

Lemma createNewNode_edges c position s :
  edges (createNewNode c position s) = edges s.
Proof.
  unfold createNewNode.
  destruct (getDefaultHandlesForShape _ _ _) as [[hs|] t];
    [destruct (count_where _ _)|]; reflexivity.
Qed.

(** [createNewNode] adds one node at the end, or (when the count throws)
    none. *)
Lemma createNewNode_cases c position s :
  nodes (createNewNode c position s) = nodes s
  \/ exists n h hs,
       nodes (createNewNode c position s) = (nodes s ++ [n])%list
       /\ lookup "id" n = VStr (nanoid (draws s))
       /\ lookup "type" n = VStr (tag c)
       /\ lookup "position" n = position
       /\ field n "nodeCategory" = VStr (tag c)
       /\ field n "content" = VStr ""
       /\ field n "customHandles" = VArr (h :: hs)
       /\ (exists t,
             getDefaultHandlesForShape (VStr (tag c))
               (VStr (nanoid (draws s))) (S (draws s))
             = (Ok (VArr (h :: hs)), t))
       /\ (exists k,
             count_where (has_category c) (nodes s) = Ok k
             /\ field n "label"
                = VStr (label_for c (Int (Z.of_nat (k + 1))))).
Proof.
  unfold createNewNode.
  destruct (default_handles_nonempty c (VStr (nanoid (draws s))) (S (draws s)))
    as (h & hs & t & Hh).
  rewrite Hh.
  destruct (count_where (has_category c) (nodes s)) as [k|] eqn:Hk.
  - right. eexists _, h, hs. simpl.
    repeat split; try reflexivity; eauto.
  - left. reflexivity.
Qed.

Lemma has_category_total c n :
  has_data n = true ->
  has_category c n = Ok (is_str (field n "nodeCategory") (tag c)).
Proof.
  intros H. unfold has_category. rewrite (get_has_data _ _ H). reflexivity.
Qed.

Lemma count_where_has_category c ns :
  Forall (fun n => has_data n = true) ns ->
  count_where (has_category c) ns = Ok (count_of c ns).
Proof.
  intros H. apply count_where_total.
  eapply Forall_impl; [|exact H]. intros n Hn. apply has_category_total, Hn.
Qed.

(** When the data of every node can be read, [createNewNode] adds a
    node. *)
Lemma createNewNode_adds c position s :
  Forall (fun n => has_data n = true) (nodes s) ->
  exists n h hs t,
    nodes (createNewNode c position s) = (nodes s ++ [n])%list
    /\ getDefaultHandlesForShape (VStr (tag c))
         (VStr (nanoid (draws s))) (S (draws s))
       = (Ok (VArr (h :: hs)), t)
    /\ field n "customHandles" = VArr (h :: hs)
    /\ lookup "id" n = VStr (nanoid (draws s))
    /\ lookup "type" n = VStr (tag c)
    /\ field n "nodeCategory" = VStr (tag c)
    /\ field n "label"
       = VStr (label_for c (Int (Z.of_nat (count_of c (nodes s) + 1)))).
Proof.
  intros Hd.
  destruct (createNewNode_cases c position s)
    as [Hsame | (n & h & hs & Hn & Hid & Hty & _ & Hnc & _ & Hch & [t Ht]
                 & (k & Hk & Hl))].
  - exfalso. unfold createNewNode in Hsame.
    destruct (default_handles_nonempty c (VStr (nanoid (draws s)))
                (S (draws s))) as (h & hs & t & Hh).
    rewrite Hh, (count_where_has_category c _ Hd) in Hsame. simpl in Hsame.
    apply (f_equal (@List.length obj)) in Hsame.
    rewrite length_app in Hsame. simpl in Hsame. lia.
  - rewrite (count_where_has_category c _ Hd) in Hk. inversion Hk; subst k.
    exists n, h, hs, t. repeat split; assumption.
Qed.

(** A node with another id is left alone. *)
Lemma changeNode_other nds nodeId c n t :
  is_str (lookup "id" n) nodeId = false ->
  changeNode nds nodeId c n t = (Ok n, t).
Proof. intros H. unfold changeNode. rewrite H. reflexivity. Qed.

Lemma is_str_eq v s : is_str v s = true -> v = VStr s.
Proof.
  destruct v; simpl; try discriminate.
  intros H. apply String.eqb_eq in H. congruence.
Qed.

(** The node [nodeId] is rewritten: shape, connection points, label. *)
Lemma changeNode_hit nds nodeId c n t l :
  nodeId <> "" ->
  is_str (lookup "id" n) nodeId = true ->
  Forall (fun n => has_data n = true) nds ->
  lookup "data" n = VObj l ->
  forall text, lookup "label" l = VStr text ->
  exists n' hs,
    changeNode nds nodeId c n t = (Ok n', t)
    /\ getDefaultHandlesForShape (VStr (tag c)) (VStr nodeId) t
       = (Ok (VArr hs), t)
    /\ lookup "type" n' = VStr (tag c)
    /\ field n' "nodeCategory" = VStr (tag c)
    /\ field n' "customHandles" = VArr hs
    /\ field n' "label"
       = VStr (label_for c
                 match parseInt (last_word text) with
                 | NaN => Int (Z.of_nat (others_of c nodeId nds + 1))
                 | k => k
                 end)
    /\ (forall k, k <> "type" -> k <> "data" -> lookup k n' = lookup k n)
    /\ (forall k, k <> "label" -> k <> "nodeCategory" ->
                  k <> "customHandles" -> field n' k = field n k).
Proof.
  intros Hne Hid Hd Hdata text Hl.
  destruct (getDefaultHandlesForShape_base (VStr (tag c)) nodeId t Hne)
    as [hs Hh].
  unfold changeNode. rewrite Hid.
  rewrite (is_str_eq _ _ Hid). unfold bind at 1. rewrite Hh.
  unfold bind at 1, lift at 1.
  rewrite (count_where_total _
             (fun node => negb (is_str (lookup "id" node) nodeId)
                          && is_str (field node "nodeCategory") (tag c))).
  2:{ eapply Forall_impl; [|exact Hd]. intros m Hm. simpl.
      destruct (is_str (lookup "id" m) nodeId); simpl; [reflexivity|].
      apply has_category_total, Hm. }
  unfold bind at 1, lift at 1. rewrite Hdata. simpl get. rewrite Hl.
  eexists _, hs. split; [reflexivity|].
  split; [reflexivity|].
  unfold others_of, last_word, field. lookups. rewrite Hdata.
  unfold optget. simpl get. lookups.
  refine (conj eq_refl (conj eq_refl (conj eq_refl (conj _ (conj _ _))))).
  - destruct (parseInt (last (split_spaces text) "")); reflexivity.
  - intros k H1 H2. rewrite ?lookup_set.
    destruct (String.eqb_spec "data" k); [congruence|].
    destruct (String.eqb_spec "type" k); [congruence|]. reflexivity.
  - intros k H1 H2 H3. rewrite ?lookup_set.
    destruct (String.eqb_spec "customHandles" k); [congruence|].
    destruct (String.eqb_spec "nodeCategory" k); [congruence|].
    destruct (String.eqb_spec "label" k); [congruence|]. reflexivity.
Qed.

End Nodes.

Section Reshape.

Context {P : Platform}.

Lemma mapM_In {A B} (f : A -> M B) xs t ys t' y :
  mapM f xs t = (Ok ys, t') -> In y ys ->
  exists x t1 t2, In x xs /\ f x t1 = (Ok y, t2).
Proof.
  revert t ys. induction xs as [|x xs IH]; simpl; intros t ys H Hy.
  - inversion H; subst. contradiction.
  - unfold bind at 1 in H. destruct (f x t) as [[b|] t1] eqn:Hx; [|discriminate].
    unfold bind at 1 in H.
    destruct (mapM f xs t1) as [[bs|] t2] eqn:Hxs; [|discriminate].
    inversion H; subst. destruct Hy as [->|Hy].
    + exists x, t, t1. auto.
    + destruct (IH _ _ Hxs Hy) as (x' & a & b' & Hin & Hf).
      exists x', a, b'. auto.
Qed.

(** What [changeNode] returns, when it returns. *)
Lemma changeNode_inv nds nodeId c n t n' t' :
  changeNode nds nodeId c n t = (Ok n', t') ->
  (is_str (lookup "id" n) nodeId = false /\ n' = n /\ t' = t)
  \/ (is_str (lookup "id" n) nodeId = true
      /\ lookup "id" n' = lookup "id" n
      /\ lookup "type" n' = VStr (tag c)
      /\ field n' "nodeCategory" = VStr (tag c)
      /\ exists hs,
           getDefaultHandlesForShape (VStr (tag c)) (lookup "id" n) t
           = (Ok hs, t')
           /\ field n' "customHandles" = hs).
Proof.
  unfold changeNode. destruct (is_str (lookup "id" n) nodeId) eqn:Hid.
  - intros H. right. split; [reflexivity|].
    unfold bind at 1 in H.
    destruct (getDefaultHandlesForShape _ _ _) as [[hs|] t0]; [|discriminate].
    unfold bind at 1, lift at 1 in H.
    destruct (count_where _ _); [|discriminate].
    unfold bind at 1, lift at 1 in H.
    destruct (get (lookup "data" n) "label") as [[| | | |l| |]|];
      try discriminate.
    unfold ret in H. inversion H; subst. unfold field, optget. lookups.
    repeat split. eauto.
  - intros H. inversion H. left. auto.
Qed.

End Reshape.

(** ** C1: the connection points of a circle *)

(** C1, as the specification states it, fails on the code: the default
    connection points of the circle node [n1] are not an eight-point
    layout. *)
Lemma circle_layout_counterexample :
  ~ eight_point_layout (@defaultHandles Browser.platform circle "n1" 0).
Proof. intros [H _]. vm_compute in H. discriminate. Qed.

(** The eight-point layout is that of the other flow page. *)
Lemma other_page_circle_eight_points {P : Platform} nodeId t :
  exists hs t',
    OtherFlowPage.getDefaultHandlesForShape (VStr "circle") nodeId t
    = (Ok (VArr hs), t')
    /\ eight_point_layout hs.
Proof.
  unfold OtherFlowPage.getDefaultHandlesForShape, bind, ret, fresh_id.
  destruct (truthy nodeId); simpl;
    (do 2 eexists; split; [reflexivity|]; repeat split; reflexivity).
Qed.

Section CircleLayout.

Context {P : Platform}.

(** C1, amended.  For every node id, the default connection points of the
    shape circle form a four-point layout: one target on the top edge, one
    source on the bottom edge, one target on the left edge and one source
    on the right edge; so a circle node that [createNewNode] adds, and a node
    that [handleChangeNodeType] reshapes into a circle, has exactly four
    connection points. *)
Theorem circle_default_handles_four_points (nodeId : string) (t : nat) :
  four_point_layout (defaultHandles circle nodeId t)
  /\ (forall position s,
        Forall (fun n => has_data n = true) (nodes s) ->
        exists n,
          nodes (createNewNode circle position s) = (nodes s ++ [n])%list
          /\ four_point_layout (customHandles_of n))
  /\ (forall s s' n',
        nodeId <> "" ->
        handleChangeNodeType nodeId circle s = Ok s' ->
        In n' (nodes s') ->
        is_str (lookup "id" n') nodeId = true ->
        four_point_layout (customHandles_of n')).
Proof.
  split; [|split].
  - unfold defaultHandles.
    destruct (circle_handles (VStr nodeId) t) as (hs & t' & Hh & Hl & _).
    simpl tag. rewrite Hh. exact Hl.
  - intros position s Hd.
    destruct (createNewNode_adds circle position s Hd)
      as (n & h & hs & t' & Hn & Hh & Hch & _).
    exists n. split; [exact Hn|].
    destruct (circle_handles (VStr (nanoid (draws s))) (S (draws s)))
      as (hs' & t'' & Hh' & Hl & _).
    simpl tag in Hh. rewrite Hh in Hh'. inversion Hh'; subst.
    unfold customHandles_of. rewrite Hch. exact Hl.
  - intros s s' n' Hne Hc Hin Hid.
    unfold handleChangeNodeType in Hc.
    rewrite (truthy_nonempty _ Hne) in Hc. simpl in Hc.
    destruct (mapM _ _ _) as [[nds|] t'] eqn:Hm; [|discriminate].
    inversion Hc; subst s'. simpl in Hin.
    destruct (mapM_In _ _ _ _ _ _ Hm Hin) as (n & t1 & t2 & _ & Hn).
    destruct (changeNode_inv _ _ _ _ _ _ _ Hn)
      as [(Hno & -> & _) | (_ & _ & _ & _ & hs & Hh & Hch)].
    + congruence.
    + destruct (circle_handles (lookup "id" n) t1) as (hs' & t'' & Hh' & Hl & _).
      simpl tag in Hh. rewrite Hh in Hh'. injection Hh' as Hv _.
      unfold customHandles_of. rewrite Hch, Hv. exact Hl.
Qed.

End CircleLayout.

(** A rectangle is added, then reshaped into a circle: it has the four
    points. *)
Lemma circle_default_handles_witness :
  let s := @createNewNode Browser.platform rectangle VNull (initial None 0) in
  exists s',
    @handleChangeNodeType Browser.platform "id0" circle s = Ok s'
    /\ Forall (fun n => four_point_layout (customHandles_of n)) (nodes s').
Proof.
  intros s.
  destruct (@circle_default_handles_four_points Browser.platform "id0" 0)
    as (_ & _ & H).
  eexists. split; [vm_compute; reflexivity|].
  constructor; [|constructor].
  eapply (H s); [discriminate | vm_compute; reflexivity
                 | left; reflexivity | reflexivity].
Defined.

(** ** C9: the default connection points are a function of shape and id *)

(** C9.  For a non-empty node id and a shape, [getDefaultHandlesForShape]
    makes no draw and returns the same sequence whatever the platform and
    the draws made so far; the id of each connection point is the node id
    followed by the suffix the shape fixes; for the shape rectangle the
    sequence is one target on the left side, then one source on the right
    side. *)
Theorem default_handles_deterministic (P1 P2 : Platform)
    (c : NodeCategoryType) (nodeId : string) (t1 t2 : nat) :
  nodeId <> "" ->
  exists hs,
    @getDefaultHandlesForShape P1 (VStr (tag c)) (VStr nodeId) t1
    = (Ok (VArr hs), t1)
    /\ @getDefaultHandlesForShape P2 (VStr (tag c)) (VStr nodeId) t2
       = (Ok (VArr hs), t2)
    /\ handle_ids hs = map (fun suffix => VStr (nodeId ++ suffix)) (suffixes c)
    /\ (c = rectangle ->
        handle_kinds hs
        = [ (VStr "target", VStr "left"); (VStr "source", VStr "right") ]).
Proof.
  intros Hne. unfold getDefaultHandlesForShape, bind, ret.
  rewrite (truthy_nonempty _ Hne).
  destruct c; simpl; eexists; (split; [reflexivity|]);
    (split; [reflexivity|]); (split; [reflexivity|]);
    intros Hc; [reflexivity | discriminate].
Qed.

Lemma default_handles_deterministic_witness :
  exists hs,
    @getDefaultHandlesForShape Browser.platform (VStr "rectangle") (VStr "n1") 0
    = (Ok (VArr hs), 0)
    /\ @getDefaultHandlesForShape Browser.platform (VStr "rectangle")
         (VStr "n1") 7
       = (Ok (VArr hs), 7)
    /\ handle_ids hs = [ VStr "n1-left-target"; VStr "n1-right-source" ].
Proof.
  destruct (default_handles_deterministic Browser.platform Browser.platform
              rectangle "n1" 0 7) as (hs & H1 & H2 & H3 & _).
  - discriminate.
  - exists hs. auto.
Defined.

(** ** C2: connecting two handles *)

(** C2, as the specification states it, fails on the code: the circle
    [id2] has no connection point [id2-top-left], yet the connection is
    added. *)
Lemma connect_unvalidated_counterexample :
  valid_connection (nodes Sample.two_nodes) Sample.stray_connection = false
  /\ edges Sample.two_nodes = []
  /\ List.length
       (edges (@onConnect Browser.platform Sample.stray_connection
                 Sample.two_nodes)) = 1.
Proof. vm_compute. auto. Qed.

Section Connect.

Context {P : Platform}.

Lemma newEdge_lookup params id k :
  k <> "id" -> k <> "type" -> k <> "animated" -> k <> "style" ->
  lookup k (newEdge params id) = lookup k params.
Proof.
  intros H1 H2 H3 H4. unfold newEdge.
  rewrite !assign_cons, assign_nil, !lookup_set.
  destruct (String.eqb_spec "style" k); [congruence|].
  destruct (String.eqb_spec "animated" k); [congruence|].
  destruct (String.eqb_spec "type" k); [congruence|].
  destruct (String.eqb_spec "id" k); [congruence|]. reflexivity.
Qed.

(** C2, amended.  [onConnect] does not look at the nodes or at their
    connection points: it gives the connection a new id and the fixed
    style and hands it to [addEdge]; with React Flow's [addEdge] the edge
    is appended whenever its source and its target are given and no edge
    with the same ends and handles is there already, whatever the node
    collection holds. *)
Theorem onConnect_appends_unvalidated (params : obj) (s : Flow) :
  let e := newEdge params (nanoid (draws s)) in
  (forall x xs, addEdge x xs = reactflow_addEdge x xs) ->
  truthy (lookup "source" params) = true ->
  truthy (lookup "target" params) = true ->
  connectionExists e (edges s) = false ->
  edges (onConnect params s) = (edges s ++ [e])%list
  /\ nodes (onConnect params s) = nodes s
  /\ (forall ns,
        edges (onConnect params (set_nodes ns (draws s) s))
        = edges (onConnect params s))
  /\ edge_ends e = edge_ends params
  /\ lookup "id" e = VStr (nanoid (draws s))
  /\ lookup "type" e = VStr "bezier"
  /\ lookup "animated" e = VBool true
  /\ lookup "style" e
     = VObj [ ("stroke", VStr "#2563eb"); ("strokeWidth", VNum (Int 2)) ].
Proof.
  intros e Hadd Hs Ht Hex.
  assert (He : edge_ends e = edge_ends params).
  { unfold edge_ends, e. rewrite !newEdge_lookup by discriminate. reflexivity. }
  split.
  - unfold onConnect. simpl. rewrite Hadd. unfold reactflow_addEdge.
    fold e. injection He as H1 H2 _ _. rewrite H1, H2, Hs, Ht. simpl.
    rewrite Hex. reflexivity.
  - split; [reflexivity|]. split; [reflexivity|]. split; [exact He|].
    unfold e, newEdge. lookups. auto.
Qed.

End Connect.

Lemma onConnect_appends_unvalidated_witness :
  edges (@onConnect Browser.platform Sample.stray_connection Sample.two_nodes)
  = [ @newEdge Sample.stray_connection "id4" ].
Proof.
  destruct (@onConnect_appends_unvalidated Browser.platform
              Sample.stray_connection Sample.two_nodes) as (H & _).
  - reflexivity.
  - reflexivity.
  - reflexivity.
  - vm_compute. reflexivity.
  - exact H.
Defined.

(** ** C3: removing a node *)

Lemma strict_eq_str a s : strict_eq a (VStr s) = is_str a s.
Proof. destruct a as [| | |[]| | |]; reflexivity. Qed.

Lemma strict_eq_str_l s b : strict_eq (VStr s) b = true -> b = VStr s.
Proof.
  destruct b as [| | |[]| | |]; simpl; try discriminate.
  intros H. apply String.eqb_eq in H. congruence.
Qed.

Lemma has_node_app ns ns' v :
  has_node ns v = true -> has_node (ns ++ ns') v = true.
Proof.
  unfold has_node. rewrite existsb_app. intros ->. reflexivity.
Qed.

Section Remove.

Context {P : Platform}.

Lemma createNewNode_no_dangling c position s :
  no_dangling s -> no_dangling (createNewNode c position s).
Proof.
  intros H e He. rewrite createNewNode_edges in He.
  destruct (H e He) as [Hs Ht].
  destruct (createNewNode_cases c position s) as [-> | (n & _ & _ & -> & _)].
  - auto.
  - split; apply has_node_app; assumption.
Qed.

Lemma has_node_filter ns nodeId v :
  is_str v nodeId = false ->
  has_node ns v = true ->
  has_node (filter (fun node => negb (is_str (lookup "id" node) nodeId)) ns) v
  = true.
Proof.
  intros Hv. unfold has_node. rewrite !existsb_exists.
  intros (n & Hin & Hn). exists n. split; [|exact Hn].
  apply filter_In. split; [exact Hin|].
  destruct (is_str (lookup "id" n) nodeId) eqn:Hid; [|reflexivity].
  apply is_str_eq in Hid. rewrite Hid in Hn.
  apply strict_eq_str_l in Hn. subst v. simpl in Hv.
  rewrite String.eqb_refl in Hv. discriminate.
Qed.

Lemma handleDeleteNode_no_dangling nodeId s :
  no_dangling s -> no_dangling (handleDeleteNode nodeId s).
Proof.
  intros H. unfold handleDeleteNode.
  destruct (truthy (VStr nodeId)); [|exact H].
  intros e He. simpl in *. apply filter_In in He. destruct He as [He Hk].
  apply andb_prop in Hk. destruct Hk as [Hk1 Hk2].
  apply negb_true_iff in Hk1, Hk2.
  destruct (H e He) as [Hs Ht].
  split; apply has_node_filter; assumption.
Qed.

(** C3.  For a non-empty id, [handleDeleteNode] keeps exactly the nodes
    with another id and exactly the edges whose source and target are
    another id.  For the empty id it does nothing at all, whatever the
    graph.  When no node has the id, the nodes stay, and the edges stay if
    none of them names the id, as when no edge dangles; it never throws.
    So after any sequence of node creations and removals, from a graph
    without dangling edges, every edge has its source and its target
    among the nodes. *)
Theorem handleDeleteNode_cascades (nodeId : string) (s : Flow) :
  (nodeId <> "" ->
   (forall n,
      In n (nodes (handleDeleteNode nodeId s))
      <-> In n (nodes s) /\ is_str (lookup "id" n) nodeId = false)
   /\ (forall e,
         In e (edges (handleDeleteNode nodeId s))
         <-> In e (edges s)
             /\ is_str (lookup "source" e) nodeId = false
             /\ is_str (lookup "target" e) nodeId = false))
  /\ handleDeleteNode "" s = s
  /\ (has_node (nodes s) (VStr nodeId) = false ->
      nodes (handleDeleteNode nodeId s) = nodes s
      /\ ((forall e, In e (edges s) ->
                     is_str (lookup "source" e) nodeId = false
                     /\ is_str (lookup "target" e) nodeId = false) ->
          edges (handleDeleteNode nodeId s) = edges s)
      /\ (no_dangling s -> edges (handleDeleteNode nodeId s) = edges s))
  /\ (forall ms,
        Forall create_or_delete ms ->
        no_dangling s ->
        exists s', mutate_all ms s = Ok s' /\ no_dangling s').
Proof.
  split; [|split; [|split]].
  - intros Hne. unfold handleDeleteNode. rewrite (truthy_nonempty _ Hne).
    simpl. split.
    + intros n. rewrite filter_In, negb_true_iff. reflexivity.
    + intros e. rewrite filter_In, andb_true_iff, !negb_true_iff. reflexivity.
  - reflexivity.
  - intros Hno.
    assert (Hnone : forall n, In n (nodes s) ->
                              is_str (lookup "id" n) nodeId = false).
    { intros n Hn. unfold has_node in Hno.
      destruct (is_str (lookup "id" n) nodeId) eqn:Hid; [|reflexivity].
      assert (existsb (fun n => strict_eq (lookup "id" n) (VStr nodeId))
                (nodes s) = true) as Hex.
      { apply existsb_exists. exists n. rewrite strict_eq_str. auto. }
      congruence. }
    assert (Hedges : (forall e, In e (edges s) ->
                        is_str (lookup "source" e) nodeId = false
                        /\ is_str (lookup "target" e) nodeId = false) ->
                     edges (handleDeleteNode nodeId s) = edges s).
    { intros Hfree. unfold handleDeleteNode.
      destruct (truthy (VStr nodeId)); [|reflexivity]. simpl.
      apply forallb_filter_id, forallb_forall. intros e He.
      destruct (Hfree e He) as [Hs Ht]. rewrite Hs, Ht. reflexivity. }
    split; [|split].
    + unfold handleDeleteNode.
      destruct (truthy (VStr nodeId)); [|reflexivity]. simpl.
      apply forallb_filter_id, forallb_forall. intros n Hn.
      rewrite (Hnone n Hn). reflexivity.
    + exact Hedges.
    + intros Hd. apply Hedges. intros e He.
      destruct (Hd e He) as [Hs Ht].
      assert (Hend : forall v, has_node (nodes s) v = true ->
                               is_str v nodeId = false).
      { intros v Hv. unfold has_node in Hv. apply existsb_exists in Hv.
        destruct Hv as (n & Hn & Hv).
        destruct (is_str v nodeId) eqn:Hid; [|reflexivity].
        apply is_str_eq in Hid. subst v. rewrite strict_eq_str in Hv.
        rewrite (Hnone n Hn) in Hv. discriminate. }
      rewrite (Hend _ Hs), (Hend _ Ht). auto.
  - intros ms Hms. revert s. induction Hms as [|m ms Hm _ IH]; intros s0 Hd.
    + exists s0. split; [reflexivity | exact Hd].
    + destruct m; try contradiction; simpl.
      * apply IH, createNewNode_no_dangling, Hd.
      * apply IH, handleDeleteNode_no_dangling, Hd.
Qed.

End Remove.

(** The circle of the sample is removed; the rectangle stays. *)
Lemma handleDeleteNode_cascades_witness :
  exists n,
    nth_error (nodes Sample.two_nodes) 0 = Some n
    /\ In n (nodes (handleDeleteNode "id2" Sample.two_nodes)).
Proof.
  destruct (@handleDeleteNode_cascades Browser.platform "id2" Sample.two_nodes)
    as (H & _ & _).
  specialize (H ltac:(discriminate)). destruct H as [H _].
  eexists. split; [reflexivity|].
  apply H. split; [left; reflexivity | reflexivity].
Defined.

(** C3, as the specification states it, fails on the code.  The editor
    mounts on a slot that holds a node whose id is the empty text and an
    edge from that node to itself: removing the node with that id removes
    neither.  And on a canvas whose one edge leads to a node that is not
    there, removing that absent node is no no-op: it takes the edge
    away. *)
Lemma handleDeleteNode_counterexample :
  (exists n e,
     @mount Browser.platform
       (Some (Browser.print Sample.unnamed_document)) 0
     = Ok Sample.unnamed
     /\ nodes Sample.unnamed = [n]
     /\ edges Sample.unnamed = [e]
     /\ lookup "id" n = VStr ""
     /\ lookup "source" e = VStr ""
     /\ lookup "target" e = VStr ""
     /\ nodes (handleDeleteNode "" Sample.unnamed) = [n]
     /\ edges (handleDeleteNode "" Sample.unnamed) = [e])
  /\ (has_node (nodes Sample.dangling) (VStr "ghost")
      = false
      /\ List.length (edges Sample.dangling) = 1
      /\ edges (handleDeleteNode "ghost" Sample.dangling)
         = []).
Proof.
  split.
  - do 2 eexists. repeat (split; [vm_compute; reflexivity|]).
    vm_compute; reflexivity.
  - repeat split; vm_compute; reflexivity.
Qed.

(** ** C8: a slot that is not JSON *)

Section Corrupt.

Context {P : Platform}.

Lemma same_serialization_refl ns es :
  same_serialization {| fs_nodes := ns; fs_edges := es |} ns es = true.
Proof.
  unfold same_serialization. simpl. rewrite !String.eqb_refl. reflexivity.
Qed.

(** C8.  When the slot holds a text that is not JSON, the load effect
    starts from the empty graph: no nodes, no edges, a history of the
    single empty entry, the cursor at 0; the slot is removed (an empty
    text is not even parsed).  The effect returns, and so does the whole
    mount, with the same empty graph and the empty document written to the
    slot. *)
Theorem malformed_slot_starts_empty (txt : string) (t : nat) :
  JSON_parse txt = None ->
  let s := loadEffect (initial (Some txt) t) in
  nodes s = [] /\ edges s = []
  /\ history s = [ {| fs_nodes := []; fs_edges := [] |} ]
  /\ currentStep s = 0
  /\ (txt <> "" -> localStorage s = None)
  /\ exists s',
       mount (Some txt) t = Ok s'
       /\ nodes s' = [] /\ edges s' = []
       /\ history s' = [ {| fs_nodes := []; fs_edges := [] |} ]
       /\ currentStep s' = 0
       /\ localStorage s' = Some (JSON_stringify (document [] [])).
Proof.
  intros Hbad s.
  assert (Hs : exists slot,
             s = {| nodes := []; edges := []; selectedNode := None;
                    history := [ {| fs_nodes := []; fs_edges := [] |} ];
                    currentStep := 0; isInitialLoadDone := true;
                    localStorage := slot; draws := t; stale := true |}
             /\ (txt <> "" -> slot = None)).
  { unfold s, loadEffect, initial, readSlot. simpl.
    destruct (String.eqb_spec txt "") as [->|Hne].
    - eexists. split; [reflexivity | congruence].
    - rewrite Hbad. eexists. split; [reflexivity | reflexivity]. }
  destruct Hs as (slot & Hs & Hslot).
  unfold mount. fold s. rewrite Hs. simpl.
  repeat (split; [reflexivity|]). split; [exact Hslot|].
  unfold settle, saveEffect. simpl.
  unfold record_snapshot. simpl. unfold last_entry. simpl.
  rewrite same_serialization_refl. eexists. split; [reflexivity|].
  simpl. auto 6.
Qed.

End Corrupt.

Lemma malformed_slot_starts_empty_witness :
  nodes (@loadEffect Browser.platform (initial (Some "{bad") 0)) = []
  /\ localStorage (@loadEffect Browser.platform (initial (Some "{bad") 0))
     = None.
Proof.
  destruct (@malformed_slot_starts_empty Browser.platform "{bad" 0)
    as (H1 & _ & _ & _ & H2 & _).
  - vm_compute. reflexivity.
  - split; [exact H1 | apply H2; discriminate].
Defined.

(** ** C10: the render type of a node is its category *)

Lemma includes_shapes v :
  includes AVAILABLE_SHAPES v = true -> exists c, v = VStr (tag c).
Proof.
  unfold includes, AVAILABLE_SHAPES. simpl. rewrite orb_false_r.
  intros H. apply orb_prop in H. destruct H as [H|H]; apply is_str_eq in H.
  - exists rectangle. exact H.
  - exists circle. exact H.
Qed.

Lemma lookup_assign_absent k o upd :
  existsb (fun kv => String.eqb (fst kv) k) upd = false ->
  lookup k (assign o upd) = lookup k o.
Proof.
  revert o. induction upd as [|[k0 v0] upd IH]; intros o H.
  - reflexivity.
  - simpl in H. apply orb_false_elim in H. destruct H as [H1 H2].
    rewrite assign_cons, IH by exact H2. rewrite lookup_set, H1. reflexivity.
Qed.

(** A field that holds a string is a field of an object. *)
Lemma field_string_object n k x :
  field n k = VStr x -> exists o, lookup "data" n = VObj o /\ lookup k o = VStr x.
Proof.
  unfold field, optget.
  destruct (lookup "data" n) as [| | | |str|xs|o]; simpl; try discriminate.
  - destruct (String.eqb k "length"); discriminate.
  - destruct (String.eqb k "length"); discriminate.
  - eauto.
Qed.



Section Tags.

Context {P : Platform}.

Lemma loadNode_shape_ok node t n t' :
  loadNode node t = (Ok n, t') -> shape_ok n.
Proof.
  unfold loadNode. unfold bind at 1, lift at 1.
  destruct (get node "data") as [data|] eqn:Hdata; [|discriminate].
  unfold bind at 1, lift at 1.
  set (nc := if includes AVAILABLE_SHAPES (optget data "nodeCategory")
             then get data "nodeCategory" else _).
  assert (Hnc : nc = Throw \/ exists c, nc = Ok (VStr (tag c))).
  { unfold nc.
    destruct (includes AVAILABLE_SHAPES (optget data "nodeCategory")) eqn:Hi.
    - right. destruct (includes_shapes _ Hi) as [c Hc]. exists c.
      unfold optget in Hc.
      destruct (get data "nodeCategory"); [subst; reflexivity | discriminate].
    - destruct (get node "type") as [ty|]; unfold rbind;
        [right | left; reflexivity].
      destruct (includes AVAILABLE_SHAPES ty) eqn:Ht.
      + destruct (includes_shapes _ Ht) as [c Hc]. exists c.
        subst ty. reflexivity.
      + exists rectangle. reflexivity. }
  destruct Hnc as [-> | [c ->]]; [discriminate|].
  unfold bind at 1.
  destruct ((if nonempty_array (optget data "customHandles")
             then lift (get data "customHandles") else _) t)
    as [[hs|] t0]; [|discriminate].
  unfold ret. intros H. inversion H. exists c.
  unfold field, optget. lookups. auto.
Qed.

Lemma mapM_Forall {A B} (f : A -> M B) (Q : B -> Prop) xs t ys t' :
  (forall x t1 y t2, f x t1 = (Ok y, t2) -> Q y) ->
  mapM f xs t = (Ok ys, t') -> Forall Q ys.
Proof.
  intros Hf H. apply Forall_forall. intros y Hy.
  destruct (mapM_In _ _ _ _ _ _ H Hy) as (x & t1 & t2 & _ & Hx).
  eapply Hf, Hx.
Qed.


Lemma loadEffect_history s :
  history (loadEffect s)
  = [ {| fs_nodes := nodes (loadEffect s); fs_edges := edges (loadEffect s) |} ].
Proof.
  unfold loadEffect.
  destruct (match localStorage s with Some _ => _ | None => _ end)
    as [[[ns es] slot] t]. reflexivity.
Qed.












End Tags.



(** ** Numbers at the end of a label *)

Lemma to_uint_of_pos p : Pos.to_uint p = Nat.to_uint (Pos.to_nat p).
Proof.
  assert (H : forall n,
             DecimalPos.Unsigned.to_lu (N.of_nat n)
             = DecimalNat.Unsigned.to_lu n).
  { induction n as [|n IH]; [reflexivity|].
    rewrite Nnat.Nat2N.inj_succ, DecimalPos.Unsigned.to_lu_succ, IH.
    reflexivity. }
  rewrite DecimalNat.Unsigned.to_uint_alt, <- H, positive_nat_N.
  reflexivity.
Qed.

Lemma string_of_Z_of_nat m : string_of_Z (Z.of_nat m) = string_of_nat m.
Proof.
  destruct m as [|m]; [reflexivity|].
  simpl. rewrite to_uint_of_pos, SuccNat2Pos.id_succ. reflexivity.
Qed.

(** Up to 2^53 an integer is a Number, and is printed with its digits. *)
Lemma nearest_double_exact z :
  (Z.abs z <= 2 ^ 53)%Z -> nearest_double z = Int z.
Proof.
  intros H. unfold nearest_double. apply Z.leb_le in H. rewrite H.
  reflexivity.
Qed.

Lemma Number_toString_exact z :
  (Z.abs z <= 2 ^ 53)%Z -> Number_toString (Int z) = string_of_Z z.
Proof.
  intros H. unfold Number_toString. apply Z.leb_le in H. rewrite H.
  reflexivity.
Qed.

Lemma digits_of_uint d a :
  digits 10 (Some (Z.of_nat a)) (NilEmpty.string_of_uint d)
  = Some (Z.of_nat (Nat.of_uint_acc d a)).
Proof.
  revert a. induction d; intros a; simpl NilEmpty.string_of_uint;
    [reflexivity | ..];
    (unfold digits; fold digits;
     match goal with
     | |- context [digit_value 10 ?c] =>
         let v := eval vm_compute in (digit_value 10 c) in
         change (digit_value 10 c) with v
     end;
     cbv iota beta; simpl Nat.of_uint_acc;
     rewrite <- IHd; do 2 f_equal;
     rewrite ?Nat2Z.inj_succ, Nat.tail_mul_spec, Nat2Z.inj_mul; simpl Z.of_nat;
     lia).
Qed.

Lemma to_uint_not_nil m : Nat.to_uint m <> Decimal.Nil.
Proof.
  rewrite <- (DecimalNat.Unsigned.of_to m) at 1.
  rewrite DecimalNat.Unsigned.to_of. unfold Decimal.unorm.
  destruct (Decimal.nzhead (Nat.to_uint m)); discriminate.
Qed.

Lemma parseInt_of_uint d :
  d <> Decimal.Nil ->
  parseInt (NilEmpty.string_of_uint d)
  = nearest_double (Z.of_nat (Nat.of_uint d)).
Proof.
  intros Hd. unfold Nat.of_uint.
  destruct d as [|d|d|d|d|d|d|d|d|d|d]; [contradiction | ..];
    try (unfold parseInt; simpl NilEmpty.string_of_uint; simpl skip_space;
         cbv iota beta; unfold digits; fold digits;
         match goal with
         | |- context [digit_value 10 ?c] =>
             let v := eval vm_compute in (digit_value 10 c) in
             change (digit_value 10 c) with v
         end; cbv iota beta;
         change (Some ?x) with (Some (Z.of_nat (Z.to_nat x))) at 1;
         rewrite digits_of_uint; reflexivity).
  unfold parseInt. simpl NilEmpty.string_of_uint. simpl skip_space.
  cbv iota beta.
  destruct d as [|d|d|d|d|d|d|d|d|d|d]; simpl NilEmpty.string_of_uint;
    cbv iota beta;
    try reflexivity;
    (unfold digits; fold digits;
     repeat match goal with
       | |- context [digit_value 10 ?c] =>
           let v := eval vm_compute in (digit_value 10 c) in
           change (digit_value 10 c) with v; cbv iota beta
       end;
     match goal with
     | |- context [digits 10 (Some ?x) _] =>
         change (Some x) with (Some (Z.of_nat (Z.to_nat x)))
     end;
     rewrite digits_of_uint; reflexivity).
Qed.

(** [parseInt] reads a numeral as the Number nearest it. *)
Lemma parseInt_string_of_nat m :
  parseInt (string_of_nat m) = nearest_double (Z.of_nat m).
Proof.
  unfold string_of_nat. rewrite parseInt_of_uint by apply to_uint_not_nil.
  rewrite DecimalNat.Unsigned.of_to. reflexivity.
Qed.

Lemma append_snoc cur c r : (cur ++ String c "") ++ r = cur ++ String c r.
Proof. induction cur as [|x cur IH]; simpl; [reflexivity | rewrite IH; reflexivity]. Qed.

Lemma append_nil_r s : s ++ "" = s.
Proof. induction s as [|x s IH]; simpl; [reflexivity | rewrite IH; reflexivity]. Qed.

(** A numeral has no space in it: it is one word. *)
Lemma split_spaces_from_uint d cur :
  split_spaces_from cur (NilEmpty.string_of_uint d)
  = [cur ++ NilEmpty.string_of_uint d].
Proof.
  revert cur. induction d; intros cur; simpl;
    [rewrite append_nil_r; reflexivity | ..];
    rewrite IHd, append_snoc; reflexivity.
Qed.

Lemma split_spaces_from_not_nil cur s : split_spaces_from cur s <> [].
Proof.
  revert cur. induction s as [|c s IH]; intros cur; simpl; [discriminate|].
  destruct (Ascii.eqb c " "); [discriminate | apply IH].
Qed.

Lemma last_split_after_space pre d cur :
  last (split_spaces_from cur (pre ++ String " " d)) ""
  = last (split_spaces_from "" d) "".
Proof.
  revert cur. induction pre as [|c pre IH]; intros cur; simpl.
  - destruct (split_spaces_from "" d) eqn:H; [|reflexivity].
    exfalso. exact (split_spaces_from_not_nil _ _ H).
  - destruct (Ascii.eqb c " "); [|apply IH].
    specialize (IH ""). 
    destruct (split_spaces_from "" (pre ++ String " " d)) eqn:H.
    + exfalso. exact (split_spaces_from_not_nil _ _ H).
    + exact IH.
Qed.

(** The last word of a label that ends in a number is that number. *)
Lemma ends_in_number_parseInt text m :
  ends_in_number text m ->
  parseInt (last_word text) = nearest_double (Z.of_nat m).
Proof.
  intros [-> | [pre ->]]; unfold last_word, split_spaces.
  - unfold string_of_nat at 1. rewrite split_spaces_from_uint. simpl.
    apply parseInt_string_of_nat.
  - change (" " ++ string_of_nat m) with (String " " (string_of_nat m)).
    rewrite last_split_after_space.
    unfold string_of_nat at 1. rewrite split_spaces_from_uint. simpl.
    apply parseInt_string_of_nat.
Qed.

(** ** C7: changing the shape of a node *)

Section ChangeShape.

Context {P : Platform}.

Lemma changeNode_reshaped nds nodeId c n t :
  nodeId <> "" ->
  Forall (fun n => has_data n = true) nds ->
  (is_str (lookup "id" n) nodeId = true ->
   exists text, field n "label" = VStr text) ->
  exists n',
    changeNode nds nodeId c n t = (Ok n', t) /\ reshaped c nodeId nds n n'.
Proof.
  intros Hne Hd Hl. unfold reshaped.
  destruct (is_str (lookup "id" n) nodeId) eqn:Hid.
  - destruct (Hl eq_refl) as [text Htext].
    destruct (field_string_object _ _ _ Htext) as (o & Hdata & Ho).
    destruct (changeNode_hit nds nodeId c n t o Hne Hid Hd Hdata text Ho)
      as (n' & hs & Hc & Hh & Hty & Hnc & Hch & Hlab & Hk & Hf).
    exists n'. split; [exact Hc|].
    split; [exact Hty|]. split; [exact Hnc|]. split.
    { intros t0. rewrite Hch.
      exact (getDefaultHandlesForShape_any_draw _ _ _ _ _ Hne Hh t0). }
    split; [|split; assumption].
    intros text' Htext'. rewrite Htext in Htext'. injection Htext' as <-.
    rewrite Hlab. split; [reflexivity|].
    intros m Hm Hle. rewrite (ends_in_number_parseInt _ _ Hm).
    assert (Ha : (Z.abs (Z.of_nat m) <= 2 ^ 53)%Z)
      by (rewrite Z.abs_eq by lia; exact Hle).
    rewrite (nearest_double_exact _ Ha). unfold label_for.
    change (to_string (VNum (Int (Z.of_nat m))))
      with (Number_toString (Int (Z.of_nat m))).
    rewrite (Number_toString_exact _ Ha), string_of_Z_of_nat. reflexivity.
  - exists n. split; [apply changeNode_other, Hid | reflexivity].
Qed.

Lemma mapM_changeNode nds nodeId c t ns :
  nodeId <> "" ->
  Forall (fun n => has_data n = true) nds ->
  Forall (fun n => is_str (lookup "id" n) nodeId = true ->
                   exists text, field n "label" = VStr text) ns ->
  exists ns',
    mapM (changeNode nds nodeId c) ns t = (Ok ns', t)
    /\ Forall2 (reshaped c nodeId nds) ns ns'.
Proof.
  intros Hne Hd Hl. induction Hl as [|n ns Hn _ (ns' & IH & IH2)].
  - exists []. split; [reflexivity | constructor].
  - destruct (changeNode_reshaped nds nodeId c n t Hne Hd Hn) as (n' & Hc & Hr).
    exists (n' :: ns'). split; [|constructor; assumption].
    simpl. unfold bind at 1. rewrite Hc. unfold bind at 1. rewrite IH.
    reflexivity.
Qed.

Lemma mapM_changeNode_absent nds nodeId c t ns :
  has_node ns (VStr nodeId) = false ->
  mapM (changeNode nds nodeId c) ns t = (Ok ns, t).
Proof.
  induction ns as [|n ns IH]; simpl; intros H.
  - reflexivity.
  - apply orb_false_elim in H. destruct H as [H1 H2].
    rewrite strict_eq_str in H1.
    unfold bind at 1. rewrite (changeNode_other _ _ _ _ _ H1).
    unfold bind at 1. rewrite (IH H2). reflexivity.
Qed.

(** C7.  [handleChangeNodeType], for a non-empty id whose nodes have a
    label that is text (and node data that can be read), returns and
    rewrites those nodes only: render type and category become the new
    shape, the connection points those of the new shape for the node id,
    and the label the new shape's name followed by the number [parseInt]
    reads in the last word of the old label, by one more than the count of
    the other nodes already of the new shape when it reads none; a label
    that ends in a space and a number up to 2^53 keeps that number.  When
    no node has the id, and when the id is empty, nodes and edges are as
    before. *)
Theorem handleChangeNodeType_reshapes (nodeId : string)
    (newType : NodeCategoryType) (s : Flow) :
  (nodeId <> "" ->
   Forall (fun n => has_data n = true) (nodes s) ->
   Forall (fun n => is_str (lookup "id" n) nodeId = true ->
                    exists text, field n "label" = VStr text) (nodes s) ->
   exists s',
     handleChangeNodeType nodeId newType s = Ok s'
     /\ edges s' = edges s
     /\ Forall2 (reshaped newType nodeId (nodes s)) (nodes s) (nodes s'))
  /\ (has_node (nodes s) (VStr nodeId) = false ->
      exists s',
        handleChangeNodeType nodeId newType s = Ok s'
        /\ nodes s' = nodes s /\ edges s' = edges s)
  /\ handleChangeNodeType "" newType s = Ok s.
Proof.
  split; [|split].
  - intros Hne Hd Hl.
    destruct (mapM_changeNode (nodes s) nodeId newType (draws s) (nodes s)
                Hne Hd Hl) as (ns' & Hm & Hr).
    unfold handleChangeNodeType. rewrite (truthy_nonempty _ Hne).
    replace (truthy (VStr (tag newType))) with true
      by (destruct newType; reflexivity).
    simpl andb. cbv iota. rewrite Hm.
    eexists. split; [reflexivity|]. split; [reflexivity | exact Hr].
  - intros Hno. unfold handleChangeNodeType.
    destruct (truthy (VStr nodeId) && truthy (VStr (tag newType))).
    + rewrite (mapM_changeNode_absent _ _ _ _ _ Hno).
      eexists. split; [reflexivity|]. split; reflexivity.
    + exists s. auto.
  - reflexivity.
Qed.

End ChangeShape.

(** The rectangle labelled [Rectangle 3] becomes the circle labelled
    [Circle 3]. *)
Lemma handleChangeNodeType_reshapes_witness :
  exists s' n',
    @handleChangeNodeType Browser.platform "id0" circle Sample.rectangle_3
    = Ok s'
    /\ nodes s' = [n']
    /\ field n' "label" = VStr "Circle 3".
Proof.
  destruct (@handleChangeNodeType_reshapes Browser.platform "id0" circle
              Sample.rectangle_3) as [H _].
  destruct H as (s' & Hs & _ & Hr).
  - discriminate.
  - repeat constructor.
  - constructor; [|constructor]. intros _. eexists. reflexivity.
  - assert (Hs' := Hs). vm_compute in Hs'. injection Hs' as <-.
    do 2 eexists. split; [exact Hs|]. split; [reflexivity|].
    inversion Hr as [|n n' ns ns' Hn _]. subst.
    destruct Hn as (_ & _ & _ & Hlabel & _).
    destruct (Hlabel "Rectangle 3" eq_refl) as [_ Hnumber].
    apply (Hnumber 3 (or_intror (ex_intro _ "Rectangle" eq_refl))).
    vm_compute. discriminate.
Defined.

(** C7, as the specification states it, fails on the code.  The label
    [Step 12abc] does not end in a numeric suffix, so the reshaped node
    should take the next number of its new shape, [Circle 1]; the code
    reads the digits its last word starts with and makes it [Circle 12].
    The label [Rectangle 9007199254740993] ends in a numeric suffix, which
    should be kept; the code reads it as a double and makes it
    [Circle 9007199254740992]. *)
Lemma handleChangeNodeType_label_counterexample :
  (exists s' n',
     @handleChangeNodeType Browser.platform "id0" circle Sample.step_12abc
     = Ok s'
     /\ nodes s' = [n']
     /\ numeric_suffix "Step 12abc" = None
     /\ specified_label circle "id0" (nodes Sample.step_12abc) "Step 12abc"
        = "Circle 1"
     /\ field n' "label" = VStr "Circle 12")
  /\ (exists s' n',
        @handleChangeNodeType Browser.platform "id0" circle
          Sample.rectangle_large = Ok s'
        /\ nodes s' = [n']
        /\ numeric_suffix "Rectangle 9007199254740993"
           = Some "9007199254740993"
        /\ specified_label circle "id0" (nodes Sample.rectangle_large)
             "Rectangle 9007199254740993"
           = "Circle 9007199254740993"
        /\ field n' "label" = VStr "Circle 9007199254740992").
Proof.
  split; do 2 eexists; vm_compute; repeat (split; [reflexivity|]);
    reflexivity.
Qed.

(** ** C6: recording a snapshot *)

(** C6, as the specification states it, fails on the code.  The editor
    has loaded a slot written before nodes had a [nodeCategory]; the
    snapshot of the graph it shows has the structure of the history entry
    at the cursor (same properties, same values; [nodeCategory] comes
    second in the one and fourth in the other), and recording it adds an
    entry: the mount alone leaves a history of two entries. *)
Lemma record_snapshot_counterexample :
  let s := Sample.earlier_loaded in
  exists e ns,
    nth_error (history s) (currentStep s) = Some e
    /\ rmap saveNode (nodes s) = Ok ns
    /\ same_structure_all (fs_nodes e) ns = true
    /\ same_structure_all (fs_edges e) (map saveEdge (edges s)) = true
    /\ List.length (history s) = 1
    /\ List.length
         (fst (@record_snapshot Browser.platform ns (map saveEdge (edges s))
                 (history s) (currentStep s))) = 2
    /\ exists s',
         @mount Browser.platform
           (Some (Browser.print Sample.earlier_document)) 0 = Ok s'
         /\ List.length (history s') = 2.
Proof.
  do 2 eexists.
  repeat (split; [vm_compute; reflexivity|]).
  eexists. split; vm_compute; reflexivity.
Qed.

Section Record.

Context {P : Platform}.

Lemma last_entry_base h step e :
  nth_error h step = Some e ->
  last_entry (firstn (step + 1) h) = Some e
  /\ List.length (firstn (step + 1) h) = step + 1.
Proof.
  intros H.
  assert (step < List.length h) by (apply nth_error_Some; congruence).
  assert (Hl : List.length (firstn (step + 1) h) = step + 1)
    by (rewrite length_firstn; lia).
  split; [|exact Hl].
  unfold last_entry. rewrite Hl, nth_error_firstn.
  replace (step + 1 - 1) with step by lia.
  destruct (Nat.ltb_spec step (step + 1)); [exact H | lia].
Qed.

Lemma last_entry_snoc h e : last_entry (h ++ [e]) = Some e.
Proof.
  unfold last_entry. rewrite length_app. simpl.
  replace (List.length h + 1 - 1) with (List.length h + 0) by lia.
  rewrite nth_error_app2 by lia.
  replace (List.length h + 0 - List.length h) with 0 by lia. reflexivity.
Qed.

Lemma record_snapshot_duplicate ns es h step e :
  nth_error h step = Some e ->
  same_serialization e ns es = true ->
  record_snapshot ns es h step = (h, step).
Proof.
  intros He H. destruct (last_entry_base _ _ _ He) as [Hlast _].
  unfold record_snapshot. rewrite Hlast, H. reflexivity.
Qed.

Lemma record_snapshot_appended ns es h step e :
  nth_error h step = Some e ->
  same_serialization e ns es = false ->
  record_snapshot ns es h step
  = ((firstn (step + 1) h ++ [ {| fs_nodes := ns; fs_edges := es |} ])%list,
     step + 1).
Proof.
  intros He H. destruct (last_entry_base _ _ _ He) as [Hlast Hlen].
  unfold record_snapshot. rewrite Hlast, H, Hlen. reflexivity.
Qed.

(** C6, amended.  Recording a snapshot whose JSON serialization, of the
    nodes and of the edges, equals that of the history entry at the cursor
    adds no entry; a snapshot identical to that entry is such a one; so
    recording the same snapshot again never grows the history.  A snapshot
    whose serialization differs truncates the history to the entries up to
    the cursor, appends the snapshot and moves the cursor to it, the new
    last index. *)
Theorem record_snapshot_dedup (ns es : list obj) (h : list FlowState)
    (step : nat) (e : FlowState) :
  nth_error h step = Some e ->
  (same_serialization e ns es = true ->
   record_snapshot ns es h step = (h, step))
  /\ (e = {| fs_nodes := ns; fs_edges := es |} ->
      record_snapshot ns es h step = (h, step))
  /\ (forall h1 c1,
        record_snapshot ns es h step = (h1, c1) ->
        record_snapshot ns es h1 c1 = (h1, c1))
  /\ (same_serialization e ns es = false ->
      record_snapshot ns es h step
      = ((firstn (step + 1) h ++ [ {| fs_nodes := ns; fs_edges := es |} ])%list,
         step + 1)
      /\ List.length
           (firstn (step + 1) h ++ [ {| fs_nodes := ns; fs_edges := es |} ])
         = step + 2).
Proof.
  intros He. destruct (last_entry_base _ _ _ He) as [Hlast Hlen].
  pose proof (record_snapshot_duplicate ns es h step e He) as Hdup.
  pose proof (record_snapshot_appended ns es h step e He) as Hnew.
  split; [exact Hdup|]. split; [|split].
  - intros ->. apply Hdup, same_serialization_refl.
  - intros h1 c1 H1.
    destruct (same_serialization e ns es) eqn:Hs.
    + rewrite (Hdup eq_refl) in H1. injection H1 as <- <-. apply Hdup, eq_refl.
    + rewrite (Hnew eq_refl) in H1. injection H1 as <- <-.
      unfold record_snapshot.
      replace (step + 1 + 1) with (List.length (firstn (step + 1) h) + 1)
        by lia.
      rewrite firstn_app_2. simpl firstn.
      rewrite last_entry_snoc, same_serialization_refl. reflexivity.
  - intros H. split; [exact (Hnew H)|].
    rewrite length_app, Hlen. simpl. lia.
Qed.

End Record.

(** On the editor that has loaded the earlier slot, the snapshot of the
    unchanged graph serializes differently from the entry at the cursor and
    is appended. *)
Lemma record_snapshot_dedup_witness :
  snd (@record_snapshot Browser.platform Sample.earlier_snapshot []
         (history Sample.earlier_loaded) 0) = 1.
Proof.
  destruct (@record_snapshot_dedup Browser.platform
              Sample.earlier_snapshot [] (history Sample.earlier_loaded) 0
              {| fs_nodes := nodes Sample.earlier_loaded; fs_edges := [] |})
    as (_ & _ & _ & H).
  - vm_compute. reflexivity.
  - destruct H as [H _].
    + vm_compute. reflexivity.
    + rewrite H. reflexivity.
Defined.

(** ** C5: saving, then loading *)

(** C5, as the specification states it, fails on the code.  The slot holds
    a node of the unknown shape triangle, stored with its one connection
    point; the node is loaded as a rectangle and keeps that connection
    point: none is generated. *)
Lemma load_unknown_shape_counterexample :
  exists n,
    nodes Sample.triangle_loaded = [n]
    /\ lookup "type" n = VStr "rectangle"
    /\ field n "nodeCategory" = VStr "rectangle"
    /\ handle_ids (customHandles_of n) = [ VStr "n1-apex" ]
    /\ customHandles_of n <> @defaultHandles Browser.platform rectangle "n1" 0.
Proof.
  eexists. split; [vm_compute; reflexivity|].
  repeat split; try reflexivity. vm_compute. discriminate.
Qed.

Section Persistence.

Context {P : Platform}.

Lemma get_optget v k x : get v k = Ok x -> optget v k = x.
Proof. unfold optget. intros ->. reflexivity. Qed.

Lemma get_not_null v k x : get v k = Ok x -> forall k', get v k' = Ok (optget v k').
Proof.
  intros H k'. unfold optget. destruct v; simpl in *; try discriminate;
    reflexivity.
Qed.

(** What [loadNode] returns, when it returns. *)
Lemma loadNode_inv node t n t' :
  loadNode node t = (Ok n, t') ->
  let data := optget node "data" in
  let nc :=
    if includes AVAILABLE_SHAPES (optget data "nodeCategory")
    then optget data "nodeCategory"
    else if includes AVAILABLE_SHAPES (optget node "type")
         then optget node "type" else VStr "rectangle" in
  lookup "type" n = nc
  /\ field n "nodeCategory" = nc
  /\ field n "color" = or_else (optget data "color") (VStr "#2563eb")
  /\ field n "content" = or_else (optget data "content") (VStr "")
  /\ (if nonempty_array (optget data "customHandles")
      then field n "customHandles" = optget data "customHandles" /\ t' = t
      else getDefaultHandlesForShape nc (optget node "id") t
           = (Ok (field n "customHandles"), t')).
Proof.
  unfold loadNode. unfold bind at 1, lift at 1.
  destruct (get node "data") as [data|] eqn:Hdata; [|discriminate].
  rewrite (get_optget _ _ _ Hdata).
  rewrite !(get_not_null _ _ _ Hdata).
  unfold bind at 1, lift at 1.
  destruct (includes AVAILABLE_SHAPES (optget data "nodeCategory")) eqn:Hi.
  - destruct (includes_shapes _ Hi) as [c Hc].
    assert (Hg : get data "nodeCategory" = Ok (optget data "nodeCategory")).
    { unfold optget in *. destruct (get data "nodeCategory");
        [reflexivity | discriminate]. }
    rewrite Hg. unfold bind at 1.
    destruct (nonempty_array (optget data "customHandles")) eqn:Hne.
    + assert (Hh : get data "customHandles" = Ok (optget data "customHandles")).
      { unfold optget in *. destruct (get data "customHandles");
          [reflexivity | discriminate]. }
      rewrite Hh. unfold lift, ret. intros H. inversion H.
      unfold field, optget. lookups. repeat split; try reflexivity; assumption.
    + unfold bind at 1, lift at 1.
      destruct (getDefaultHandlesForShape _ _ _) as [[hs|] t0] eqn:Hh;
        [|discriminate].
      unfold ret. intros H. inversion H; subst.
      unfold field, optget. lookups. repeat split; try reflexivity; assumption.
  - unfold rbind at 1. unfold bind at 1.
    set (nc := if includes AVAILABLE_SHAPES (optget node "type")
               then optget node "type" else VStr "rectangle").
    destruct (nonempty_array (optget data "customHandles")) eqn:Hne.
    + assert (Hh : get data "customHandles" = Ok (optget data "customHandles")).
      { unfold optget in *. destruct (get data "customHandles");
          [reflexivity | discriminate]. }
      rewrite Hh. unfold lift, ret. intros H. inversion H.
      unfold field, optget. lookups. repeat split; try reflexivity; assumption.
    + unfold bind at 1, lift at 1.
      destruct (getDefaultHandlesForShape _ _ _) as [[hs|] t0] eqn:Hh;
        [|discriminate].
      unfold ret. intros H. inversion H; subst.
      unfold field, optget. lookups. repeat split; try reflexivity; assumption.
Qed.

(** [loadNode] returns on everything but [null] and [undefined]. *)
Lemma loadNode_total node t :
  node <> VNull -> node <> VUndefined ->
  exists n t', loadNode node t = (Ok n, t').
Proof.
  intros H1 H2.
  assert (Hg : forall k, get node k = Ok (optget node k)).
  { intros k. unfold optget. destruct node; simpl; congruence. }
  unfold loadNode. unfold bind at 1, lift at 1. rewrite !Hg.
  set (data := optget node "data").
  unfold bind at 1, lift at 1.
  set (nc := if includes AVAILABLE_SHAPES (optget data "nodeCategory")
             then get data "nodeCategory" else _).
  assert (Hnc : exists c, nc = Ok (VStr (tag c))).
  { unfold nc.
    destruct (includes AVAILABLE_SHAPES (optget data "nodeCategory")) eqn:Hi.
    - destruct (includes_shapes _ Hi) as [c Hc]. exists c.
      unfold optget in Hc.
      destruct (get data "nodeCategory"); [subst; reflexivity | discriminate].
    - unfold rbind.
      destruct (includes AVAILABLE_SHAPES (optget node "type")) eqn:Ht.
      + destruct (includes_shapes _ Ht) as [c Hc]. exists c.
        rewrite Hc. reflexivity.
      + exists rectangle. reflexivity. }
  destruct Hnc as [c ->]. unfold bind at 1.
  destruct (nonempty_array (optget data "customHandles")) eqn:Hne.
  - assert (Hh : get data "customHandles" = Ok (optget data "customHandles")).
    { unfold optget in *. destruct (get data "customHandles");
        [reflexivity | discriminate]. }
    rewrite Hh. unfold lift, ret. eauto.
  - unfold bind at 1, lift at 1.
    destruct (default_handles_nonempty c (optget node "id") t)
      as (h & hs & t0 & Hh).
    rewrite Hh. unfold ret. eauto.
Qed.

(** A node in the form the save effect writes is loaded as it is. *)
Lemma loadNode_saved_form id position c label color content hs t :
  truthy color = true ->
  truthy content = true \/ content = VStr "" ->
  nonempty_array hs = true ->
  let n :=
    [ ("id", id); ("position", position); ("type", VStr (tag c));
      ("data",
       VObj [ ("label", label); ("nodeCategory", VStr (tag c));
              ("color", color); ("content", content);
              ("customHandles", hs) ]) ] in
  loadNode (VObj n) t = (Ok n, t).
Proof.
  intros Hcolor Hcontent Hhs n. unfold n.
  destruct hs as [| | | | |[|h hs]|]; try discriminate.
  assert (Hc : or_else content (VStr "") = content).
  { unfold or_else. destruct Hcontent as [-> | ->]; reflexivity. }
  destruct c; unfold loadNode, bind, lift, ret, assign;
    cbn -[truthy or_else]; rewrite Hc; unfold or_else; rewrite Hcolor;
    reflexivity.
Qed.

Lemma saveNode_editor n :
  editor_node n ->
  exists n',
    saveNode n = Ok n'
    /\ node_view n' = node_view n
    /\ forall t, loadNode (VObj n') t = (Ok n', t).
Proof.
  intros ((c & Hty & Hnc) & Hcolor & Hcontent & Hhs).
  destruct (field_string_object _ _ _ Hnc) as (o & Hd & Ho).
  unfold field in Hcolor, Hcontent, Hhs. rewrite Hd in Hcolor, Hcontent, Hhs.
  change (optget (VObj o) ?k) with (lookup k o) in Hcolor, Hcontent, Hhs.
  unfold saveNode. rewrite Hd. simpl. rewrite Hty, Ho.
  eexists. split; [reflexivity|]. split.
  - unfold node_view, field. simpl. rewrite Hd, Hty. unfold optget. simpl.
    rewrite Ho. reflexivity.
  - intros t. apply loadNode_saved_form; assumption.
Qed.

(** Every node [loadNode] returns is an editor node. *)
Lemma loadNode_editor_node node t n t' :
  loadNode node t = (Ok n, t') -> editor_node n.
Proof.
  intros H. destruct (loadNode_inv _ _ _ _ H) as (_ & Hnc & Hcol & Hcon & Hh).
  split; [exact (loadNode_shape_ok _ _ _ _ H)|].
  destruct (loadNode_shape_ok _ _ _ _ H) as (c & _ & Hc).
  rewrite Hc in Hnc. rewrite <- Hnc in Hh.
  split; [|split].
  - rewrite Hcol. unfold or_else.
    destruct (truthy (optget (optget node "data") "color")) eqn:Ht;
      [exact Ht | reflexivity].
  - rewrite Hcon. unfold or_else.
    destruct (truthy (optget (optget node "data") "content")) eqn:Ht;
      [left; exact Ht | right; reflexivity].
  - destruct (nonempty_array (optget (optget node "data") "customHandles"))
      eqn:Hne.
    + destruct Hh as [-> _]. exact Hne.
    + destruct (default_handles_nonempty c (optget node "id") t)
        as (h & hs & t0 & Hd).
      rewrite Hd in Hh. injection Hh as <- _. reflexivity.
Qed.

Lemma loadEffect_editor_nodes s :
  Forall editor_node (nodes (loadEffect s)).
Proof.
  unfold loadEffect.
  destruct (localStorage s) as [txt|]; [|constructor].
  destruct (String.eqb txt ""); [constructor|].
  unfold readSlot. destruct (JSON_parse txt) as [doc|]; [|constructor].
  destruct (loadNodes doc (draws s)) as [[ns|] t'] eqn:Hn; [|constructor].
  assert (Forall editor_node ns) as Hok.
  { unfold loadNodes in Hn. unfold bind at 1, lift at 1 in Hn.
    destruct (get doc "nodes") as [stored|]; [|discriminate].
    destruct (or_else stored (VArr [])); try discriminate.
    eapply mapM_Forall; [|exact Hn]. intros. eapply loadNode_editor_node; eauto. }
  destruct (loadEdges doc); exact Hok.
Qed.

Lemma get_truthy v k : truthy v = true -> get v k = Ok (optget v k).
Proof.
  unfold optget. destruct v; simpl; try discriminate; reflexivity.
Qed.

(** An edge is loaded with the ends, the handles and the id it was stored
    with. *)
Lemma loadEdge_object e :
  exists e',
    loadEdge (VObj e) = Ok e'
    /\ edge_ends e' = edge_ends e
    /\ lookup "id" e' = lookup "id" e.
Proof.
  unfold loadEdge. simpl.
  destruct (truthy (lookup "style" e)) eqn:Hs.
  - rewrite !(get_truthy _ _ Hs). simpl.
    eexists. split; [reflexivity|]. unfold edge_ends. lookups. auto.
  - simpl. eexists. split; [reflexivity|]. unfold edge_ends. lookups. auto.
Qed.

Lemma loadEdges_objects es :
  exists es',
    rmap loadEdge (map VObj es) = Ok es'
    /\ map edge_ends es' = map edge_ends es
    /\ map (lookup "id") es' = map (lookup "id") es.
Proof.
  induction es as [|e es (es' & IH & IH1 & IH2)].
  - exists []. auto.
  - destruct (loadEdge_object e) as (e' & He & H1 & H2).
    exists (e' :: es'). simpl. rewrite He. simpl. rewrite IH. simpl.
    rewrite H1, H2, IH1, IH2. auto.
Qed.

Lemma saveNodes_editor ns :
  Forall editor_node ns ->
  exists ns',
    rmap saveNode ns = Ok ns'
    /\ map node_view ns' = map node_view ns
    /\ forall t, mapM loadNode (map VObj ns') t = (Ok ns', t).
Proof.
  induction 1 as [|n ns Hn _ (ns' & IH & IH1 & IH2)].
  - exists []. auto.
  - destruct (saveNode_editor n Hn) as (n' & Hs & Hv & Hl).
    exists (n' :: ns'). simpl. rewrite Hs. simpl. rewrite IH. simpl.
    rewrite Hv, IH1. split; [reflexivity|]. split; [reflexivity|].
    intros t. unfold bind at 1. rewrite Hl. unfold bind at 1. rewrite IH2.
    reflexivity.
Qed.

Lemma edge_ends_saveEdge e :
  edge_ends (saveEdge e) = edge_ends e
  /\ lookup "id" (saveEdge e) = lookup "id" e.
Proof. split; reflexivity. Qed.

Lemma loadEffect_parsed txt doc ns es t t' :
  txt <> "" ->
  JSON_parse txt = Some doc ->
  loadNodes doc t = (Ok ns, t') ->
  loadEdges doc = Ok es ->
  nodes (loadEffect (initial (Some txt) t)) = ns
  /\ edges (loadEffect (initial (Some txt) t)) = es.
Proof.
  intros Hne Hparse Hn He. unfold loadEffect, readSlot. simpl.
  destruct (String.eqb_spec txt "") as [?|_]; [contradiction|].
  rewrite Hparse, Hn, He. split; reflexivity.
Qed.

(** C5, amended.  For every graph whose nodes are as the editor makes them
    (a recognized category that is also the render type, a color, a
    content that is the empty text or not falsy, connection points) and
    whose saved document the JSON codec reads back as written, the save effect followed by the load effect
    gives a graph with the same nodes (ids, positions, shapes, labels,
    colors, contents, connection points) and edges with the same ends,
    handles and ids.  A loaded node takes its stored category when that is
    a known shape, else its stored render type when that is one, else
    rectangle; it keeps its stored connection points when they are a
    non-empty array, whatever its stored shape, and only otherwise gets
    those of its shape generated; either way it is a node as the editor
    makes them. *)
Theorem save_load_roundtrip (t : nat) :
  (forall s,
     isInitialLoadDone s = true ->
     Forall editor_node (nodes s) ->
     exists s1 ns,
       saveEffect s = Ok s1
       /\ rmap saveNode (nodes s) = Ok ns
       /\ localStorage s1
          = Some (JSON_stringify (document ns (map saveEdge (edges s))))
       /\ (JSON_stringify (document ns (map saveEdge (edges s))) <> "" ->
           JSON_parse (JSON_stringify (document ns (map saveEdge (edges s))))
           = Some (document ns (map saveEdge (edges s))) ->
           let s2 := loadEffect (initial (localStorage s1) t) in
           map node_view (nodes s2) = map node_view (nodes s)
           /\ map edge_ends (edges s2) = map edge_ends (edges s)
           /\ map (lookup "id") (edges s2) = map (lookup "id") (edges s)))
  /\ (forall node,
        node <> VNull -> node <> VUndefined ->
        exists n t', loadNode node t = (Ok n, t'))
  /\ (forall node n t',
        loadNode node t = (Ok n, t') ->
        let data := optget node "data" in
        let shape :=
          if includes AVAILABLE_SHAPES (optget data "nodeCategory")
          then optget data "nodeCategory"
          else if includes AVAILABLE_SHAPES (optget node "type")
               then optget node "type" else VStr "rectangle" in
        lookup "type" n = shape
        /\ field n "nodeCategory" = shape
        /\ (if nonempty_array (optget data "customHandles")
            then field n "customHandles" = optget data "customHandles"
            else getDefaultHandlesForShape shape (optget node "id") t
                 = (Ok (field n "customHandles"), t')))
  /\ (forall s, Forall editor_node (nodes (loadEffect s))).
Proof.
  split; [|split; [|split]]; [| | |apply loadEffect_editor_nodes].
  - intros s Hdone Hnodes.
    destruct (saveNodes_editor _ Hnodes) as (ns & Hs & Hv & Hl).
    unfold saveEffect. rewrite Hdone, Hs. simpl.
    destruct (record_snapshot _ _ _ _) as [h c].
    eexists _, ns. split; [reflexivity|]. split; [reflexivity|].
    split; [reflexivity|]. simpl. intros Hne Hparse.
    destruct (loadEdges_objects (map saveEdge (edges s)))
      as (es' & He & He1 & He2).
    destruct (loadEffect_parsed _ _ ns es' t t Hne Hparse) as [-> ->].
    + unfold loadNodes. unfold bind at 1, lift at 1. simpl. apply Hl.
    + unfold loadEdges. simpl. exact He.
    + rewrite Hv, He1, He2, !map_map.
      split; [reflexivity|]. split; reflexivity.
  - intros node. apply loadNode_total.
  - intros node n t' H.
    destruct (loadNode_inv _ _ _ _ H) as (H1 & H2 & _ & _ & H3).
    split; [exact H1|]. split; [exact H2|].
    destruct (nonempty_array (optget (optget node "data") "customHandles"));
      [apply H3 | exact H3].
Qed.

End Persistence.

(** The sample graph with one edge, saved and loaded again. *)
Lemma save_load_roundtrip_witness :
  exists s1,
    @saveEffect Browser.platform Sample.connected = Ok s1
    /\ let s2 := @loadEffect Browser.platform (initial (localStorage s1) 5) in
       map node_view (nodes s2) = map node_view (nodes Sample.connected)
       /\ map edge_ends (edges s2) = map edge_ends (edges Sample.connected).
Proof.
  destruct (@save_load_roundtrip Browser.platform 5) as (H & _ & _ & _).
  destruct (H Sample.connected) as (s1 & ns & Hs & Hns & Hslot & Hload).
  - reflexivity.
  - repeat constructor; try (exists rectangle; split; reflexivity);
      try (exists circle; split; reflexivity); right; reflexivity.
  - exists s1. split; [exact Hs|].
    assert (Hns' := Hns). vm_compute in Hns'. injection Hns' as <-.
    destruct Hload as (H1 & H2 & _).
    + vm_compute. discriminate.
    + vm_compute. reflexivity.
    + split; assumption.
Defined.

(** ** C4: undo, then redo *)

Lemma lookup_index_props k i xs :
  (forall j, String.eqb (string_of_nat j) k = false) ->
  lookup k (index_props_from i xs) = VUndefined.
Proof.
  intros Hk. revert i. induction xs as [|x xs IH]; intros i; simpl.
  - reflexivity.
  - rewrite Hk. apply IH.
Qed.

Ltac not_a_numeral :=
  intros j; unfold string_of_nat; destruct (Nat.to_uint j); reflexivity.

(** The five properties the save effect reads from [n.data] are the same
    on [{ ...n.data }]. *)
Lemma get_spread d k x :
  In k [ "label"; "nodeCategory"; "color"; "content"; "customHandles" ] ->
  get d k = Ok x -> lookup k (spread d) = x.
Proof.
  intros Hk.
  assert (Hnum : forall j, String.eqb (string_of_nat j) k = false).
  { simpl in Hk.
    destruct Hk as [<-|[<-|[<-|[<-|[<-|[]]]]]]; not_a_numeral. }
  assert (Hlen : String.eqb k "length" = false).
  { simpl in Hk. destruct Hk as [<-|[<-|[<-|[<-|[<-|[]]]]]]; reflexivity. }
  destruct d; simpl; try discriminate; rewrite ?Hlen; intros H; inversion H;
    try reflexivity; apply lookup_index_props, Hnum.
Qed.

Lemma saveNode_copyNode n n' : saveNode n = Ok n' -> saveNode (copyNode n) = Ok n'.
Proof.
  unfold saveNode, copyNode. lookups.
  destruct (get (lookup "data" n) "label") as [x1|] eqn:H1; [|discriminate].
  destruct (get (lookup "data" n) "nodeCategory") as [x2|] eqn:H2;
    [|discriminate].
  destruct (get (lookup "data" n) "color") as [x3|] eqn:H3; [|discriminate].
  destruct (get (lookup "data" n) "content") as [x4|] eqn:H4; [|discriminate].
  destruct (get (lookup "data" n) "customHandles") as [x5|] eqn:H5;
    [|discriminate].
  simpl. intros H.
  rewrite (get_spread _ "label" _ ltac:(simpl; auto) H1).
  rewrite (get_spread _ "nodeCategory" _ ltac:(simpl; auto) H2).
  rewrite (get_spread _ "color" _ ltac:(simpl; auto) H3).
  rewrite (get_spread _ "content" _ ltac:(simpl; auto) H4).
  rewrite (get_spread _ "customHandles" _ ltac:(simpl; auto 6) H5).
  exact H.
Qed.

(** A saved node is its own copy and its own saved form, and shows what
    the node showed. *)
Lemma saveNode_fixed n n' :
  saveNode n = Ok n' ->
  copyNode n' = n' /\ saveNode n' = Ok n' /\ node_view n' = node_view n.
Proof.
  unfold saveNode.
  destruct (get (lookup "data" n) "label") as [x1|] eqn:H1; [|discriminate].
  destruct (get (lookup "data" n) "nodeCategory") as [x2|] eqn:H2;
    [|discriminate].
  destruct (get (lookup "data" n) "color") as [x3|] eqn:H3; [|discriminate].
  destruct (get (lookup "data" n) "content") as [x4|] eqn:H4; [|discriminate].
  destruct (get (lookup "data" n) "customHandles") as [x5|] eqn:H5;
    [|discriminate].
  simpl. intros H. inversion H. split; [reflexivity|]. split; [reflexivity|].
  unfold node_view, field. simpl.
  rewrite (get_optget _ _ _ H1), (get_optget _ _ _ H2), (get_optget _ _ _ H3),
    (get_optget _ _ _ H4), (get_optget _ _ _ H5).
  reflexivity.
Qed.

Lemma saveNodes_fixed ns ns' :
  rmap saveNode ns = Ok ns' ->
  map copyNode ns' = ns'
  /\ rmap saveNode ns' = Ok ns'
  /\ map node_view ns' = map node_view ns.
Proof.
  intros H. apply rmap_Forall2 in H.
  induction H as [|n n' ns ns' Hn _ (IH1 & IH2 & IH3)]; [auto|].
  destruct (saveNode_fixed _ _ Hn) as (H1 & H2 & H3).
  simpl. rewrite H1, IH1, H2, IH2, H3, IH3. auto.
Qed.

Lemma saveNodes_copies ns ns' :
  rmap saveNode ns = Ok ns' -> rmap saveNode (map copyNode ns) = Ok ns'.
Proof.
  revert ns'. induction ns as [|n ns IH]; simpl; intros ns' H; [exact H|].
  destruct (saveNode n) as [n'|] eqn:Hn; [|discriminate]. simpl in H.
  destruct (rmap saveNode ns) as [ns0|]; [|discriminate]. simpl in H.
  rewrite (saveNode_copyNode _ _ Hn), (IH _ eq_refl). exact H.
Qed.

Lemma copyEdges es : map copyEdge es = es.
Proof. apply map_id. Qed.

Lemma saveEdges_fixed es :
  map saveEdge (map saveEdge es) = map saveEdge es
  /\ map edge_view (map saveEdge es) = map edge_view es.
Proof. rewrite !map_map. split; reflexivity. Qed.

Section History.

Context {P : Platform}.

(** A snapshot the save effect has taken is a stable entry. *)
Lemma snapshot_stable ns ns' es :
  rmap saveNode ns = Ok ns' ->
  stable_entry {| fs_nodes := ns'; fs_edges := map saveEdge es |}.
Proof.
  intros H. destruct (saveNodes_fixed _ _ H) as (H1 & H2 & _).
  exists ns'. simpl. rewrite H1, copyEdges, (proj1 (saveEdges_fixed es)).
  split; [exact H2 | apply same_serialization_refl].
Qed.

(** What the save effect does to a loaded editor: nothing to the history
    when the snapshot is a duplicate, else the snapshot is appended after
    the entry at the cursor. *)
Lemma saveEffect_cases s s' e :
  isInitialLoadDone s = true ->
  nth_error (history s) (currentStep s) = Some e ->
  saveEffect s = Ok s' ->
  exists ns,
    rmap saveNode (nodes s) = Ok ns
    /\ nodes s' = nodes s /\ edges s' = edges s
    /\ stale s' = false /\ isInitialLoadDone s' = true
    /\ ((same_serialization e ns (map saveEdge (edges s)) = true
         /\ history s' = history s /\ currentStep s' = currentStep s)
        \/ (same_serialization e ns (map saveEdge (edges s)) = false
            /\ history s'
               = (firstn (currentStep s + 1) (history s)
                  ++ [ {| fs_nodes := ns;
                          fs_edges := map saveEdge (edges s) |} ])%list
            /\ currentStep s' = currentStep s + 1)).
Proof.
  intros Hdone He. unfold saveEffect. rewrite Hdone. simpl.
  destruct (rmap saveNode (nodes s)) as [ns|] eqn:Hns; [|discriminate].
  simpl.
  destruct (same_serialization e ns (map saveEdge (edges s))) eqn:Hsame.
  - rewrite (record_snapshot_duplicate _ _ _ _ _ He Hsame).
    intros H. inversion H; subst. simpl.
    exists ns. repeat split; auto.
  - rewrite (record_snapshot_appended _ _ _ _ _ He Hsame).
    intros H. inversion H; subst. simpl.
    exists ns. repeat split; auto.
Qed.

Lemma nth_error_snoc {A} (l : list A) x : nth_error (l ++ [x]) (List.length l) = Some x.
Proof.
  rewrite nth_error_app2 by lia. rewrite Nat.sub_diag. reflexivity.
Qed.

Lemma nth_error_base h step (e snap : FlowState) :
  nth_error h step = Some e ->
  nth_error (firstn (step + 1) h ++ [snap]) step = Some e
  /\ nth_error (firstn (step + 1) h ++ [snap]) (step + 1) = Some snap
  /\ List.length (firstn (step + 1) h ++ [snap]) = step + 2
  /\ firstn (step + 1) (firstn (step + 1) h ++ [snap]) = firstn (step + 1) h.
Proof.
  intros He. destruct (last_entry_base _ _ _ He) as [_ Hlen].
  split; [|split; [|split]].
  - rewrite nth_error_app1 by lia. rewrite nth_error_firstn.
    destruct (Nat.ltb_spec step (step + 1)); [exact He | lia].
  - rewrite <- Hlen at 2. apply nth_error_snoc.
  - rewrite length_app, Hlen. simpl. lia.
  - rewrite <- Hlen at 1. rewrite <- (Nat.add_0_r (List.length _)) at 1.
    rewrite firstn_app_2. simpl. apply app_nil_r.
Qed.

(** After the save effect, the editor is at rest, when the entry at the
    cursor was stable or the graph is a copy of it. *)
Lemma saveEffect_settled s s' e :
  isInitialLoadDone s = true ->
  nth_error (history s) (currentStep s) = Some e ->
  stable_entry e
  \/ (nodes s = map copyNode (fs_nodes e)
      /\ edges s = map copyEdge (fs_edges e)) ->
  saveEffect s = Ok s' ->
  settled s'.
Proof.
  intros Hdone He Hst Hs.
  destruct (saveEffect_cases _ _ _ Hdone He Hs)
    as (ns & Hns & _ & _ & Hstale & Hdone'
        & [(Hsame & Hh & Hc) | (Hsame & Hh & Hc)]).
  - split; [exact Hstale|]. split; [exact Hdone'|].
    exists e. rewrite Hh, Hc. split; [exact He|].
    destruct Hst as [Hst | [Hn Hedges]]; [exact Hst|].
    exists ns. rewrite <- Hn, <- Hedges. auto.
  - split; [exact Hstale|]. split; [exact Hdone'|].
    eexists. rewrite Hh, Hc. split.
    + apply (nth_error_base _ _ _ _ He).
    + eapply snapshot_stable, Hns.
Qed.

(** A mutation leaves the history and the cursor to the save effect. *)
Lemma mutate_history m s s' :
  mutate m s = Ok s' ->
  history s' = history s /\ currentStep s' = currentStep s
  /\ isInitialLoadDone s' = isInitialLoadDone s
  /\ (stale s' = true \/ stale s' = stale s).
Proof.
  destruct m; simpl; intros H; try (inversion H; subst s'; clear H);
    try (simpl; auto; fail).
  - unfold createNewNode.
    destruct (getDefaultHandlesForShape _ _ _) as [[hs|] t];
      [destruct (count_where _ _)|]; simpl; auto.
  - unfold handleDeleteNode. destruct (truthy (VStr nodeId)); simpl; auto.
  - unfold handleChangeNodeType in H.
    destruct (truthy (VStr nodeId) && truthy (VStr (tag newType))).
    + destruct (mapM _ _ _) as [[nds|] t]; [|discriminate].
      inversion H; subst. simpl. auto.
    + inversion H; subst. auto.
  - unfold handleUpdateNodeData.
    destruct (truthy (VStr nodeId) && truthy (VObj newData)); simpl; auto.
Qed.

Lemma settle_settled s s' : settled s -> settle s = Ok s' -> s' = s.
Proof.
  intros (Hstale & _) H. unfold settle in H. rewrite Hstale in H.
  inversion H. reflexivity.
Qed.

Lemma loadEffect_fields s :
  isInitialLoadDone (loadEffect s) = true
  /\ stale (loadEffect s) = true
  /\ currentStep (loadEffect s) = 0.
Proof.
  unfold loadEffect.
  destruct (match localStorage s with Some _ => _ | None => _ end)
    as [[[ns es] slot] t]. auto.
Qed.

Lemma mount_settled slot t s : mount slot t = Ok s -> settled s.
Proof.
  unfold mount, settle. set (s0 := loadEffect (initial slot t)).
  destruct (loadEffect_fields (initial slot t)) as (Hdone & Hstale & Hstep).
  fold s0 in Hdone, Hstale, Hstep. rewrite Hstale. intros Hs.
  assert (He : nth_error (history s0) (currentStep s0)
               = Some {| fs_nodes := nodes s0; fs_edges := edges s0 |}).
  { rewrite Hstep. unfold s0. rewrite loadEffect_history. reflexivity. }
  destruct (saveEffect_cases _ _ _ Hdone He Hs)
    as (ns & Hns & _ & _ & Hstale' & Hdone'
        & [(Hsame & Hh & Hc) | (Hsame & Hh & Hc)]).
  - split; [exact Hstale'|]. split; [exact Hdone'|].
    eexists. rewrite Hh, Hc. split; [exact He|].
    exists ns. simpl. rewrite copyEdges. split; [|exact Hsame].
    apply saveNodes_copies, Hns.
  - split; [exact Hstale'|]. split; [exact Hdone'|].
    eexists. rewrite Hh, Hc. split.
    + apply (nth_error_base _ _ _ _ He).
    + eapply snapshot_stable, Hns.
Qed.

Lemma restore_settled e k s s' :
  isInitialLoadDone s = true ->
  nth_error (history s) k = Some e ->
  saveEffect (restore e k s) = Ok s' ->
  settled s'.
Proof.
  intros Hdone He Hs.
  eapply (saveEffect_settled (restore e k s) s' e); auto.
Qed.

Lemma step_settled ev s s' : settled s -> step ev s = Ok s' -> settled s'.
Proof.
  intros Hset Hstep. assert (Hset' := Hset).
  destruct Hset' as (Hstale & Hdone & e & He & Hst).
  unfold step in Hstep. destruct ev as [m| |].
  - destruct (mutate m s) as [s1|] eqn:Hm; [|discriminate]. simpl in Hstep.
    destruct (mutate_history _ _ _ Hm) as (Hh & Hc & Hd & Hs).
    unfold settle in Hstep. destruct (stale s1) eqn:Hs1.
    + eapply (saveEffect_settled s1 s' e); try congruence. auto.
    + inversion Hstep; subst s'. split; [exact Hs1|]. split; [congruence|].
      exists e. rewrite Hh, Hc. auto.
  - simpl in Hstep. unfold undo in Hstep.
    destruct (0 <? currentStep s)%nat.
    + destruct (nth_error (history s) (currentStep s - 1)) as [e'|] eqn:He'.
      * change (settle (restore e' (currentStep s - 1) s))
          with (saveEffect (restore e' (currentStep s - 1) s)) in Hstep.
        exact (restore_settled e' _ s s' Hdone He' Hstep).
      * rewrite (settle_settled _ _ Hset Hstep). exact Hset.
    + rewrite (settle_settled _ _ Hset Hstep). exact Hset.
  - simpl in Hstep. unfold redo in Hstep.
    destruct (currentStep s <? List.length (history s) - 1)%nat.
    + destruct (nth_error (history s) (currentStep s + 1)) as [e'|] eqn:He'.
      * change (settle (restore e' (currentStep s + 1) s))
          with (saveEffect (restore e' (currentStep s + 1) s)) in Hstep.
        exact (restore_settled e' _ s s' Hdone He' Hstep).
      * rewrite (settle_settled _ _ Hset Hstep). exact Hset.
    + rewrite (settle_settled _ _ Hset Hstep). exact Hset.
Qed.

(** Every state the editor reaches is at rest. *)
Lemma reachable_settled s : reachable s -> settled s.
Proof.
  induction 1 as [slot t s Hm | ev s s' _ IH Hs].
  - eapply mount_settled, Hm.
  - eapply step_settled; eauto.
Qed.

End History.

Section UndoRedo.

Context {P : Platform}.




End UndoRedo.


(** * More of the editor *)

(** ** The editor at rest *)

Section AtRest.

Context {P : Platform}.

Lemma saveEffect_slot s s' :
  isInitialLoadDone s = true ->
  saveEffect s = Ok s' ->
  nodes s' = nodes s /\ edges s' = edges s /\ slot_in_sync s'.
Proof.
  intros Hdone. unfold saveEffect. rewrite Hdone. simpl.
  destruct (rmap saveNode (nodes s)) as [ns|] eqn:Hns; [|discriminate].
  simpl. destruct (record_snapshot _ _ _ _) as [h c].
  intros H. injection H as <-. simpl.
  split; [reflexivity|]. split; [reflexivity|].
  exists ns. simpl. split; [exact Hns | reflexivity].
Qed.

(** A handler that sets neither the nodes nor the edges leaves the graph
    and the slot alone. *)
Lemma mutate_quiet m s s' :
  mutate m s = Ok s' ->
  stale s = false -> stale s' = false ->
  nodes s' = nodes s /\ edges s' = edges s
  /\ localStorage s' = localStorage s.
Proof.
  intros H Hs Hs'. destruct m; simpl in H.
  - injection H as <-. discriminate Hs'.
  - injection H as <-. revert Hs'. unfold createNewNode.
    destruct (getDefaultHandlesForShape _ _ _) as [[v|] t].
    + destruct (count_where _ _); simpl; [discriminate|auto].
    + simpl. auto.
  - injection H as <-. revert Hs'. unfold handleDeleteNode.
    destruct (truthy _); simpl; [discriminate|auto].
  - revert H. unfold handleChangeNodeType.
    destruct (_ && _).
    + destruct (mapM _ _ _) as [[nds|] t]; [|discriminate].
      intros H; injection H as <-. discriminate Hs'.
    + intros H; injection H as <-. auto.
  - injection H as <-. revert Hs'. unfold handleUpdateNodeData.
    destruct (_ && _); simpl; [discriminate|auto].
  - injection H as <-. discriminate Hs'.
  - injection H as <-. discriminate Hs'.
  - injection H as <-. discriminate Hs'.
Qed.

Lemma undo_cases s :
  undo s = s
  \/ exists e,
       (0 < currentStep s)%nat
       /\ nth_error (history s) (currentStep s - 1) = Some e
       /\ undo s = restore e (currentStep s - 1) s.
Proof.
  unfold undo. destruct (0 <? currentStep s)%nat eqn:Hc; [|left; reflexivity].
  apply Nat.ltb_lt in Hc.
  destruct (nth_error _ _) as [e|] eqn:He; [|left; reflexivity].
  right. exists e. auto.
Qed.

Lemma redo_cases s :
  redo s = s
  \/ exists e,
       nth_error (history s) (currentStep s + 1) = Some e
       /\ redo s = restore e (currentStep s + 1) s.
Proof.
  unfold redo. destruct (_ <? _)%nat; [|left; reflexivity].
  destruct (nth_error _ _) as [e|] eqn:He; [|left; reflexivity].
  right. exists e. auto.
Qed.

(** An event either leaves the graph, the history and the slot alone, or
    ends in the save effect run on what the handler has set. *)
Lemma step_inv ev s s' :
  settled s ->
  step ev s = Ok s' ->
  (nodes s' = nodes s /\ edges s' = edges s
   /\ history s' = history s /\ currentStep s' = currentStep s
   /\ localStorage s' = localStorage s)
  \/ exists s1 e1,
       isInitialLoadDone s1 = true
       /\ history s1 = history s
       /\ nth_error (history s) (currentStep s1) = Some e1
       /\ saveEffect s1 = Ok s'
       /\ ((exists m, ev = Mutate m /\ mutate m s = Ok s1
                      /\ currentStep s1 = currentStep s)
           \/ (ev = Undo /\ (0 < currentStep s)%nat
               /\ s1 = restore e1 (currentStep s - 1) s)
           \/ (ev = Redo /\ s1 = restore e1 (currentStep s + 1) s)).
Proof.
  intros (Hstale & Hdone & e & He & _). unfold step.
  destruct ev as [m| |]; simpl.
  - destruct (mutate m s) as [s1|] eqn:Hm; [|discriminate]. simpl.
    destruct (mutate_history _ _ _ Hm) as (Hh & Hc & Hd & _).
    unfold settle. destruct (stale s1) eqn:Hs1.
    + intros Hsave. right. exists s1, e. rewrite Hd, Hc.
      repeat split; try assumption. left. exists m. auto.
    + intros H. injection H as <-. left.
      destruct (mutate_quiet _ _ _ Hm Hstale Hs1) as (? & ? & ?). auto.
  - destruct (undo_cases s) as [Hu | (e1 & Hpos & He1 & Hu)]; rewrite Hu.
    + unfold settle. rewrite Hstale. intros H. injection H as <-.
      left. auto.
    + unfold settle. simpl. intros Hsave. right.
      exists (restore e1 (currentStep s - 1) s), e1. simpl.
      repeat split; try assumption. right. left. auto.
  - destruct (redo_cases s) as [Hu | (e1 & He1 & Hu)]; rewrite Hu.
    + unfold settle. rewrite Hstale. intros H. injection H as <-.
      left. auto.
    + unfold settle. simpl. intros Hsave. right.
      exists (restore e1 (currentStep s + 1) s), e1. simpl.
      repeat split; try assumption. right. right. auto.
Qed.

End AtRest.

(** ** Walking the history *)

Lemma optget_spread d k :
  In k [ "label"; "nodeCategory"; "color"; "content"; "customHandles" ] ->
  lookup k (spread d) = optget d k.
Proof.
  intros Hk. destruct (get d k) as [x|] eqn:Hget.
  - rewrite (get_spread _ _ _ Hk Hget). symmetry. apply get_optget, Hget.
  - destruct d; try discriminate; reflexivity.
Qed.

Lemma node_view_copyNode n : node_view (copyNode n) = node_view n.
Proof.
  unfold node_view, field, copyNode. lookups.
  unfold optget at 1 2 3 4 5. simpl.
  rewrite !optget_spread by (simpl; tauto). reflexivity.
Qed.

Lemma graph_view_copies ns es :
  (map node_view (map copyNode ns), map edge_view (map copyEdge es))
  = (map node_view ns, map edge_view es).
Proof.
  rewrite copyEdges, map_map. f_equal. apply map_ext, node_view_copyNode.
Qed.

Section Walk.

Context {P : Platform}.

(** Undo or redo to a stable entry shows that entry and leaves the
    history as it is. *)
Lemma restore_stable e k s :
  isInitialLoadDone s = true ->
  nth_error (history s) k = Some e ->
  stable_entry e ->
  exists s',
    saveEffect (restore e k s) = Ok s'
    /\ history s' = history s /\ currentStep s' = k
    /\ graph_view s' = entry_view e.
Proof.
  intros Hdone He (ns & Hns & Hsame). unfold saveEffect. simpl.
  rewrite Hdone, Hns. simpl.
  rewrite (record_snapshot_duplicate _ _ _ _ _ He Hsame).
  eexists. split; [reflexivity|]. simpl. split; [reflexivity|].
  split; [reflexivity|]. unfold graph_view, entry_view. simpl.
  apply graph_view_copies.
Qed.

Lemma saveEffect_later_stable s s' e :
  isInitialLoadDone s = true ->
  nth_error (history s) (currentStep s) = Some e ->
  saveEffect s = Ok s' ->
  (forall i x, (1 <= i)%nat -> nth_error (history s) i = Some x ->
               stable_entry x) ->
  forall i x, (1 <= i)%nat -> nth_error (history s') i = Some x ->
              stable_entry x.
Proof.
  intros Hdone He Hsave IH i x Hi.
  destruct (saveEffect_cases _ _ _ Hdone He Hsave)
    as (ns & Hns & _ & _ & _ & _ & [(_ & Hh & _) | (_ & Hh & _)]);
    rewrite Hh; [apply IH, Hi|].
  destruct (last_entry_base _ _ _ He) as (_ & Hlen).
  destruct (Nat.lt_trichotomy i (currentStep s + 1)) as [Hlt | [-> | Hgt]].
  - rewrite nth_error_app1 by lia. rewrite nth_error_firstn.
    apply Nat.ltb_lt in Hlt. rewrite Hlt. apply IH, Hi.
  - rewrite <- Hlen at 2. rewrite nth_error_snoc. intros H.
    injection H as <-. apply (snapshot_stable _ _ _ Hns).
  - rewrite nth_error_app2 by lia. rewrite Hlen.
    destruct (i - (currentStep s + 1)) as [|j] eqn:Hj; [lia|].
    simpl. destruct j; discriminate.
Qed.

(** Every entry but the first is a snapshot the save effect has taken. *)
Lemma reachable_later_stable s :
  reachable s ->
  forall i x, (1 <= i)%nat -> nth_error (history s) i = Some x ->
              stable_entry x.
Proof.
  induction 1 as [slot t s Hm | ev s s' Hr IH Hstep].
  - unfold mount, settle in Hm.
    destruct (loadEffect_fields (initial slot t)) as (Hdone & Hstale & Hc).
    rewrite Hstale in Hm.
    refine (saveEffect_later_stable _ _ _ Hdone _ Hm _).
    + rewrite Hc, loadEffect_history. reflexivity.
    + rewrite loadEffect_history. intros [|[|i]] x Hi; [lia| |]; discriminate.
  - destruct (step_inv _ _ _ (reachable_settled _ Hr) Hstep)
      as [(_ & _ & Hh & _) | (s1 & e1 & Hdone & Hh & He1 & Hsave & _)].
    + rewrite Hh. exact IH.
    + rewrite <- Hh in He1.
      refine (saveEffect_later_stable _ _ _ Hdone He1 Hsave _).
      rewrite Hh. exact IH.
Qed.

End Walk.

Section Travel.

Context {P : Platform}.

Lemma saveEffect_total s :
  isInitialLoadDone s = true ->
  (exists ns, rmap saveNode (nodes s) = Ok ns) ->
  exists s', saveEffect s = Ok s'.
Proof.
  intros Hdone (ns & Hns). unfold saveEffect. rewrite Hdone, Hns. simpl.
  destruct (record_snapshot _ _ _ _). eexists. reflexivity.
Qed.

(** After the save effect the entry at the cursor is the graph on the
    canvas, when the effect has appended its snapshot or the entry was
    the graph already. *)
Lemma saveEffect_shows s s' e :
  isInitialLoadDone s = true ->
  nth_error (history s) (currentStep s) = Some e ->
  saveEffect s = Ok s' ->
  (history s' = history s -> entry_view e = graph_view s) ->
  shows_cursor s'.
Proof.
  intros Hdone He Hsave Hview.
  destruct (saveEffect_cases _ _ _ Hdone He Hsave)
    as (ns & Hns & Hn & Hed & _ & _ & [(_ & Hh & Hc) | (_ & Hh & Hc)]).
  - exists e. rewrite Hh, Hc. split; [exact He|].
    rewrite (Hview Hh). unfold graph_view. rewrite Hn, Hed. reflexivity.
  - exists {| fs_nodes := ns; fs_edges := map saveEdge (edges s) |}.
    rewrite Hh, Hc. split; [apply (nth_error_base _ _ _ _ He)|].
    unfold entry_view, graph_view. simpl. rewrite Hn, Hed.
    destruct (saveNodes_fixed _ _ Hns) as (_ & _ & ->).
    rewrite (proj2 (saveEdges_fixed _)). reflexivity.
Qed.

Lemma mount_unfold slot t :
  mount slot t = saveEffect (loadEffect (initial slot t)).
Proof.
  unfold mount, settle.
  destruct (loadEffect_fields (initial slot t)) as (_ & -> & _). reflexivity.
Qed.

(** X1.  Whatever the slot holds, the mount returns: the load effect
    catches what the slot makes it throw, and the save effect can read
    every node the load has made.  The editor then shows what was loaded,
    every node normalized; the history has one entry, or two when the
    snapshot of the loaded graph serializes differently from it; the
    cursor is on the last entry, which is the graph on the canvas; and
    the slot holds the document of that graph. *)
Theorem mount_returns (slot : option string) (t : nat) :
  exists s,
    mount slot t = Ok s
    /\ nodes s = nodes (loadEffect (initial slot t))
    /\ edges s = edges (loadEffect (initial slot t))
    /\ Forall editor_node (nodes s)
    /\ (List.length (history s) = 1 \/ List.length (history s) = 2)
    /\ currentStep s = List.length (history s) - 1
    /\ shows_cursor s
    /\ slot_in_sync s.
Proof.
  set (s0 := loadEffect (initial slot t)).
  destruct (loadEffect_fields (initial slot t)) as (Hdone & _ & Hc).
  fold s0 in Hdone, Hc.
  pose proof (loadEffect_editor_nodes (initial slot t)) as Hed. fold s0 in Hed.
  destruct (saveNodes_editor _ Hed) as (ns & Hns & _).
  destruct (saveEffect_total s0 Hdone (ex_intro _ ns Hns)) as (s & Hs).
  assert (He : nth_error (history s0) (currentStep s0)
               = Some {| fs_nodes := nodes s0; fs_edges := edges s0 |}).
  { rewrite Hc. unfold s0. rewrite loadEffect_history. reflexivity. }
  exists s. rewrite mount_unfold. fold s0. split; [exact Hs|].
  destruct (saveEffect_slot _ _ Hdone Hs) as (Hn & Hes & Hslot).
  split; [exact Hn|]. split; [exact Hes|].
  split; [rewrite Hn; exact Hed|].
  assert (Hshow : shows_cursor s).
  { apply (saveEffect_shows _ _ _ Hdone He Hs). reflexivity. }
  assert (Hh0 : history s0
                = [ {| fs_nodes := nodes s0; fs_edges := edges s0 |} ]).
  { unfold s0. rewrite loadEffect_history. reflexivity. }
  destruct (saveEffect_cases _ _ _ Hdone He Hs)
    as (ns' & _ & _ & _ & _ & _ & [(_ & Hh & Hcs) | (_ & Hh & Hcs)]);
    rewrite Hh, Hcs, Hc, Hh0; simpl; repeat split; auto.
Qed.

Lemma reachable_cursor s :
  reachable s ->
  (currentStep s < List.length (history s))%nat
  /\ isInitialLoadDone s = true.
Proof.
  intros Hr. destruct (reachable_settled _ Hr) as (_ & Hdone & e & He & _).
  split; [|exact Hdone]. apply nth_error_Some. rewrite He. discriminate.
Qed.

(** X2.  In every state reached from the mount the cursor is on an entry
    of the history, which is therefore not empty, and the save effect has
    run since the last change of the graph. *)
Theorem reachable_cursor_in_range (s : Flow) :
  reachable s ->
  (currentStep s < List.length (history s))%nat
  /\ history s <> []
  /\ stale s = false
  /\ isInitialLoadDone s = true.
Proof.
  intros Hr. destruct (reachable_settled _ Hr) as (Hstale & Hdone & _).
  destruct (reachable_cursor _ Hr) as (Hlt & _).
  repeat split; try assumption.
  intros Hnil. rewrite Hnil in Hlt. simpl in Hlt. lia.
Qed.

(** A recorded mutation cuts the history after the entry at the cursor
    and appends its snapshot. *)
Lemma record_step s m s1 :
  reachable s ->
  step (Mutate m) s = Ok s1 ->
  history s1 <> history s ->
  exists snap,
    history s1 = (firstn (currentStep s + 1) (history s) ++ [snap])%list
    /\ currentStep s1 = currentStep s + 1
    /\ nth_error (history s1) (currentStep s1) = Some snap
    /\ List.length (history s1) = currentStep s + 2
    /\ entry_view snap = graph_view s1.
Proof.
  intros Hr Hstep Hneq.
  destruct (reachable_settled _ Hr) as (Hstale & Hdone & e & He & Hst).
  destruct (step_inv _ _ _
              (conj Hstale (conj Hdone (ex_intro _ e (conj He Hst)))) Hstep)
    as [(_ & _ & Hh & _) | (s0 & e1 & Hdone0 & Hh0 & He1 & Hsave & Hev)];
    [contradiction|].
  destruct Hev as [(m' & Hm' & Hmut & Hc0) | [(Hx & _) | (Hx & _)]];
    try discriminate.
  rewrite Hc0 in He1. rewrite <- Hh0 in He1. rewrite <- Hc0 in He1.
  destruct (saveEffect_cases _ _ _ Hdone0 He1 Hsave)
    as (ns & Hns & Hn & Hed & _ & _ & [(_ & Hh & _) | (_ & Hh & Hc)]).
  - rewrite Hh, Hh0 in Hneq. contradiction.
  - rewrite Hh0, Hc0 in Hh. rewrite Hc0 in Hc.
    exists {| fs_nodes := ns; fs_edges := map saveEdge (edges s0) |}.
    destruct (nth_error_base _ _ e
                {| fs_nodes := ns; fs_edges := map saveEdge (edges s0) |} He)
      as (_ & Hlast & Hlen & _).
    split; [exact Hh|]. split; [exact Hc|].
    split; [rewrite Hh, Hc; exact Hlast|].
    split; [rewrite Hh; exact Hlen|].
    unfold entry_view, graph_view. simpl. rewrite Hn, Hed.
    destruct (saveNodes_fixed _ _ Hns) as (_ & _ & ->).
    rewrite (proj2 (saveEdges_fixed _)). reflexivity.
Qed.

(** X4.  A mutation that the save effect records cuts the history after
    the entry at the cursor and appends its snapshot: the cursor moves to
    that last entry, which is the graph on the canvas; what could be
    redone before is gone, the Redo button is disabled and redo does
    nothing. *)
Theorem recorded_mutation_ends_history (s : Flow) (m : mutation) (s1 : Flow) :
  reachable s ->
  step (Mutate m) s = Ok s1 ->
  history s1 <> history s ->
  exists snap,
    history s1 = (firstn (currentStep s + 1) (history s) ++ [snap])%list
    /\ currentStep s1 = currentStep s + 1
    /\ nth_error (history s1) (currentStep s1) = Some snap
    /\ entry_view snap = graph_view s1
    /\ redoDisabled s1 = true
    /\ undoDisabled s1 = false
    /\ step Redo s1 = Ok s1.
Proof.
  intros Hr Hstep Hneq.
  destruct (record_step _ _ _ Hr Hstep Hneq)
    as (snap & Hh & Hc & Hlast & Hlen & Hview).
  destruct (reachable_settled _ (reachable_step _ _ _ Hr Hstep))
    as (Hstale1 & _).
  exists snap. split; [exact Hh|]. split; [exact Hc|].
  split; [exact Hlast|]. split; [exact Hview|].
  assert (Hend : currentStep s1 = List.length (history s1) - 1)
    by (rewrite Hlen, Hc; lia).
  split; [unfold redoDisabled; apply Nat.leb_le; lia|].
  split; [unfold undoDisabled; apply Nat.leb_gt; lia|].
  unfold step. simpl. unfold redo. rewrite <- Hend, Nat.ltb_irrefl.
  unfold settle. rewrite Hstale1. reflexivity.
Qed.

Lemma undo_to_entry s c e :
  reachable s ->
  currentStep s = S c ->
  nth_error (history s) c = Some e ->
  (1 <= c)%nat \/ stable_entry e ->
  exists u,
    step Undo s = Ok u
    /\ history u = history s
    /\ currentStep u = c
    /\ graph_view u = entry_view e.
Proof.
  intros Hr Hc He Hst.
  destruct (reachable_cursor _ Hr) as (Hlt & Hdone).
  assert (Hstable : stable_entry e).
  { destruct Hst as [Hpos | H]; [|exact H].
    apply (reachable_later_stable _ Hr c e Hpos He). }
  assert (Hu : undo s = restore e c s).
  { unfold undo. rewrite Hc. simpl. rewrite Nat.sub_0_r, He. reflexivity. }
  destruct (restore_stable e c s Hdone He Hstable)
    as (u & Hsave & Hh & Hcu & Hview).
  exists u. unfold step. simpl. rewrite Hu. unfold settle. simpl. auto.
Qed.

(** X5.  Undo from a cursor that is not on the first entry steps back one
    entry and shows it, the history left as it is, so that redo can come
    back; this whenever the entry it steps to is a snapshot of the save
    effect, which every entry but the first is. *)
Theorem undo_steps_back (s : Flow) (c : nat) (e : FlowState) :
  reachable s ->
  currentStep s = S c ->
  nth_error (history s) c = Some e ->
  (1 <= c)%nat \/ stable_entry e ->
  exists u,
    step Undo s = Ok u
    /\ history u = history s
    /\ currentStep u = c
    /\ graph_view u = entry_view e
    /\ shows_cursor u
    /\ redoDisabled u = false.
Proof.
  intros Hr Hc He Hst.
  destruct (reachable_cursor _ Hr) as (Hlt & _).
  destruct (undo_to_entry _ _ _ Hr Hc He Hst) as (u & Hu & Hh & Hcu & Hview).
  exists u. split; [exact Hu|]. split; [exact Hh|]. split; [exact Hcu|].
  split; [exact Hview|].
  split; [exists e; rewrite Hh, Hcu; auto|].
  unfold redoDisabled. rewrite Hh, Hcu. apply Nat.leb_gt. lia.
Qed.

(** X6.  Redo from a cursor that has an entry after it steps forward one
    entry and shows it, the history left as it is. *)
Theorem redo_steps_forward (s : Flow) (e : FlowState) :
  reachable s ->
  nth_error (history s) (S (currentStep s)) = Some e ->
  exists r,
    step Redo s = Ok r
    /\ history r = history s
    /\ currentStep r = S (currentStep s)
    /\ graph_view r = entry_view e
    /\ shows_cursor r
    /\ undoDisabled r = false.
Proof.
  intros Hr He.
  destruct (reachable_cursor _ Hr) as (_ & Hdone).
  assert (Hlen : (S (currentStep s) < List.length (history s))%nat).
  { apply nth_error_Some. rewrite He. discriminate. }
  assert (Hstable : stable_entry e).
  { apply (reachable_later_stable _ Hr (S (currentStep s)) e); [lia|exact He]. }
  assert (Hu : redo s = restore e (S (currentStep s)) s).
  { unfold redo.
    replace (currentStep s <? List.length (history s) - 1)%nat with true
      by (symmetry; apply Nat.ltb_lt; lia).
    rewrite Nat.add_1_r, He. reflexivity. }
  destruct (restore_stable e _ s Hdone He Hstable)
    as (r & Hsave & Hh & Hcr & Hview).
  exists r. unfold step. simpl. rewrite Hu. unfold settle. simpl.
  split; [exact Hsave|]. split; [exact Hh|]. split; [exact Hcr|].
  split; [exact Hview|].
  split; [exists e; rewrite Hh, Hcr; auto|].
  unfold undoDisabled. rewrite Hcr. reflexivity.
Qed.


(** X8.  The Undo button is disabled exactly when undo would do nothing,
    and the Redo button exactly when redo would do nothing. *)
Theorem toolbar_buttons (s : Flow) :
  reachable s ->
  (undoDisabled s = true <-> undo s = s)
  /\ (redoDisabled s = true <-> redo s = s).
Proof.
  intros Hr. destruct (reachable_cursor _ Hr) as (Hlt & _).
  unfold undoDisabled, redoDisabled. split; split.
  - intros H. apply Nat.leb_le in H. unfold undo.
    replace (0 <? currentStep s)%nat with false
      by (symmetry; apply Nat.ltb_ge; lia). reflexivity.
  - intros H. apply Nat.leb_le.
    destruct (undo_cases s) as [_ | (e & Hpos & _ & Hu)].
    + destruct (currentStep s) as [|c] eqn:Hc; [lia|].
      assert (Hsome : nth_error (history s) c <> None)
        by (apply nth_error_Some; lia).
      destruct (nth_error (history s) c) as [e|] eqn:He; [|contradiction].
      assert (Hu : currentStep (undo s) = c).
      { unfold undo. rewrite Hc. simpl. rewrite Nat.sub_0_r, He. reflexivity. }
      rewrite H, Hc in Hu. lia.
    + rewrite Hu in H. apply (f_equal currentStep) in H. simpl in H. lia.
  - intros H. apply Nat.leb_le in H. unfold redo.
    replace (currentStep s <? List.length (history s) - 1)%nat with false
      by (symmetry; apply Nat.ltb_ge; lia). reflexivity.
  - intros H. apply Nat.leb_le.
    destruct (Nat.le_gt_cases (List.length (history s) - 1) (currentStep s))
      as [Hle | Hgt]; [exact Hle|].
    assert (Hsome : nth_error (history s) (currentStep s + 1) <> None)
      by (apply nth_error_Some; lia).
    destruct (nth_error (history s) (currentStep s + 1)) as [e|] eqn:He;
      [|contradiction].
    assert (Hu : currentStep (redo s) = currentStep s + 1).
    { unfold redo. apply Nat.ltb_lt in Hgt. rewrite Hgt, He. reflexivity. }
    rewrite H in Hu. lia.
Qed.

End Travel.

(** ** More on the node operations *)

Lemma lookup_assign_in k v o upd :
  NoDup (map fst upd) -> In (k, v) upd -> lookup k (assign o upd) = v.
Proof.
  revert o. induction upd as [|[k1 v1] upd IH]; intros o Hnd Hin;
    [contradiction|].
  rewrite assign_cons. inversion Hnd as [|? ? Hnotin Hnd']; subst.
  destruct Hin as [Heq | Hin].
  - injection Heq as -> ->. rewrite lookup_assign_absent.
    + rewrite lookup_set, String.eqb_refl. reflexivity.
    + apply not_true_is_false. intros Hex. apply existsb_exists in Hex.
      destruct Hex as ([k' v'] & Hin' & Hk). simpl in Hk.
      apply String.eqb_eq in Hk. subst k'.
      apply Hnotin. apply (in_map fst _ _ Hin').
  - apply IH; assumption.
Qed.

Lemma filter_idem {A} (f : A -> bool) l : filter f (filter f l) = filter f l.
Proof.
  induction l as [|x l IH]; [reflexivity|]. simpl.
  destruct (f x) eqn:Hx; simpl; rewrite ?Hx, IH; reflexivity.
Qed.

Lemma filter_comm {A} (f g : A -> bool) l :
  filter f (filter g l) = filter g (filter f l).
Proof.
  induction l as [|x l IH]; [reflexivity|]. simpl.
  destruct (g x) eqn:Hg, (f x) eqn:Hf; simpl; rewrite ?Hg, ?Hf, IH;
    reflexivity.
Qed.

Lemma filter_all {A} (f : A -> bool) l :
  (forall x, In x l -> f x = true) -> filter f l = l.
Proof.
  induction l as [|x l IH]; intros H; [reflexivity|]. simpl.
  rewrite (H x (or_introl eq_refl)), IH; [reflexivity|].
  intros y Hy. apply H. right. exact Hy.
Qed.

Lemma has_node_false ns v n :
  has_node ns v = false -> In n ns -> strict_eq (lookup "id" n) v = false.
Proof.
  intros H Hin. apply not_true_is_false. intros Heq.
  assert (Hex : has_node ns v = true).
  { apply existsb_exists. exists n. auto. }
  congruence.
Qed.

Section NodeOps.

Context {P : Platform}.

(** X9.  [handleUpdateNodeData] merges the new data into the data of the
    node it names and touches nothing else: the fields named take the new
    values, the other fields, every other property of the node, every other
    node and the edges stay; node ids stay, so no edge is left dangling;
    and with no node of that id the nodes are as before. *)
Theorem handleUpdateNodeData_merges (nodeId : string) (newData : obj)
    (s : Flow) :
  nodeId <> "" ->
  let s' := handleUpdateNodeData nodeId newData s in
  edges s' = edges s
  /\ Forall2
       (fun n n' =>
          if is_str (lookup "id" n) nodeId then
            (forall k, k <> "data" -> lookup k n' = lookup k n)
            /\ (NoDup (map fst newData) ->
                forall k v, In (k, v) newData -> field n' k = v)
            /\ (forall k,
                  existsb (fun kv => String.eqb (fst kv) k) newData = false ->
                  In k [ "label"; "nodeCategory"; "color"; "content";
                         "customHandles" ]
                  \/ (exists o, lookup "data" n = VObj o) ->
                  field n' k = field n k)
          else n' = n) (nodes s) (nodes s')
  /\ (no_dangling s -> no_dangling s')
  /\ (has_node (nodes s) (VStr nodeId) = false -> nodes s' = nodes s).
Proof.
  intros Hid s'. subst s'. unfold handleUpdateNodeData.
  rewrite (truthy_nonempty _ Hid). simpl.
  set (f := fun n : obj =>
              if is_str (lookup "id" n) nodeId
              then assign n [("data",
                              VObj (assign (spread (lookup "data" n)) newData))]
              else n).
  assert (Hidf : forall n, lookup "id" (f n) = lookup "id" n).
  { intros n. unfold f. destruct (is_str _ _); [|reflexivity].
    lookups. reflexivity. }
  split; [reflexivity|]. split; [|split].
  - induction (nodes s) as [|n ns IH]; simpl; constructor; [|exact IH].
    unfold f. destruct (is_str (lookup "id" n) nodeId); [|reflexivity].
    split; [|split].
    + intros k Hk. rewrite assign_cons, assign_nil, lookup_set.
      destruct (String.eqb_spec "data" k); [congruence|reflexivity].
    + intros Hnd k v Hin. unfold field. lookups. unfold optget. simpl.
      apply lookup_assign_in; assumption.
    + intros k Hk Hor. unfold field. lookups. unfold optget at 1. simpl.
      rewrite (lookup_assign_absent _ _ _ Hk).
      destruct Hor as [Hfive | (o & Ho)].
      * apply optget_spread, Hfive.
      * rewrite Ho. reflexivity.
  - intros Hnd e He. simpl in He.
    assert (Hhas : forall v,
              has_node (map f (nodes s)) v = has_node (nodes s) v).
    { intros v. unfold has_node. induction (nodes s) as [|n ns IH];
        [reflexivity|]. simpl. rewrite Hidf, IH. reflexivity. }
    simpl. rewrite !Hhas. apply Hnd, He.
  - intros Hno. simpl. rewrite <- (map_id (nodes s)) at 2.
    apply map_ext_in. intros n Hin. unfold f.
    pose proof (has_node_false _ _ _ Hno Hin) as Hn.
    rewrite strict_eq_str in Hn. rewrite Hn. reflexivity.
Qed.

(** X10.  Deleting a node is idempotent, and two deletions commute: the
    whole state is the same, the selection included. *)
Theorem handleDeleteNode_idempotent (a b : string) (s : Flow) :
  handleDeleteNode a (handleDeleteNode a s) = handleDeleteNode a s
  /\ handleDeleteNode a (handleDeleteNode b s)
     = handleDeleteNode b (handleDeleteNode a s).
Proof.
  unfold handleDeleteNode.
  destruct (truthy (VStr a)) eqn:Ha, (truthy (VStr b)) eqn:Hb; simpl;
    rewrite ?Ha, ?Hb; simpl; split; try reflexivity; f_equal;
    try apply filter_idem; try apply filter_comm;
    destruct (selectedNode s) as [n|]; simpl; try reflexivity;
    destruct (is_str (lookup "id" n) a) eqn:Hna; simpl; rewrite ?Hna;
    try reflexivity;
    destruct (is_str (lookup "id" n) b) eqn:Hnb; simpl; rewrite ?Hna, ?Hnb;
    reflexivity.
Qed.

(** X11.  Deleting the node that [createNewNode] has just added gives back
    the nodes and the edges there were, when the new id is not that of a
    node already there and no edge dangles. *)
Theorem create_then_delete (c : NodeCategoryType) (position : value)
    (s : Flow) :
  Forall (fun n => has_data n = true) (nodes s) ->
  nanoid (draws s) <> "" ->
  has_node (nodes s) (VStr (nanoid (draws s))) = false ->
  no_dangling s ->
  let s' := handleDeleteNode (nanoid (draws s)) (createNewNode c position s) in
  nodes s' = nodes s /\ edges s' = edges s.
Proof.
  intros Hdata Hid Hfresh Hnd s'. subst s'. unfold handleDeleteNode.
  rewrite (truthy_nonempty _ Hid). simpl.
  destruct (createNewNode_adds c position s Hdata)
    as (n & h & hs & t & Hn & _ & _ & Hnid & _).
  rewrite Hn, createNewNode_edges. split.
  - rewrite filter_app. simpl. rewrite Hnid. simpl.
    rewrite String.eqb_refl. simpl. rewrite app_nil_r.
    apply filter_all. intros x Hx.
    pose proof (has_node_false _ _ _ Hfresh Hx) as Hx'.
    rewrite strict_eq_str in Hx'. rewrite Hx'. reflexivity.
  - apply filter_all. intros e He. destruct (Hnd e He) as (Hsrc & Htgt).
    destruct (is_str (lookup "source" e) (nanoid (draws s))) eqn:H1.
    { apply is_str_eq in H1. rewrite H1 in Hsrc. congruence. }
    destruct (is_str (lookup "target" e) (nanoid (draws s))) eqn:H2.
    { apply is_str_eq in H2. rewrite H2 in Htgt. congruence. }
    reflexivity.
Qed.

End NodeOps.

Lemma COLORS_truthy color : In color COLORS -> truthy (VStr color) = true.
Proof.
  intros H. repeat (destruct H as [<- | H]; [reflexivity|]). contradiction.
Qed.

Lemma label_for_nat c m :
  (Z.of_nat m <= 2 ^ 53)%Z ->
  label_for c (Int (Z.of_nat m)) = capitalize (tag c) ++ " " ++ string_of_nat m.
Proof.
  intros Hle. unfold label_for.
  change (to_string (VNum (Int (Z.of_nat m))))
    with (Number_toString (Int (Z.of_nat m))).
  rewrite Number_toString_exact by (rewrite Z.abs_eq by lia; exact Hle).
  rewrite string_of_Z_of_nat. reflexivity.
Qed.

Lemma is_str_tag c c' : is_str (VStr (tag c)) (tag c') = true -> c = c'.
Proof. destruct c, c'; simpl; intros H; congruence. Qed.

Section Create.

Context {P : Platform}.

(** The node [createNewNode] makes, property by property. *)
Lemma createNewNode_made (c : NodeCategoryType) (position : value) (s : Flow) :
  Forall (fun n => has_data n = true) (nodes s) ->
  (forall k, (random_below k (List.length COLORS) < List.length COLORS)%nat) ->
  exists h hs t color,
    getDefaultHandlesForShape (VStr (tag c)) (VStr (nanoid (draws s)))
      (S (draws s))
    = (Ok (VArr (h :: hs)), t)
    /\ (draws s < t)%nat
    /\ In color COLORS
    /\ createNewNode c position s
       = set_nodes
           (nodes s
            ++ [ [ ("id", VStr (nanoid (draws s)));
                   ("type", VStr (tag c));
                   ("position", position);
                   ("data",
                    VObj [ ("label",
                            VStr (label_for c
                                    (Int (Z.of_nat
                                            (count_of c (nodes s) + 1)))));
                           ("nodeCategory", VStr (tag c));
                           ("color", VStr color);
                           ("content", VStr "");
                           ("customHandles", VArr (h :: hs)) ]) ] ])%list
           (S t) s.
Proof.
  intros Hdata Hrand. unfold createNewNode.
  rewrite (count_where_has_category c _ Hdata).
  destruct (default_handles_nonempty c (VStr (nanoid (draws s))) (S (draws s)))
    as (h & hs & t' & Hh).
  assert (Ht' : (draws s < t')%nat).
  { revert Hh. unfold getDefaultHandlesForShape, bind, ret, fresh_id.
    destruct (truthy (VStr (nanoid (draws s)))); destruct c; simpl;
      intros H; injection H as _ _ <-; lia. }
  rewrite Hh. unfold COLORS_at.
  destruct (nth_error COLORS (random_below t' (List.length COLORS)))
    as [color|] eqn:Hcolor;
    [|apply nth_error_None in Hcolor; specialize (Hrand t'); lia].
  exists h, hs, t', color.
  split; [reflexivity|]. split; [exact Ht'|].
  split; [apply (nth_error_In _ _ Hcolor)|reflexivity].
Qed.

(** X12.  [createNewNode] adds exactly one node, last, and touches neither
    the other nodes nor the edges nor the history: the node has the id
    [nanoid] returned, the position asked for, the shape asked for as its
    render type and category, the default connection points of that shape,
    an empty content, a color of the palette, and the label of the shape
    numbered one more than the count of the nodes of that shape; it is a
    node as the load makes them.  The count of that shape grows by one,
    the count of the other shape stays. *)
Theorem createNewNode_adds_editor_node (c : NodeCategoryType)
    (position : value) (s : Flow) :
  Forall (fun n => has_data n = true) (nodes s) ->
  (forall k, (random_below k (List.length COLORS) < List.length COLORS)%nat) ->
  let s' := createNewNode c position s in
  exists n,
    nodes s' = (nodes s ++ [n])%list
    /\ edges s' = edges s
    /\ history s' = history s
    /\ selectedNode s' = selectedNode s
    /\ (draws s < draws s')%nat
    /\ lookup "id" n = VStr (nanoid (draws s))
    /\ lookup "position" n = position
    /\ editor_node n
    /\ lookup "type" n = VStr (tag c)
    /\ field n "content" = VStr ""
    /\ (exists color, In color COLORS /\ field n "color" = VStr color)
    /\ field n "label"
       = VStr (label_for c (Int (Z.of_nat (count_of c (nodes s) + 1))))
    /\ (nanoid (draws s) <> "" ->
        customHandles_of n = defaultHandles c (nanoid (draws s)) 0)
    /\ count_of c (nodes s') = count_of c (nodes s) + 1
    /\ (forall c', c' <> c -> count_of c' (nodes s') = count_of c' (nodes s)).
Proof.
  intros Hdata Hrand s'. subst s'.
  destruct (createNewNode_made c position s Hdata Hrand)
    as (h & hs & t & color & Hh & Ht & Hin & ->).
  eexists. split; [reflexivity|]. simpl.
  split; [reflexivity|]. split; [reflexivity|]. split; [reflexivity|].
  split; [lia|]. split; [reflexivity|]. split; [reflexivity|].
  unfold field. simpl. unfold optget. simpl.
  split.
  { split; [exists c; unfold field, optget; simpl; auto|].
    unfold field, optget. simpl.
    split; [apply COLORS_truthy, Hin|]. auto. }
  split; [reflexivity|]. split; [reflexivity|].
  split; [exists color; auto|]. split; [reflexivity|].
  split.
  { intros Hid. unfold customHandles_of, field, optget. simpl.
    unfold defaultHandles.
    rewrite (getDefaultHandlesForShape_any_draw _ _ _ _ _ Hid Hh 0).
    reflexivity. }
  unfold count_of. split.
  - rewrite filter_app, length_app. simpl. unfold field, optget. simpl.
    rewrite String.eqb_refl. simpl. lia.
  - intros c' Hc'. rewrite filter_app, length_app. simpl.
    unfold field, optget. simpl.
    destruct (String.eqb (tag c) (tag c')) eqn:Heq; simpl; [|lia].
    exfalso. apply Hc'. symmetry. apply is_str_tag. exact Heq.
Qed.

End Create.

(** ** Reshaping there and back *)

Lemma Forall2_chain {A} (Q : A -> Prop) (R1 R2 R : A -> A -> Prop) l l1 l2 :
  (forall a b c, Q a -> R1 a b -> R2 b c -> R a c) ->
  Forall Q l -> Forall2 R1 l l1 -> Forall2 R2 l1 l2 -> Forall2 R l l2.
Proof.
  intros H HQ H1. revert l2. induction H1 as [|a b l l1 Hab H1 IH];
    intros l2 H2; inversion H2; subst; constructor.
  - inversion HQ; subst. eauto.
  - inversion HQ; subst. apply IH; assumption.
Qed.

Section ThereAndBack.

Context {P : Platform}.

Lemma handleChangeNodeType_unfold nodeId c s ns t :
  nodeId <> "" ->
  mapM (changeNode (nodes s) nodeId c) (nodes s) (draws s) = (Ok ns, t) ->
  handleChangeNodeType nodeId c s = Ok (set_nodes ns t s).
Proof.
  intros Hid Hmap. unfold handleChangeNodeType.
  rewrite (truthy_nonempty _ Hid), Hmap. destruct c; reflexivity.
Qed.

(** X13.  A node made for a shape (the render type and the category of the
    shape, its default connection points, a label of the shape and a
    number up to 2^53, which a double holds exactly) that is reshaped into
    another shape and back is as it was: the same label, connection points
    and every other property; the other nodes and the edges are not
    touched. *)
Theorem reshape_round_trip (nodeId : string) (c0 c1 : NodeCategoryType)
    (s : Flow) :
  nodeId <> "" ->
  Forall (fun n => has_data n = true) (nodes s) ->
  Forall (fun n =>
            is_str (lookup "id" n) nodeId = true ->
            lookup "type" n = VStr (tag c0)
            /\ field n "nodeCategory" = VStr (tag c0)
            /\ (exists m,
                  (Z.of_nat m <= 2 ^ 53)%Z
                  /\ field n "label"
                     = VStr (label_for c0 (Int (Z.of_nat m))))
            /\ field n "customHandles" = VArr (defaultHandles c0 nodeId 0))
         (nodes s) ->
  exists s1 s2,
    handleChangeNodeType nodeId c1 s = Ok s1
    /\ handleChangeNodeType nodeId c0 s1 = Ok s2
    /\ edges s2 = edges s
    /\ Forall2 (fun n n2 =>
                  (forall k, k <> "data" -> lookup k n2 = lookup k n)
                  /\ (forall k, field n2 k = field n k))
         (nodes s) (nodes s2)
    /\ map node_view (nodes s2) = map node_view (nodes s).
Proof.
  intros Hid Hdata Hmade.
  assert (Hlabel : Forall (fun n => is_str (lookup "id" n) nodeId = true ->
                                    exists text, field n "label" = VStr text)
                     (nodes s)).
  { eapply Forall_impl; [|exact Hmade]. intros n H Hn.
    destruct (H Hn) as (_ & _ & (m & _ & Hm) & _). eauto. }
  destruct (mapM_changeNode (nodes s) nodeId c1 (draws s) (nodes s)
              Hid Hdata Hlabel) as (ns1 & Hmap1 & HF1).
  pose proof (handleChangeNodeType_unfold _ _ _ _ _ Hid Hmap1) as Hs1.
  set (s1 := set_nodes ns1 (draws s) s) in *.
  assert (Hdata1 : Forall (fun n => has_data n = true) ns1
                   /\ Forall (fun n => is_str (lookup "id" n) nodeId = true ->
                                       exists text, field n "label" = VStr text)
                        ns1).
  { clear Hmap1 Hs1 s1. revert Hdata Hmade.
    induction HF1 as [|n n1 l l1 Hr HF IH]; intros Hd Hm; [split; constructor|].
    inversion Hd as [|? ? Hdn Hd']; subst.
    inversion Hm as [|? ? Hmn Hm']; subst.
    destruct (IH Hd' Hm') as (IH1 & IH2).
    unfold reshaped in Hr.
    destruct (is_str (lookup "id" n) nodeId) eqn:Hn.
    - destruct Hr as (_ & Hnc & _ & Hlab & Hk & _).
      destruct (Hmn eq_refl) as (_ & _ & (m & Hle & Hm0) & _).
      destruct (Hlab _ Hm0) as (_ & Hnum).
      split; constructor; try assumption.
      + destruct (field_string_object _ _ _ Hnc) as (o & Ho & _).
        unfold has_data. rewrite Ho. reflexivity.
      + intros _. eexists. apply (Hnum m); [|exact Hle]. right.
        exists (capitalize (tag c0)). apply label_for_nat, Hle.
    - subst n1. split; constructor; try assumption.
      intros Hn1. congruence. }
  destruct Hdata1 as (Hdata1 & Hlabel1).
  destruct (mapM_changeNode ns1 nodeId c0 (draws s1) ns1 Hid Hdata1 Hlabel1)
    as (ns2 & Hmap2 & HF2).
  pose proof (handleChangeNodeType_unfold nodeId c0 s1 ns2 (draws s1) Hid Hmap2)
    as Hs2.
  exists s1, (set_nodes ns2 (draws s1) s1).
  split; [exact Hs1|]. split; [exact Hs2|]. split; [reflexivity|].
  assert (HF : Forall2 (fun n n2 =>
                  (forall k, k <> "data" -> lookup k n2 = lookup k n)
                  /\ (forall k, field n2 k = field n k)) (nodes s) ns2).
  { refine (Forall2_chain _ _ _ _ _ _ _ _ Hmade HF1 HF2).
    intros n n1 n2 Hm H1 H2. unfold reshaped in H1, H2.
    destruct (is_str (lookup "id" n) nodeId) eqn:Hn.
    - destruct (Hm eq_refl) as (Hty & Hnc & (m & Hle & Hm0) & Hch).
      destruct H1 as (_ & _ & _ & Hlab1 & Hk1 & Hf1).
      assert (Hn1 : is_str (lookup "id" n1) nodeId = true).
      { rewrite Hk1; [exact Hn|discriminate|discriminate]. }
      rewrite Hn1 in H2.
      destruct H2 as (Hty2 & Hnc2 & Hh2 & Hlab2 & Hk2 & Hf2).
      destruct (Hlab1 _ Hm0) as (_ & Hnum1).
      assert (Hl1 : field n1 "label"
                    = VStr (capitalize (tag c1) ++ " " ++ string_of_nat m)).
      { apply Hnum1; [|exact Hle]. right. exists (capitalize (tag c0)).
        apply label_for_nat, Hle. }
      destruct (Hlab2 _ Hl1) as (_ & Hnum2).
      assert (Hl2 : field n2 "label" = field n "label").
      { rewrite Hm0, (label_for_nat _ _ Hle). apply Hnum2; [|exact Hle].
        right. exists (capitalize (tag c1)). reflexivity. }
      assert (Hc2 : field n2 "customHandles" = field n "customHandles").
      { rewrite Hch. unfold defaultHandles. rewrite (Hh2 0). simpl.
        destruct (getDefaultHandlesForShape_base (VStr (tag c0)) nodeId 0 Hid)
          as (hs & Hhs).
        rewrite (Hh2 0) in Hhs. injection Hhs as ->. reflexivity. }
      split.
      + intros k Hk. destruct (String.eqb_spec k "type") as [-> | Hkt].
        * congruence.
        * rewrite Hk2, Hk1; auto.
      + intros k. destruct (String.eqb_spec k "label") as [-> | Hkl];
          [exact Hl2|].
        destruct (String.eqb_spec k "nodeCategory") as [-> | Hkn];
          [congruence|].
        destruct (String.eqb_spec k "customHandles") as [-> | Hkc];
          [exact Hc2|].
        rewrite Hf2, Hf1; auto.
    - subst n1. rewrite Hn in H2. subst n2. auto. }
  split; [exact HF|]. simpl.
  clear - HF. induction HF as [|n n2 l l2 (Hk & Hf) HF IH]; [reflexivity|].
  simpl. rewrite IH. unfold node_view.
  rewrite !Hk by discriminate. rewrite !Hf. reflexivity.
Qed.

End ThereAndBack.

(** ** The ids of the connection points *)

Lemma append_inj_l b s1 s2 : b ++ s1 = b ++ s2 -> s1 = s2.
Proof.
  induction b as [|c b IH]; simpl; intros H; [exact H|].
  injection H as H. apply IH, H.
Qed.

Lemma list_ascii_of_string_app a b :
  list_ascii_of_string (a ++ b)
  = (list_ascii_of_string a ++ list_ascii_of_string b)%list.
Proof.
  induction a as [|c a IH]; simpl; [reflexivity|]. rewrite IH. reflexivity.
Qed.

Lemma rev_chars_inj a b :
  rev (list_ascii_of_string a) = rev (list_ascii_of_string b) -> a = b.
Proof.
  intros H. apply (f_equal (@rev ascii)) in H. rewrite !rev_involutive in H.
  apply (f_equal string_of_list_ascii) in H.
  rewrite !string_of_list_ascii_of_string in H. exact H.
Qed.

(** An id made of a base and one of the four suffixes tells the base and
    the suffix. *)
Lemma suffix_inj b b' s1 s2 :
  In s1 (suffixes circle) -> In s2 (suffixes circle) ->
  b ++ s1 = b' ++ s2 -> b = b' /\ s1 = s2.
Proof.
  intros H1 H2 H.
  apply (f_equal (fun x => rev (list_ascii_of_string x))) in H.
  rewrite !list_ascii_of_string_app, !rev_app_distr in H.
  simpl in H1, H2.
  repeat (destruct H1 as [<- | H1]; [|]); try contradiction;
    repeat (destruct H2 as [<- | H2]; [|]); try contradiction;
    simpl in H; try discriminate H;
    (split; [|reflexivity]); apply rev_chars_inj; congruence.
Qed.

Lemma suffixes_circle c suffix :
  In suffix (suffixes c) -> In suffix (suffixes circle).
Proof. destruct c; simpl; tauto. Qed.

Section HandleIds.

Context {P : Platform}.

(** The ids of the default connection points: the node id, or a drawn id
    when the node id is empty, and the suffixes of the shape. *)
Lemma defaultHandles_ids c nodeId t :
  handle_ids (defaultHandles c nodeId t)
  = map (fun suffix =>
           VStr ((if String.eqb nodeId "" then nanoid t else nodeId) ++ suffix))
      (suffixes c).
Proof.
  unfold defaultHandles, getDefaultHandlesForShape, bind, ret, fresh_id.
  simpl. destruct (String.eqb nodeId ""); destruct c; reflexivity.
Qed.

(** X14.  The default connection points of a node have ids that differ
    from one another, and an id tells the node: the default connection
    points of two nodes with different ids share no id, whatever their
    shapes. *)
Theorem default_handle_ids_unique (c : NodeCategoryType) (nodeId : string)
    (t : nat) :
  NoDup (handle_ids (defaultHandles c nodeId t))
  /\ (forall c' nodeId' t' h,
        nodeId <> "" -> nodeId' <> "" ->
        In h (handle_ids (defaultHandles c nodeId t)) ->
        In h (handle_ids (defaultHandles c' nodeId' t')) ->
        nodeId' = nodeId).
Proof.
  split.
  - rewrite defaultHandles_ids.
    set (b := if String.eqb nodeId "" then nanoid t else nodeId).
    assert (Hne : forall s1 s2, s1 <> s2 -> VStr (b ++ s1) <> VStr (b ++ s2)).
    { intros s1 s2 Hs H. injection H as H. apply Hs, (append_inj_l _ _ _ H). }
    destruct c; simpl; repeat constructor; simpl;
      intros H;
      repeat (destruct H as [H | H]; [revert H; apply Hne; discriminate|]);
      exact H.
  - intros c' nodeId' t' h Hid Hid' H1 H2.
    rewrite defaultHandles_ids in H1, H2.
    apply String.eqb_neq in Hid, Hid'. rewrite Hid in H1. rewrite Hid' in H2.
    apply in_map_iff in H1. destruct H1 as (s1 & <- & Hs1).
    apply in_map_iff in H2. destruct H2 as (s2 & Heq & Hs2).
    injection Heq as Heq.
    apply (suffix_inj _ _ _ _ (suffixes_circle _ _ Hs2)
             (suffixes_circle _ _ Hs1) Heq).
Qed.

End HandleIds.

(** ** The load as a normalization *)

Lemma lookup_defined k o :
  lookup k o <> VUndefined ->
  existsb (fun kv => String.eqb (fst kv) k) o = true.
Proof.
  induction o as [|[k' v] o IH]; simpl; [congruence|].
  destruct (String.eqb k' k); simpl; auto.
Qed.

Lemma truthy_defined v : truthy v = true -> v <> VUndefined.
Proof. intros H ->. discriminate. Qed.

Lemma or_else_truthy a b : truthy a = true -> or_else a b = a.
Proof. unfold or_else. intros ->. reflexivity. Qed.

Lemma set_lookup k v o : lookup k o = v -> v <> VUndefined -> set k v o = o.
Proof.
  intros <- H. apply set_same, lookup_defined, H.
Qed.

Section Normalize.

Context {P : Platform}.

(** X15.  The load is a normalization: a node as the editor makes them is
    loaded as it is, with no draw; so what the load has made of a stored
    node, loaded again, is the same node. *)
Theorem loadNode_idempotent (t : nat) :
  (forall n, editor_node n -> loadNode (VObj n) t = (Ok n, t))
  /\ (forall node t0 n t',
        loadNode node t0 = (Ok n, t') -> loadNode (VObj n) t = (Ok n, t)).
Proof.
  assert (H : forall n, editor_node n -> loadNode (VObj n) t = (Ok n, t)).
  { intros n ((c & Hty & Hnc) & Hcol & Hcont & Hch).
    destruct (field_string_object _ _ _ Hnc) as (d & Hd & Hncd).
    unfold field in Hcol, Hcont, Hch. rewrite Hd in Hcol, Hcont, Hch.
    unfold optget in Hcol, Hcont, Hch. simpl in Hcol, Hcont, Hch.
    unfold loadNode, bind, lift, ret. simpl. rewrite Hd.
    unfold optget. simpl. rewrite Hncd.
    rewrite Hch. rewrite (or_else_truthy _ _ Hcol).
    assert (Hinc : is_str (VStr (tag c)) "rectangle"
                   || (is_str (VStr (tag c)) "circle" || false) = true)
      by (destruct c; reflexivity).
    rewrite Hinc.
    assert (Hc : or_else (lookup "content" d) (VStr "") = lookup "content" d).
    { destruct Hcont as [Ht | ->]; [apply or_else_truthy, Ht|reflexivity]. }
    rewrite Hc, !assign_cons, !assign_nil.
    assert (Hchd : lookup "customHandles" d <> VUndefined).
    { intros Hu. rewrite Hu in Hch. discriminate. }
    assert (Hcontd : lookup "content" d <> VUndefined).
    { destruct Hcont as [Ht | Hu]; [apply truthy_defined, Ht|].
      rewrite Hu. discriminate. }
    rewrite (set_lookup "nodeCategory" _ d Hncd) by discriminate.
    rewrite (set_lookup "customHandles" _ d eq_refl Hchd).
    rewrite (set_lookup "color" _ d eq_refl (truthy_defined _ Hcol)).
    rewrite (set_lookup "content" _ d eq_refl Hcontd).
    rewrite (set_lookup "type" _ n Hty) by discriminate.
    rewrite (set_lookup "data" _ n Hd) by discriminate.
    reflexivity. }
  split; [exact H|].
  intros node t0 n t' Hload. apply H, (loadNode_editor_node _ _ _ _ Hload).
Qed.

Lemma loadEdge_inv edge e :
  loadEdge edge = Ok e ->
  e = assign (spread edge)
        [ ("type", or_else (optget edge "type") (VStr "bezier"));
          ("animated",
           match optget edge "animated" with
           | VUndefined => VBool true
           | _ => optget edge "animated"
           end);
          ("style",
           VObj (if truthy (optget edge "style")
                 then assign (spread (optget edge "style"))
                        [ ("stroke",
                           or_else (optget (optget edge "style") "stroke")
                             (VStr "#2563eb"));
                          ("strokeWidth",
                           or_else (optget (optget edge "style") "strokeWidth")
                             (VNum (Int 2))) ]
                 else [ ("stroke", VStr "#2563eb");
                        ("strokeWidth", VNum (Int 2)) ])) ].
Proof.
  unfold loadEdge.
  destruct (get edge "type") as [ty|] eqn:Hty; [|discriminate]. simpl.
  rewrite !(get_not_null _ _ _ Hty). simpl.
  rewrite (get_optget _ _ _ Hty).
  destruct (truthy (optget edge "style")) eqn:Hs.
  - rewrite !(get_truthy _ _ Hs). simpl. intros H. injection H as <-.
    reflexivity.
  - simpl. intros H. injection H as <-. reflexivity.
Qed.

Lemma loadEdge_throws edge :
  loadEdge edge = Throw <-> edge = VNull \/ edge = VUndefined.
Proof.
  split.
  - unfold loadEdge.
    destruct (get edge "type") as [ty|] eqn:Hty.
    + simpl. rewrite !(get_not_null _ _ _ Hty). simpl.
      destruct (truthy (optget edge "style")) eqn:Hs.
      * rewrite !(get_truthy _ _ Hs). simpl. discriminate.
      * simpl. discriminate.
    + destruct edge; try discriminate; auto.
  - intros [-> | ->]; reflexivity.
Qed.

Lemma editor_edge_fixed e : editor_edge e -> loadEdge (VObj e) = Ok e.
Proof.
  intros (Hty & Han & st & Hst & Hstroke & Hwidth).
  unfold loadEdge. simpl. rewrite Hst. simpl.
  rewrite (or_else_truthy _ _ Hty), (or_else_truthy _ _ Hstroke),
    (or_else_truthy _ _ Hwidth).
  rewrite !assign_cons, !assign_nil.
  rewrite (set_lookup "stroke" _ st eq_refl (truthy_defined _ Hstroke)).
  rewrite (set_lookup "strokeWidth" _ st eq_refl (truthy_defined _ Hwidth)).
  rewrite (set_lookup "type" _ e eq_refl (truthy_defined _ Hty)).
  assert (Ha : match lookup "animated" e with
               | VUndefined => VBool true
               | _ => lookup "animated" e
               end = lookup "animated" e).
  { destruct (lookup "animated" e); try reflexivity. contradiction. }
  rewrite Ha, (set_lookup "animated" _ e eq_refl Han).
  rewrite (set_lookup "style" _ e Hst) by discriminate.
  reflexivity.
Qed.

Lemma loadEdge_editor_edge edge e : loadEdge edge = Ok e -> editor_edge e.
Proof.
  intros H. rewrite (loadEdge_inv _ _ H). unfold editor_edge. lookups.
  split.
  { unfold or_else. destruct (truthy (optget edge "type")) eqn:Ht;
      [exact Ht|reflexivity]. }
  split; [destruct (optget edge "animated"); discriminate|].
  eexists. split; [reflexivity|].
  destruct (truthy (optget edge "style")); lookups.
  - split; unfold or_else.
    + destruct (truthy (optget (optget edge "style") "stroke")) eqn:Ht;
        [exact Ht|reflexivity].
    + destruct (truthy (optget (optget edge "style") "strokeWidth")) eqn:Ht;
        [exact Ht|reflexivity].
  - split; reflexivity.
Qed.

Lemma newEdge_editor_edge params id : editor_edge (newEdge params id).
Proof.
  unfold editor_edge, newEdge. lookups.
  split; [reflexivity|]. split; [discriminate|].
  eexists. split; [reflexivity|]. split; reflexivity.
Qed.

(** X16.  What the load makes of a stored edge.  Its type is the stored
    one, ['bezier'] when that is falsy; its [animated] flag the stored
    one, [true] when that is [undefined]; its style an object whose stroke
    is the stored one, ['#2563eb'] when that is falsy, whose stroke width
    is the stored one, [2] when that is falsy, and whose other properties
    are those of the stored style; every other property of the edge is
    kept.  The edge made is of the form [onConnect] gives a new edge, and
    is loaded as it is.  The load throws on a stored [null] only. *)
Theorem loadEdge_normalizes :
  (forall edge e,
     loadEdge edge = Ok e ->
     lookup "type" e = or_else (optget edge "type") (VStr "bezier")
     /\ lookup "animated" e
        = match optget edge "animated" with
          | VUndefined => VBool true
          | _ => optget edge "animated"
          end
     /\ (exists style,
           lookup "style" e = VObj style
           /\ lookup "stroke" style
              = or_else (optget (optget edge "style") "stroke")
                  (VStr "#2563eb")
           /\ lookup "strokeWidth" style
              = or_else (optget (optget edge "style") "strokeWidth")
                  (VNum (Int 2))
           /\ (forall k, k <> "stroke" -> k <> "strokeWidth" ->
                         lookup k style
                         = if truthy (optget edge "style")
                           then lookup k (spread (optget edge "style"))
                           else VUndefined))
     /\ (forall k, k <> "type" -> k <> "animated" -> k <> "style" ->
                   lookup k e = lookup k (spread edge))
     /\ editor_edge e
     /\ loadEdge (VObj e) = Ok e)
  /\ (forall o, exists e, loadEdge (VObj o) = Ok e)
  /\ (forall edge, loadEdge edge = Throw <-> edge = VNull \/ edge = VUndefined)
  /\ (forall e, editor_edge e -> loadEdge (VObj e) = Ok e)
  /\ (forall params id, editor_edge (newEdge params id)).
Proof.
  split; [|split; [|split; [|split]]].
  - intros edge e H. pose proof (loadEdge_editor_edge _ _ H) as He.
    pose proof (loadEdge_inv _ _ H) as Hinv.
    split; [rewrite Hinv; lookups; reflexivity|].
    split; [rewrite Hinv; lookups; reflexivity|].
    split.
    { eexists. split; [rewrite Hinv; lookups; reflexivity|].
      destruct (truthy (optget edge "style")) eqn:Hs.
      - split; [lookups; reflexivity|]. split; [lookups; reflexivity|].
        intros k H1 H2. rewrite ?assign_cons, ?assign_nil, !lookup_set.
        destruct (String.eqb_spec "strokeWidth" k); [congruence|].
        destruct (String.eqb_spec "stroke" k); [congruence|]. reflexivity.
      - assert (Hno : forall k, or_else (optget (optget edge "style") k)
                                  = fun d => d).
        { intros k. unfold or_else.
          destruct (optget edge "style") as [| |b|[z|b|]|str|xs|o];
            try discriminate Hs; try reflexivity.
          + unfold optget. simpl.
            destruct (String.eqb k "length"); [|reflexivity].
            simpl in Hs. apply negb_false_iff, String.eqb_eq in Hs.
            subst str. reflexivity. }
        rewrite !Hno. split; [reflexivity|]. split; [reflexivity|].
        intros k H1 H2. cbn [lookup].
        destruct (String.eqb_spec "stroke" k); [congruence|].
        destruct (String.eqb_spec "strokeWidth" k); [congruence|].
        reflexivity. }
    split; [|split; [exact He|apply editor_edge_fixed, He]].
    intros k H1 H2 H3. rewrite Hinv, !assign_cons, !assign_nil, !lookup_set.
    destruct (String.eqb_spec "style" k); [congruence|].
    destruct (String.eqb_spec "animated" k); [congruence|].
    destruct (String.eqb_spec "type" k); [congruence|]. reflexivity.
  - intros o. destruct (loadEdge (VObj o)) as [e|] eqn:H.
    + exists e. reflexivity.
    + apply loadEdge_throws in H. destruct H; discriminate.
  - apply loadEdge_throws.
  - apply editor_edge_fixed.
  - apply newEdge_editor_edge.
Qed.

End Normalize.

(** ** The graphs the editor makes *)

Lemma editor_node_view n n' :
  node_view n = node_view n' -> editor_node n -> editor_node n'.
Proof.
  unfold node_view. intros H.
  injection H as _ _ Hty _ Hnc Hcol Hcont Hch.
  unfold editor_node, shape_ok.
  rewrite <- Hty, <- Hnc, <- Hcol, <- Hcont, <- Hch. auto.
Qed.

Lemma copyNode_editor_node n : editor_node n -> editor_node (copyNode n).
Proof. apply editor_node_view. symmetry. apply node_view_copyNode. Qed.

Lemma saveNode_editor_node n n' :
  saveNode n = Ok n' -> editor_node n -> editor_node n'.
Proof.
  intros H. apply editor_node_view. symmetry.
  apply (saveNode_fixed _ _ H).
Qed.

Lemma saveNodes_editor_nodes ns ns' :
  rmap saveNode ns = Ok ns' -> Forall editor_node ns -> Forall editor_node ns'.
Proof.
  intros H. apply rmap_Forall2 in H.
  induction H as [|n n' l l' Hn H IH]; intros Hf; [constructor|].
  inversion Hf; subst. constructor; [|apply IH; assumption].
  apply (saveNode_editor_node _ _ Hn). assumption.
Qed.

Lemma saveEdge_editor_edge e : editor_edge e -> editor_edge (saveEdge e).
Proof. unfold editor_edge, saveEdge. simpl. auto. Qed.

Lemma editor_node_has_data n : editor_node n -> has_data n = true.
Proof.
  intros ((c & _ & Hnc) & _).
  destruct (field_string_object _ _ _ Hnc) as (o & Ho & _).
  unfold has_data. rewrite Ho. reflexivity.
Qed.

Lemma editor_nodes_have_data ns :
  Forall editor_node ns -> Forall (fun n => has_data n = true) ns.
Proof. apply Forall_impl, editor_node_has_data. Qed.

Lemma rmap_Forall {A B} (f : A -> result B) (Q : B -> Prop) xs ys :
  (forall x y, f x = Ok y -> Q y) -> rmap f xs = Ok ys -> Forall Q ys.
Proof.
  intros Hf H. apply rmap_Forall2 in H.
  induction H; constructor; eauto.
Qed.

Section WellFormed.

Context {P : Platform}.

Lemma loadEffect_editor_edges s :
  Forall editor_edge (edges (loadEffect s)).
Proof.
  unfold loadEffect.
  destruct (localStorage s) as [txt|]; [|constructor].
  destruct (String.eqb txt ""); [constructor|].
  unfold readSlot. destruct (JSON_parse txt) as [doc|]; [|constructor].
  destruct (loadNodes doc (draws s)) as [[ns|] t']; [|constructor].
  destruct (loadEdges doc) as [es|] eqn:He; [|constructor]. simpl.
  unfold loadEdges in He.
  destruct (get doc "edges") as [stored|]; [|discriminate]. simpl in He.
  destruct (or_else stored (VArr [])); try discriminate.
  apply (rmap_Forall _ _ _ _ loadEdge_editor_edge He).
Qed.

Lemma saveEffect_well_formed s s' :
  saveEffect s = Ok s' -> well_formed s -> well_formed s'.
Proof.
  intros H (Hn & He & Hh). unfold saveEffect in H.
  destruct (isInitialLoadDone s); simpl in H.
  2: { injection H as <-. repeat split; assumption. }
  destruct (rmap saveNode (nodes s)) as [ns|] eqn:Hns; [|discriminate].
  simpl in H. unfold record_snapshot in H.
  destruct (match last_entry _ with Some _ => _ | None => _ end);
    injection H as <-; (split; [exact Hn|split; [exact He|]]); simpl;
    [exact Hh|].
  apply Forall_app. split.
  - apply Forall_forall. intros e Hin. apply In_firstn in Hin.
    rewrite Forall_forall in Hh. apply Hh, Hin.
  - constructor; [|constructor]. simpl. split.
    + apply (saveNodes_editor_nodes _ _ Hns Hn).
    + apply Forall_map. eapply Forall_impl; [|exact He].
      apply saveEdge_editor_edge.
Qed.

Lemma settle_well_formed s s' :
  settle s = Ok s' -> well_formed s -> well_formed s'.
Proof.
  unfold settle. destruct (stale s).
  - apply saveEffect_well_formed.
  - intros H. injection H as <-. auto.
Qed.

Lemma restore_well_formed e k s :
  In e (history s) -> well_formed s -> well_formed (restore e k s).
Proof.
  intros Hin (Hn & He & Hh). pose proof Hh as Hh'.
  rewrite Forall_forall in Hh'. destruct (Hh' e Hin) as (Hen & Hee).
  split; [|split]; simpl.
  - apply Forall_map. eapply Forall_impl; [|exact Hen].
    apply copyNode_editor_node.
  - rewrite copyEdges. exact Hee.
  - exact Hh.
Qed.

Lemma mount_well_formed slot t s : mount slot t = Ok s -> well_formed s.
Proof.
  unfold mount. intros H. apply (settle_well_formed _ _ H).
  split; [apply loadEffect_editor_nodes|].
  split; [apply loadEffect_editor_edges|].
  rewrite loadEffect_history. constructor; [|constructor]. simpl.
  split; [apply loadEffect_editor_nodes|apply loadEffect_editor_edges].
Qed.

(** The color, the content and every field but the three it sets are what
    they were on a node [changeNode] has rewritten. *)
Lemma changeNode_editor_node nds nodeId c n t n' t' :
  changeNode nds nodeId c n t = (Ok n', t') ->
  editor_node n -> editor_node n'.
Proof.
  intros H Hn. pose proof H as H0. revert H. unfold changeNode.
  destruct (is_str (lookup "id" n) nodeId) eqn:Hid.
  2: { unfold ret. intros H. injection H as <- _. exact Hn. }
  unfold bind, lift, ret.
  destruct (default_handles_nonempty c (lookup "id" n) t)
    as (h & hs & t1 & Hh).
  rewrite Hh.
  destruct (count_where _ nds) as [k|]; [|discriminate].
  destruct (get (lookup "data" n) "label") as [label|]; [|discriminate].
  destruct label; try discriminate.
  intros H. injection H as <- _.
  destruct Hn as (_ & Hcol & Hcont & _).
  unfold editor_node, shape_ok, field in *. lookups.
  unfold optget at 1 2 3 4 5. simpl. lookups.
  rewrite !optget_spread by (simpl; tauto).
  split; [exists c; auto|]. auto.
Qed.

Lemma update_editor_node k v n :
  (k = "color" /\ truthy v = true)
  \/ k = "label"
  \/ (k = "content" /\ (truthy v = true \/ v = VStr "")) ->
  editor_node n ->
  editor_node
    (assign n
       [ ("data", VObj (assign (spread (lookup "data" n)) [ (k, v) ])) ]).
Proof.
  intros Hk ((c & Hty & Hnc) & Hcol & Hcont & Hch).
  unfold editor_node, shape_ok, field in *. lookups.
  unfold optget at 1 2 3 4 5. simpl.
  destruct Hk as [(-> & Hv) | [-> | (-> & Hv)]]; lookups;
    rewrite ?optget_spread by (simpl; tauto);
    (split; [exists c; auto|]); auto.
Qed.

Lemma mutate_well_formed m s s' :
  (forall x xs, addEdge x xs = reactflow_addEdge x xs) ->
  (forall k, (random_below k (List.length COLORS) < List.length COLORS)%nat) ->
  from_controls m ->
  mutate m s = Ok s' ->
  well_formed s -> well_formed s'.
Proof.
  intros Hadd Hrand Hm H (Hn & He & Hh).
  inversion Hm; subst; simpl in H.
  - injection H as <-. split; [exact Hn|split; [|exact Hh]]. simpl.
    rewrite Hadd. unfold reactflow_addEdge.
    destruct (_ || _); [exact He|].
    destruct (connectionExists _ _); [exact He|].
    apply Forall_app. split; [exact He|].
    constructor; [apply newEdge_editor_edge|constructor].
  - injection H as <-.
    destruct (createNewNode_made c position s
                (editor_nodes_have_data _ Hn) Hrand)
      as (h & hs & t & color & _ & _ & Hin & ->).
    split; [|split]; simpl; [|exact He|exact Hh].
    apply Forall_app. split; [exact Hn|]. constructor; [|constructor].
    split; [exists c; split; reflexivity|].
    unfold field, optget. simpl.
    split; [apply COLORS_truthy, Hin|]. auto.
  - injection H as <-. unfold handleDeleteNode.
    destruct (truthy (VStr nodeId)); [|repeat split; assumption].
    split; [|split]; simpl; try exact Hh.
    + apply Forall_forall. intros n Hin. apply filter_In in Hin.
      rewrite Forall_forall in Hn. apply Hn, Hin.
    + apply Forall_forall. intros e Hin. apply filter_In in Hin.
      rewrite Forall_forall in He. apply He, Hin.
  - unfold handleChangeNodeType in H.
    destruct (_ && _); [|injection H as <-; repeat split; assumption].
    destruct (mapM _ _ _) as [[nds|] t] eqn:Hmap; [|discriminate].
    injection H as <-. split; [|split]; simpl; try assumption.
    apply Forall_forall. intros n' Hin.
    destruct (mapM_In _ _ _ _ _ _ Hmap Hin) as (n & t1 & t2 & Hn0 & Hch).
    rewrite Forall_forall in Hn.
    apply (changeNode_editor_node _ _ _ _ _ _ _ Hch (Hn n Hn0)).
  - injection H as <-. unfold handleUpdateNodeData.
    destruct (_ && _); [|repeat split; assumption].
    split; [|split]; simpl; try assumption.
    apply Forall_map. eapply Forall_impl; [|exact Hn]. intros n Hed.
    destruct (is_str (lookup "id" n) nodeId); [|exact Hed].
    apply update_editor_node; [|exact Hed]. left. split; [reflexivity|].
    apply COLORS_truthy. assumption.
  - injection H as <-. unfold handleUpdateNodeData.
    destruct (_ && _); [|repeat split; assumption].
    split; [|split]; simpl; try assumption.
    apply Forall_map. eapply Forall_impl; [|exact Hn]. intros n Hed.
    destruct (is_str (lookup "id" n) nodeId); [|exact Hed].
    apply update_editor_node; [|exact Hed]. right. left. reflexivity.
  - injection H as <-. unfold handleUpdateNodeData.
    destruct (_ && _); [|repeat split; assumption].
    split; [|split]; simpl; try assumption.
    apply Forall_map. eapply Forall_impl; [|exact Hn]. intros n Hed.
    destruct (is_str (lookup "id" n) nodeId); [|exact Hed].
    apply update_editor_node; [|exact Hed]. right. right. auto.
  - injection H as <-. split; [constructor|split; [constructor|exact Hh]].
  - injection H as <-. split; [|split]; simpl; assumption.
  - injection H as <-. split; [|split]; simpl; assumption.
Qed.

Lemma step_well_formed ev s s' :
  (forall x xs, addEdge x xs = reactflow_addEdge x xs) ->
  (forall k, (random_below k (List.length COLORS) < List.length COLORS)%nat) ->
  from_editor ev ->
  step ev s = Ok s' ->
  well_formed s -> well_formed s'.
Proof.
  intros Hadd Hrand Hev Hstep Hwf. unfold step in Hstep.
  destruct ev as [m| |]; simpl in Hstep.
  - destruct (mutate m s) as [s1|] eqn:Hm; [|discriminate]. simpl in Hstep.
    apply (settle_well_formed _ _ Hstep).
    apply (mutate_well_formed _ _ _ Hadd Hrand Hev Hm Hwf).
  - apply (settle_well_formed _ _ Hstep).
    destruct (undo_cases s) as [-> | (e & _ & He & ->)]; [exact Hwf|].
    apply restore_well_formed; [eapply nth_error_In; eauto|exact Hwf].
  - apply (settle_well_formed _ _ Hstep).
    destruct (redo_cases s) as [-> | (e & He & ->)]; [exact Hwf|].
    apply restore_well_formed; [eapply nth_error_In; eauto|exact Hwf].
Qed.

(** X18.  Whatever the slot held, every graph the editor shows after its
    mount and any of its own events (connections, creations, removals,
    reshapings, color, label and content edits, Clear All, undo, redo, and
    the drags and selections of React Flow) is made of nodes and edges as
    the editor makes them: each node has a known shape that is its render
    type, a color, a content and connection points; each edge a type, an
    [animated] flag and a style with stroke and stroke width.  What the
    Enter key sends from the label and the content fields of a node is
    among those events. *)
Theorem editor_graphs_well_formed (slot : option string) (t : nat)
    (evs : list event) (s0 s' : Flow) :
  (forall x xs, addEdge x xs = reactflow_addEdge x xs) ->
  (forall k, (random_below k (List.length COLORS) < List.length COLORS)%nat) ->
  mount slot t = Ok s0 ->
  Forall from_editor evs ->
  run evs s0 = Ok s' ->
  well_formed s'
  /\ (forall n nodeId k ctrl meta m,
        handleContentKeyPress k ctrl meta nodeId (localContent_of n) = Some m
        \/ handleLabelKeyPress k nodeId (field n "label") = Some m ->
        from_controls m).
Proof.
  intros Hadd Hrand Hm Hevs Hrun. split.
  - pose proof (mount_well_formed _ _ _ Hm) as Hwf. clear Hm.
    revert s0 Hwf Hrun.
    induction Hevs as [|ev evs Hev Hevs IH]; intros s0 Hwf Hrun;
      simpl in Hrun.
    + injection Hrun as <-. exact Hwf.
    + destruct (step ev s0) as [s1|] eqn:Hstep; [|discriminate].
      simpl in Hrun.
      apply (IH s1 (step_well_formed _ _ _ Hadd Hrand Hev Hstep Hwf) Hrun).
  - intros n nodeId k ctrl meta m.
    unfold handleContentKeyPress, handleLabelKeyPress.
    intros [H | H].
    + destruct (_ && _); [|discriminate]. injection H as <-.
      apply controls_content. unfold localContent_of, or_else.
      destruct (truthy (field n "content")) eqn:Ht; auto.
    + destruct (String.eqb k "Enter"); [|discriminate]. injection H as <-.
      apply controls_label.
Qed.

End WellFormed.

(** ** What the load does with a slot *)

Lemma rmap_throws {A B} (f : A -> result B) xs :
  rmap f xs = Throw <-> exists x, In x xs /\ f x = Throw.
Proof.
  induction xs as [|a xs IH]; simpl.
  - split; [discriminate|]. intros (x & [] & _).
  - destruct (f a) as [y|] eqn:Ha; simpl.
    + destruct (rmap f xs) as [ys|]; simpl.
      * split; [discriminate|]. intros (x & [<- | Hin] & Hx); [congruence|].
        assert (H : @Ok (list B) ys = Throw) by (apply IH; eauto).
        discriminate H.
      * split; [|reflexivity]. intros _.
        destruct (proj1 IH eq_refl) as (x & Hin & Hx). eauto.
    + split; [|reflexivity]. intros _. exists a. auto.
Qed.

Lemma rmap_fixed {A} (f : value -> result A) (g : A -> value) xs :
  Forall (fun x => f (g x) = Ok x) xs -> rmap f (map g xs) = Ok xs.
Proof.
  induction 1 as [|x xs Hx _ IH]; [reflexivity|]. simpl.
  rewrite Hx, IH. reflexivity.
Qed.

Section Slot.

Context {P : Platform}.

Lemma loadEffect_loaded txt doc ns es t t' :
  txt <> "" ->
  JSON_parse txt = Some doc ->
  loadNodes doc t = (Ok ns, t') ->
  loadEdges doc = Ok es ->
  loadEffect (initial (Some txt) t)
  = {| nodes := ns; edges := es; selectedNode := None;
       history := [ {| fs_nodes := ns; fs_edges := es |} ];
       currentStep := 0; isInitialLoadDone := true;
       localStorage := Some txt; draws := t'; stale := true |}.
Proof.
  intros Hne Hparse Hn He. unfold loadEffect, readSlot. simpl.
  destruct (String.eqb_spec txt "") as [?|_]; [contradiction|].
  rewrite Hparse, Hn, He. reflexivity.
Qed.

Lemma loadEffect_edges_thrown txt doc ns t t' :
  txt <> "" ->
  JSON_parse txt = Some doc ->
  loadNodes doc t = (Ok ns, t') ->
  loadEdges doc = Throw ->
  loadEffect (initial (Some txt) t)
  = {| nodes := ns; edges := []; selectedNode := None;
       history := [ {| fs_nodes := ns; fs_edges := [] |} ];
       currentStep := 0; isInitialLoadDone := true;
       localStorage := None; draws := t'; stale := true |}.
Proof.
  intros Hne Hparse Hn He. unfold loadEffect, readSlot. simpl.
  destruct (String.eqb_spec txt "") as [?|_]; [contradiction|].
  rewrite Hparse, Hn, He. reflexivity.
Qed.

Lemma loadEffect_nodes_thrown txt doc t t' :
  txt <> "" ->
  JSON_parse txt = Some doc ->
  loadNodes doc t = (Throw, t') ->
  loadEffect (initial (Some txt) t)
  = {| nodes := []; edges := []; selectedNode := None;
       history := [ {| fs_nodes := []; fs_edges := [] |} ];
       currentStep := 0; isInitialLoadDone := true;
       localStorage := None; draws := t'; stale := true |}.
Proof.
  intros Hne Hparse Hn. unfold loadEffect, readSlot. simpl.
  destruct (String.eqb_spec txt "") as [?|_]; [contradiction|].
  rewrite Hparse, Hn. reflexivity.
Qed.

Lemma loadEdges_throws doc :
  loadEdges doc = Throw
  <-> get doc "edges" = Throw
      \/ exists stored,
           get doc "edges" = Ok stored
           /\ truthy stored = true
           /\ ((forall es, stored <> VArr es)
               \/ exists es x,
                    stored = VArr es /\ In x es
                    /\ (x = VNull \/ x = VUndefined)).
Proof.
  unfold loadEdges. destruct (get doc "edges") as [stored|]; simpl.
  2: { split; auto. }
  unfold or_else. destruct (truthy stored) eqn:Ht.
  - destruct stored as [| | | | |xs|]; try discriminate Ht;
      try (split; [intros _; right; eexists; split; [reflexivity|];
                   split; [exact Ht|]; left; discriminate
                  |reflexivity]).
    split.
    + intros H. apply rmap_throws in H. destruct H as (x & Hin & Hx).
      apply loadEdge_throws in Hx. right. exists (VArr xs).
      split; [reflexivity|]. split; [reflexivity|]. right. exists xs, x. auto.
    + intros [H | (stored & H & _ & [Hno | (es & x & Heq & Hin & Hx)])];
        [discriminate| |].
      * injection H as <-. exfalso. apply (Hno xs). reflexivity.
      * injection H as <-. injection Heq as <-. apply rmap_throws.
        exists x. split; [exact Hin|]. apply loadEdge_throws, Hx.
  - simpl. split; [discriminate|].
    intros [H | (stored' & H & Ht' & _)]; [discriminate|].
    injection H as <-. congruence.
Qed.

(** X17.  The load does not fail as a whole.  When the stored nodes are
    read and the stored edges make it throw (they are not an array, or one
    of them is [null]), the editor starts with the nodes and no edge; when
    the stored nodes make it throw it starts empty, whatever the stored
    edges.  In both cases the slot is removed, and the save effect of the
    mount writes what is shown, so that the stored edges are lost. *)
Theorem unreadable_edges_keep_nodes (txt : string) (doc : value) (t : nat) :
  txt <> "" ->
  JSON_parse txt = Some doc ->
  (forall ns t',
     loadNodes doc t = (Ok ns, t') ->
     loadEdges doc = Throw ->
     let s := loadEffect (initial (Some txt) t) in
     nodes s = ns /\ edges s = [] /\ localStorage s = None
     /\ exists s' ns',
          mount (Some txt) t = Ok s'
          /\ nodes s' = ns /\ edges s' = []
          /\ rmap saveNode ns = Ok ns'
          /\ localStorage s' = Some (JSON_stringify (document ns' [])))
  /\ (forall t',
        loadNodes doc t = (Throw, t') ->
        let s := loadEffect (initial (Some txt) t) in
        nodes s = [] /\ edges s = [] /\ localStorage s = None)
  /\ (loadEdges doc = Throw
      <-> get doc "edges" = Throw
          \/ exists stored,
               get doc "edges" = Ok stored
               /\ truthy stored = true
               /\ ((forall es, stored <> VArr es)
                   \/ exists es x,
                        stored = VArr es /\ In x es
                        /\ (x = VNull \/ x = VUndefined))).
Proof.
  intros Hne Hparse. split; [|split].
  - intros ns t' Hn He s. subst s.
    pose proof (loadEffect_editor_nodes (initial (Some txt) t)) as Hed.
    rewrite (loadEffect_edges_thrown _ _ _ _ _ Hne Hparse Hn He) in *.
    simpl in Hed. simpl.
    split; [reflexivity|]. split; [reflexivity|]. split; [reflexivity|].
    destruct (saveNodes_editor _ Hed) as (ns' & Hns & _).
    rewrite mount_unfold.
    rewrite (loadEffect_edges_thrown _ _ _ _ _ Hne Hparse Hn He).
    unfold saveEffect. simpl. rewrite Hns. simpl.
    destruct (record_snapshot _ _ _ _). eexists. exists ns'.
    split; [reflexivity|]. simpl. auto.
  - intros t' Hn s. subst s.
    rewrite (loadEffect_nodes_thrown _ _ _ _ Hne Hparse Hn). simpl. auto.
  - apply loadEdges_throws.
Qed.

(** X19.  A reload is a fixed point.  When every node and edge is as the
    editor makes them, the slot holds the document of the graph and the
    JSON codec reads that document back as written, mounting the editor
    on the slot returns with the saved form of the graph, which is the
    same graph (every node and edge attribute); the history has the one
    entry of the load, so that undo is disabled; no draw is made; and
    the slot holds the same text as before. *)
Theorem reload_is_fixed_point (s : Flow) (t : nat) (ns : list obj)
    (txt : string) :
  Forall editor_node (nodes s) ->
  Forall editor_edge (edges s) ->
  rmap saveNode (nodes s) = Ok ns ->
  txt = JSON_stringify (document ns (map saveEdge (edges s))) ->
  localStorage s = Some txt ->
  txt <> "" ->
  JSON_parse txt = Some (document ns (map saveEdge (edges s))) ->
  exists s',
    mount (localStorage s) t = Ok s'
    /\ nodes s' = ns
    /\ edges s' = map saveEdge (edges s)
    /\ graph_view s' = graph_view s
    /\ history s' = [ {| fs_nodes := ns; fs_edges := map saveEdge (edges s) |} ]
    /\ currentStep s' = 0
    /\ undoDisabled s' = true
    /\ localStorage s' = localStorage s
    /\ draws s' = t.
Proof.
  intros Hn He Hns Htxt Hslot Hne Hparse.
  set (es := map saveEdge (edges s)) in *.
  destruct (saveNodes_editor _ Hn) as (ns0 & Hns0 & Hview & Hload).
  rewrite Hns in Hns0. injection Hns0 as <-.
  assert (Hnodes : loadNodes (document ns es) t = (Ok ns, t)).
  { unfold loadNodes, document, bind, lift. simpl. apply Hload. }
  assert (Hedges : loadEdges (document ns es) = Ok es).
  { unfold loadEdges, document. simpl. apply rmap_fixed.
    unfold es. apply Forall_map. eapply Forall_impl; [|exact He].
    intros e Hed. apply editor_edge_fixed, saveEdge_editor_edge, Hed. }
  rewrite Hslot, mount_unfold.
  rewrite (loadEffect_loaded _ _ _ _ _ _ Hne Hparse Hnodes Hedges).
  unfold saveEffect. simpl.
  destruct (saveNodes_fixed _ _ Hns) as (_ & -> & _). simpl.
  assert (Hes : map saveEdge es = es) by apply saveEdges_fixed.
  rewrite Hes.
  rewrite (record_snapshot_duplicate ns es
             [ {| fs_nodes := ns; fs_edges := es |} ] 0
             {| fs_nodes := ns; fs_edges := es |} eq_refl
             (same_serialization_refl ns es)).
  eexists. split; [reflexivity|]. simpl.
  split; [reflexivity|]. split; [reflexivity|].
  split.
  { unfold graph_view. simpl. rewrite Hview. unfold es.
    rewrite (proj2 (saveEdges_fixed _)). reflexivity. }
  split; [reflexivity|]. split; [reflexivity|]. split; [reflexivity|].
  split; [rewrite <- Htxt; reflexivity|reflexivity].
Qed.

End Slot.

(** ** Events that throw *)

Lemma mapM_throws {A B} (f : A -> M B) xs x :
  In x xs ->
  (forall t, fst (f x t) = Throw) ->
  forall t, fst (mapM f xs t) = Throw.
Proof.
  intros Hin Hx. induction xs as [|a xs IH]; [contradiction|].
  intros t. simpl. unfold bind.
  destruct Hin as [-> | Hin].
  - specialize (Hx t). destruct (f x t) as [[y|] t']; [discriminate|].
    reflexivity.
  - destruct (f a t) as [[y|] t']; [|reflexivity].
    specialize (IH Hin t').
    destruct (mapM f xs t') as [[ys|] t'']; [discriminate|reflexivity].
Qed.

Section Throws.

Context {P : Platform}.

Lemma changeNode_throws nds nodeId c n t :
  is_str (lookup "id" n) nodeId = true ->
  (forall text, field n "label" <> VStr text) ->
  fst (changeNode nds nodeId c n t) = Throw.
Proof.
  intros Hid Hlabel. unfold changeNode. rewrite Hid. unfold bind, lift.
  destruct (default_handles_nonempty c (lookup "id" n) t)
    as (h & hs & t1 & Hh).
  rewrite Hh.
  destruct (count_where _ nds) as [k|]; [|reflexivity].
  destruct (get (lookup "data" n) "label") as [label|] eqn:Hget;
    [|reflexivity].
  destruct label; try reflexivity.
  exfalso. apply (Hlabel s). apply get_optget, Hget.
Qed.

Lemma settle_returns s : well_formed s -> exists s', settle s = Ok s'.
Proof.
  intros (Hn & _). unfold settle. destruct (stale s); [|eauto].
  unfold saveEffect. destruct (isInitialLoadDone s); simpl; [|eauto].
  destruct (saveNodes_editor _ Hn) as (ns & -> & _). simpl.
  destruct (record_snapshot _ _ _ _). eauto.
Qed.

(** X20.  The editor's own events return, and leave every node and edge
    as the editor makes them, with one exception: reshaping a node whose
    label is not a text throws (the handler splits the label), and nothing
    catches it. *)
Theorem editor_events_return (ev : event) (s : Flow) :
  (forall x xs, addEdge x xs = reactflow_addEdge x xs) ->
  (forall k, (random_below k (List.length COLORS) < List.length COLORS)%nat) ->
  well_formed s ->
  from_editor ev ->
  ((forall nodeId c,
      ev = Mutate (ChangeNodeType nodeId c) ->
      Forall (fun n => is_str (lookup "id" n) nodeId = true ->
                       exists text, field n "label" = VStr text) (nodes s)) ->
   exists s', step ev s = Ok s' /\ well_formed s')
  /\ (forall nodeId c n,
        ev = Mutate (ChangeNodeType nodeId c) ->
        nodeId <> "" ->
        In n (nodes s) ->
        is_str (lookup "id" n) nodeId = true ->
        (forall text, field n "label" <> VStr text) ->
        step ev s = Throw).
Proof.
  intros Hadd Hrand Hwf Hev. split.
  - intros Hlabel.
    assert (Hh : exists s1,
               match ev with
               | Mutate m => mutate m s
               | Undo => Ok (undo s)
               | Redo => Ok (redo s)
               end = Ok s1).
    { destruct ev as [m| |]; [|eauto|eauto].
      destruct m; simpl; eauto. unfold handleChangeNodeType.
      destruct (String.eqb_spec nodeId "") as [-> | Hid]; [simpl; eauto|].
      rewrite (truthy_nonempty _ Hid).
      destruct (mapM_changeNode (nodes s) nodeId newType (draws s) (nodes s)
                  Hid (editor_nodes_have_data _ (proj1 Hwf))
                  (Hlabel _ _ eq_refl)) as (ns' & -> & _).
      destruct newType; simpl; eauto. }
    destruct Hh as (s1 & Hs1).
    assert (Hwf1 : well_formed s1).
    { destruct ev as [m| |].
      - apply (mutate_well_formed _ _ _ Hadd Hrand Hev Hs1 Hwf).
      - injection Hs1 as <-.
        destruct (undo_cases s) as [-> | (e & _ & He & ->)]; [exact Hwf|].
        apply restore_well_formed; [eapply nth_error_In; eauto|exact Hwf].
      - injection Hs1 as <-.
        destruct (redo_cases s) as [-> | (e & He & ->)]; [exact Hwf|].
        apply restore_well_formed; [eapply nth_error_In; eauto|exact Hwf]. }
    destruct (settle_returns _ Hwf1) as (s' & Hs').
    exists s'. unfold step. rewrite Hs1. simpl.
    split; [exact Hs'|]. apply (settle_well_formed _ _ Hs' Hwf1).
  - intros nodeId c n -> Hid Hin Hn Hlabel. unfold step. simpl.
    unfold handleChangeNodeType. rewrite (truthy_nonempty _ Hid).
    replace (truthy (VStr (tag c))) with true by (destruct c; reflexivity).
    simpl.
    pose proof (mapM_throws (changeNode (nodes s) nodeId c) (nodes s) n Hin
                  (fun t => changeNode_throws _ _ _ _ t Hn Hlabel) (draws s))
      as Hthrow.
    destruct (mapM _ _ _) as [[nds|] t]; [discriminate|reflexivity].
Qed.

End Throws.

(** ** The keyboard *)

Lemma lower_z c : lower c = "z"%char -> c = "z"%char \/ c = "Z"%char.
Proof.
  destruct c as [[] [] [] [] [] [] [] []]; vm_compute; intros H;
    try discriminate H; auto.
Qed.

Lemma toLowerCase_z k :
  String.eqb (toLowerCase k) "z" = true <-> k = "z" \/ k = "Z".
Proof.
  split.
  - intros H. apply String.eqb_eq in H.
    destruct k as [|c [|c' k']]; try discriminate H.
    simpl in H. injection H as H.
    destruct (lower_z _ H) as [-> | ->]; auto.
  - intros [-> | ->]; reflexivity.
Qed.

Lemma handleKeyDown_split event s :
  handleKeyDown event s
  = ((if (ctrlKey event || metaKey event)
         && String.eqb (toLowerCase (key event)) "z"
      then [ if shiftKey event then CallRedo else CallUndo ]
      else [])
     ++ (if negb (String.eqb (tagName event) "INPUT")
            && negb (String.eqb (tagName event) "TEXTAREA")
            && String.eqb (key event) "Delete"
         then match selectedNode s with
              | Some n => [ DispatchDeleteNode (lookup "id" n) ]
              | None => []
              end
         else []))%list.
Proof.
  unfold handleKeyDown.
  destruct (negb _ && negb _); simpl; [reflexivity|].
  rewrite app_nil_r. reflexivity.
Qed.

Lemma handleKeyDown_cases event s :
  (List.length (handleKeyDown event s) <= 1)%nat
  /\ (In CallUndo (handleKeyDown event s)
      <-> (ctrlKey event = true \/ metaKey event = true)
          /\ (key event = "z" \/ key event = "Z")
          /\ shiftKey event = false)
  /\ (In CallRedo (handleKeyDown event s)
      <-> (ctrlKey event = true \/ metaKey event = true)
          /\ (key event = "z" \/ key event = "Z")
          /\ shiftKey event = true)
  /\ (forall v,
        In (DispatchDeleteNode v) (handleKeyDown event s)
        <-> key event = "Delete"
            /\ tagName event <> "INPUT" /\ tagName event <> "TEXTAREA"
            /\ exists n, selectedNode s = Some n /\ v = lookup "id" n).
Proof.
  assert (Hz : (ctrlKey event || metaKey event)
               && String.eqb (toLowerCase (key event)) "z" = true
               <-> (ctrlKey event = true \/ metaKey event = true)
                   /\ (key event = "z" \/ key event = "Z")).
  { rewrite andb_true_iff, orb_true_iff, toLowerCase_z. reflexivity. }
  assert (Hd : negb (String.eqb (tagName event) "INPUT")
               && negb (String.eqb (tagName event) "TEXTAREA")
               && String.eqb (key event) "Delete" = true
               <-> key event = "Delete"
                   /\ tagName event <> "INPUT" /\ tagName event <> "TEXTAREA").
  { rewrite !andb_true_iff, !negb_true_iff, !String.eqb_neq, String.eqb_eq.
    tauto. }
  rewrite handleKeyDown_split.
  destruct ((ctrlKey event || metaKey event)
            && String.eqb (toLowerCase (key event)) "z") eqn:Hcz;
    destruct (negb (String.eqb (tagName event) "INPUT")
              && negb (String.eqb (tagName event) "TEXTAREA")
              && String.eqb (key event) "Delete") eqn:Hdel.
  - exfalso. destruct (proj1 Hz eq_refl) as (_ & Hkey).
    destruct (proj1 Hd eq_refl) as (Hk & _). rewrite Hk in Hkey.
    destruct Hkey; discriminate.
  - destruct (proj1 Hz eq_refl) as (Hmod & Hkey).
    assert (Hnd : ~ (key event = "Delete"
                     /\ tagName event <> "INPUT"
                     /\ tagName event <> "TEXTAREA")).
    { intros H. apply Hd in H. discriminate. }
    simpl. split; [lia|].
    destruct (shiftKey event); simpl;
      (split; [intuition discriminate|]);
      (split; [intuition discriminate|]);
      intros v; split;
      [intros [H | []]; discriminate
      |intros (H1 & H2 & H3 & _); exfalso; apply Hnd; auto
      |intros [H | []]; discriminate
      |intros (H1 & H2 & H3 & _); exfalso; apply Hnd; auto].
  - assert (Hnz : ~ ((ctrlKey event = true \/ metaKey event = true)
                     /\ (key event = "z" \/ key event = "Z"))).
    { intros H. apply Hz in H. discriminate. }
    destruct (proj1 Hd eq_refl) as (Hk & Hf1 & Hf2).
    simpl. split; [destruct (selectedNode s); simpl; lia|].
    split.
    { split; [destruct (selectedNode s); simpl; intuition discriminate|].
      intros (H1 & H2 & _). exfalso. apply Hnz. auto. }
    split.
    { split; [destruct (selectedNode s); simpl; intuition discriminate|].
      intros (H1 & H2 & _). exfalso. apply Hnz. auto. }
    intros v. destruct (selectedNode s) as [n|]; simpl; split.
    + intros [H | []]. injection H as <-. eauto 6.
    + intros (_ & _ & _ & n' & Hn' & ->). injection Hn' as <-. auto.
    + intros [].
    + intros (_ & _ & _ & n' & Hn' & _). discriminate.
  - assert (Hnz : ~ ((ctrlKey event = true \/ metaKey event = true)
                     /\ (key event = "z" \/ key event = "Z"))).
    { intros H. apply Hz in H. discriminate. }
    assert (Hnd : ~ (key event = "Delete"
                     /\ tagName event <> "INPUT"
                     /\ tagName event <> "TEXTAREA")).
    { intros H. apply Hd in H. discriminate. }
    simpl. split; [lia|].
    split; [split; [intros []
                   |intros (H1 & H2 & _); exfalso; apply Hnz; auto]|].
    split; [split; [intros []
                   |intros (H1 & H2 & _); exfalso; apply Hnz; auto]|].
    intros v. split; [intros []|].
    intros (H1 & H2 & H3 & _). exfalso. apply Hnd. auto.
Qed.

Lemma handleDeleteNode_gone nodeId s :
  nodeId <> "" ->
  has_node (nodes (handleDeleteNode nodeId s)) (VStr nodeId) = false.
Proof.
  intros Hid. unfold handleDeleteNode. rewrite (truthy_nonempty _ Hid).
  simpl. unfold has_node. apply not_true_is_false. intros Hex.
  apply existsb_exists in Hex. destruct Hex as (x & Hx & Heq).
  apply filter_In in Hx. destruct Hx as (_ & Hx).
  rewrite strict_eq_str in Heq. rewrite Heq in Hx. discriminate.
Qed.

(** X21.  The key handler does at most one thing for a key.  Ctrl or Cmd
    with the key z, in either case, calls undo, or redo when Shift is
    held, wherever the focus is, and nothing else calls them.  Delete
    dispatches the removal of the selected node, only when a node is
    selected and the focus is neither in an input nor in a text area.
    Once a node that was clicked is removed, no node has its id, nothing
    is selected and the key Delete does nothing more; nor does it after a
    click on the pane. *)
Theorem handleKeyDown_shortcuts (event : KeyboardEvent) (s : Flow) :
  (List.length (handleKeyDown event s) <= 1)%nat
  /\ (In CallUndo (handleKeyDown event s)
      <-> (ctrlKey event = true \/ metaKey event = true)
          /\ (key event = "z" \/ key event = "Z")
          /\ shiftKey event = false)
  /\ (In CallRedo (handleKeyDown event s)
      <-> (ctrlKey event = true \/ metaKey event = true)
          /\ (key event = "z" \/ key event = "Z")
          /\ shiftKey event = true)
  /\ (forall v,
        In (DispatchDeleteNode v) (handleKeyDown event s)
        <-> key event = "Delete"
            /\ tagName event <> "INPUT" /\ tagName event <> "TEXTAREA"
            /\ exists n, selectedNode s = Some n /\ v = lookup "id" n)
  /\ (forall n nodeId,
        lookup "id" n = VStr nodeId ->
        nodeId <> "" ->
        let s' := handleDeleteNode nodeId (onNodeClick n s) in
        selectedNode s' = None
        /\ has_node (nodes s') (VStr nodeId) = false
        /\ forall v, ~ In (DispatchDeleteNode v) (handleKeyDown event s'))
  /\ (forall v,
        ~ In (DispatchDeleteNode v) (handleKeyDown event (onPaneClick s))).
Proof.
  destruct (handleKeyDown_cases event s) as (H1 & H2 & H3 & H4).
  split; [exact H1|]. split; [exact H2|]. split; [exact H3|].
  split; [exact H4|]. split.
  - intros n nodeId Hn Hid s'.
    assert (Hsel : selectedNode s' = None).
    { unfold s', handleDeleteNode. rewrite (truthy_nonempty _ Hid). simpl.
      rewrite Hn. simpl. rewrite String.eqb_refl. reflexivity. }
    split; [exact Hsel|]. split; [apply handleDeleteNode_gone, Hid|].
    intros v Hin.
    apply (proj2 (proj2 (proj2 (handleKeyDown_cases event s')))) in Hin.
    destruct Hin as (_ & _ & _ & n' & Hn' & _). congruence.
  - intros v Hin.
    apply (proj2 (proj2 (proj2 (handleKeyDown_cases event (onPaneClick s)))))
      in Hin.
    destruct Hin as (_ & _ & _ & n' & Hn' & _). discriminate.
Qed.

(** ** What the history records *)

Section Records.

Context {P : Platform}.

Lemma saveEffect_cursor_saved s s' e :
  isInitialLoadDone s = true ->
  nth_error (history s) (currentStep s) = Some e ->
  saveEffect s = Ok s' ->
  cursor_is_saved s'.
Proof.
  intros Hdone He Hsave.
  destruct (saveEffect_cases _ _ _ Hdone He Hsave)
    as (ns & Hns & Hn & Hed & _ & _ & [(Hsame & Hh & Hc) | (_ & Hh & Hc)]).
  - exists e, ns. rewrite Hh, Hc, Hn, Hed. auto.
  - exists {| fs_nodes := ns; fs_edges := map saveEdge (edges s) |}, ns.
    rewrite Hh, Hc, Hn, Hed.
    split; [apply (nth_error_base _ _ _ _ He)|]. split; [exact Hns|].
    apply same_serialization_refl.
Qed.

Lemma reachable_cursor_saved s : reachable s -> cursor_is_saved s.
Proof.
  induction 1 as [slot t s Hm | ev s s' Hr IH Hstep].
  - rewrite mount_unfold in Hm.
    destruct (loadEffect_fields (initial slot t)) as (Hdone & _ & Hc).
    refine (saveEffect_cursor_saved _ _ _ Hdone _ Hm).
    rewrite Hc, loadEffect_history. reflexivity.
  - destruct (step_inv _ _ _ (reachable_settled _ Hr) Hstep)
      as [(Hn & He & Hh & Hc & _) | (s1 & e1 & Hdone & Hh & He1 & Hsave & _)].
    + destruct IH as (e & ns & H). exists e, ns.
      rewrite Hn, He, Hh, Hc. exact H.
    + rewrite <- Hh in He1.
      apply (saveEffect_cursor_saved _ _ _ Hdone He1 Hsave).
Qed.

Lemma reachable_slot s : reachable s -> slot_in_sync s.
Proof.
  induction 1 as [slot t s Hm | ev s s' Hr IH Hstep].
  - rewrite mount_unfold in Hm.
    destruct (loadEffect_fields (initial slot t)) as (Hdone & _).
    apply (saveEffect_slot _ _ Hdone Hm).
  - destruct (step_inv _ _ _ (reachable_settled _ Hr) Hstep)
      as [(Hn & He & _ & _ & Hl) | (s1 & e1 & Hdone & _ & _ & Hsave & _)].
    + destruct IH as (ns & Hns & Hslot). exists ns.
      rewrite Hn, He, Hl. auto.
    + apply (saveEffect_slot _ _ Hdone Hsave).
Qed.

(** X3.  In every state reached from the mount the slot holds the
    document of the graph on the canvas: every event that changes the
    graph, an undo and a redo included, ends with the slot rewritten.  And
    the entry at the cursor serializes as the snapshot of that graph
    does. *)
Theorem reachable_slot_in_sync (s : Flow) :
  reachable s -> slot_in_sync s /\ cursor_is_saved s.
Proof.
  intros Hr.
  split; [apply reachable_slot|apply reachable_cursor_saved]; exact Hr.
Qed.

(** The save effect on a graph whose snapshot serializes as the entry at
    the cursor rewrites the slot and nothing else. *)
Lemma settle_duplicate s e ns :
  isInitialLoadDone s = true ->
  stale s = true ->
  nth_error (history s) (currentStep s) = Some e ->
  rmap saveNode (nodes s) = Ok ns ->
  same_serialization e ns (map saveEdge (edges s)) = true ->
  settle s
  = Ok {| nodes := nodes s; edges := edges s; selectedNode := selectedNode s;
          history := history s; currentStep := currentStep s;
          isInitialLoadDone := true;
          localStorage :=
            Some (JSON_stringify (document ns (map saveEdge (edges s))));
          draws := draws s; stale := false |}.
Proof.
  intros Hdone Hstale He Hns Hsame. unfold settle, saveEffect.
  rewrite Hstale, Hdone, Hns. simpl.
  rewrite (record_snapshot_duplicate _ _ _ _ _ He Hsame). reflexivity.
Qed.

(** X22.  A change of the nodes or of the edges that does not change
    what the save effect keeps of them (a selection, a measured size)
    records nothing: the history, the cursor and the text in the slot
    are as before. *)
Theorem unsaved_changes_record_nothing (s : Flow) (ns' es' : list obj) :
  reachable s ->
  rmap saveNode ns' = rmap saveNode (nodes s) ->
  map saveEdge es' = map saveEdge (edges s) ->
  exists s1 s2,
    step (Mutate (NodesChanged ns')) s = Ok s1
    /\ step (Mutate (EdgesChanged es')) s1 = Ok s2
    /\ nodes s2 = ns' /\ edges s2 = es'
    /\ history s1 = history s /\ currentStep s1 = currentStep s
    /\ localStorage s1 = localStorage s
    /\ history s2 = history s /\ currentStep s2 = currentStep s
    /\ localStorage s2 = localStorage s.
Proof.
  intros Hr Hns' Hes'.
  destruct (reachable_settled _ Hr) as (_ & Hdone & _).
  destruct (reachable_cursor_saved _ Hr) as (e & ns & He & Hns & Hsame).
  destruct (reachable_slot _ Hr) as (ns0 & Hns0 & Hslot).
  rewrite Hns in Hns0. injection Hns0 as <-.
  rewrite Hns in Hns'.
  eexists. eexists. split.
  { unfold step. simpl.
    apply (settle_duplicate (set_nodes ns' (draws s) s) e ns);
      simpl; auto. }
  split.
  { unfold step. simpl.
    refine (settle_duplicate (set_edges es' _) e ns _ _ _ _ _);
      simpl; auto. rewrite Hes'. exact Hsame. }
  simpl. rewrite Hes', Hslot. repeat split; reflexivity.
Qed.

Lemma saveEffect_no_repeats s s' e :
  isInitialLoadDone s = true ->
  nth_error (history s) (currentStep s) = Some e ->
  saveEffect s = Ok s' ->
  no_repeats (history s) -> no_repeats (history s').
Proof.
  intros Hdone He Hsave Hno.
  destruct (saveEffect_cases _ _ _ Hdone He Hsave)
    as (ns & Hns & _ & _ & _ & _ & [(_ & Hh & _) | (Hdiff & Hh & _)]);
    rewrite Hh; [exact Hno|].
  destruct (last_entry_base _ _ _ He) as (_ & Hlen).
  intros i e1 e2 H1 H2.
  destruct (Nat.lt_trichotomy (S i) (currentStep s + 1)) as [Hlt | [Heq | Hgt]].
  - rewrite nth_error_app1, nth_error_firstn in H1, H2 by lia.
    replace (i <? currentStep s + 1)%nat with true in H1
      by (symmetry; apply Nat.ltb_lt; lia).
    apply Nat.ltb_lt in Hlt. rewrite Hlt in H2.
    apply (Hno i e1 e2 H1 H2).
  - assert (Hi : i = currentStep s) by lia. subst i.
    rewrite (proj1 (nth_error_base _ _ _ _ He)) in H1. injection H1 as <-.
    rewrite Heq in H2.
    rewrite (proj1 (proj2 (nth_error_base _ _ _ _ He))) in H2.
    injection H2 as <-. exact Hdiff.
  - rewrite nth_error_app2 in H2 by lia. rewrite Hlen in H2.
    destruct (S i - (currentStep s + 1)) as [|j] eqn:Hj; [lia|].
    destruct j; discriminate.
Qed.

(** X23.  The history never holds an entry that serializes as the entry
    before it: every step through it by undo or redo is a step between two
    different saved graphs. *)
Theorem history_has_no_repeats (s : Flow) :
  reachable s -> no_repeats (history s).
Proof.
  induction 1 as [slot t s Hm | ev s s' Hr IH Hstep].
  - rewrite mount_unfold in Hm.
    destruct (loadEffect_fields (initial slot t)) as (Hdone & _ & Hc).
    refine (saveEffect_no_repeats _ _ _ Hdone _ Hm _).
    + rewrite Hc, loadEffect_history. reflexivity.
    + rewrite loadEffect_history. intros [|i] e1 e2 H1 H2; discriminate.
  - destruct (step_inv _ _ _ (reachable_settled _ Hr) Hstep)
      as [(_ & _ & Hh & _) | (s1 & e1 & Hdone & Hh & He1 & Hsave & _)].
    + rewrite Hh. exact IH.
    + rewrite <- Hh in He1.
      refine (saveEffect_no_repeats _ _ _ Hdone He1 Hsave _).
      rewrite Hh. exact IH.
Qed.

End Records.

(** ** Connecting twice *)

Lemma connectionExists_ends e e' es :
  edge_ends e = edge_ends e' -> connectionExists e es = connectionExists e' es.
Proof.
  unfold edge_ends, connectionExists. intros H.
  injection H as -> -> -> ->. reflexivity.
Qed.

Lemma same_handle_refl v : handle_or_null v -> same_handle v v = true.
Proof.
  destruct v; simpl; try contradiction; intros _; try reflexivity.
  unfold same_handle. simpl. rewrite String.eqb_refl. reflexivity.
Qed.

Section ConnectTwice.

Context {P : Platform}.

Lemma newEdge_ends params id : edge_ends (newEdge params id) = edge_ends params.
Proof.
  unfold edge_ends. rewrite !newEdge_lookup by discriminate. reflexivity.
Qed.

(** X24.  With React Flow's [addEdge], a connection is made once: when
    [onConnect] is given the same two nodes and handles again the edges
    stay as they are, although a new id has been drawn for the edge; a
    connection without a source or without a target adds nothing; and
    [onConnect] never adds more than one edge nor touches those there. *)
Theorem onConnect_refuses_duplicates (params : obj) (s : Flow) :
  (forall x xs, addEdge x xs = reactflow_addEdge x xs) ->
  ((exists a, lookup "source" params = VStr a) ->
   (exists b, lookup "target" params = VStr b) ->
   handle_or_null (lookup "sourceHandle" params) ->
   handle_or_null (lookup "targetHandle" params) ->
   edges (onConnect params (onConnect params s)) = edges (onConnect params s)
   /\ draws (onConnect params (onConnect params s)) = S (S (draws s)))
  /\ (truthy (lookup "source" params) = false
      \/ truthy (lookup "target" params) = false ->
      edges (onConnect params s) = edges s)
  /\ (edges (onConnect params s) = edges s
      \/ edges (onConnect params s)
         = (edges s ++ [ newEdge params (nanoid (draws s)) ])%list).
Proof.
  intros Hadd. split; [|split].
  - intros (a & Ha) (b & Hb) Hsh Hth. split; [|reflexivity].
    simpl. rewrite !Hadd.
    set (e1 := newEdge params (nanoid (draws s))).
    set (e2 := newEdge params (nanoid (S (draws s)))).
    assert (Hends : edge_ends e2 = edge_ends e1).
    { unfold e1, e2. rewrite !newEdge_ends. reflexivity. }
    assert (Hsrc : lookup "source" e2 = lookup "source" e1
                   /\ lookup "target" e2 = lookup "target" e1).
    { unfold e1, e2. rewrite !newEdge_lookup by discriminate. auto. }
    destruct Hsrc as (Hsrc & Htgt).
    unfold reactflow_addEdge at 1. rewrite Hsrc, Htgt.
    unfold reactflow_addEdge at 2.
    destruct (negb (truthy (lookup "source" e1))
              || negb (truthy (lookup "target" e1))) eqn:Hmiss.
    + unfold reactflow_addEdge. rewrite Hmiss. reflexivity.
    + unfold reactflow_addEdge. rewrite Hmiss.
      destruct (connectionExists e1 (edges s)) eqn:Hex.
      * rewrite (connectionExists_ends _ _ _ Hends), Hex. reflexivity.
      * assert (Hnow : connectionExists e2 (edges s ++ [e1]) = true).
        { unfold connectionExists. rewrite existsb_app. apply orb_true_iff.
          right. simpl. rewrite orb_false_r.
          injection Hends as -> -> -> ->.
          unfold e1. rewrite !newEdge_lookup by discriminate.
          rewrite Ha, Hb. simpl. rewrite !String.eqb_refl.
          rewrite !same_handle_refl by assumption. reflexivity. }
        rewrite Hnow. reflexivity.
  - intros Hmiss. simpl. rewrite Hadd. unfold reactflow_addEdge.
    rewrite !newEdge_lookup by discriminate.
    destruct Hmiss as [-> | ->]; simpl; [reflexivity|].
    rewrite orb_true_r. reflexivity.
  - simpl. rewrite Hadd. unfold reactflow_addEdge.
    destruct (_ || _); [auto|]. destruct (connectionExists _ _); auto.
Qed.

End ConnectTwice.

(** ** Labels of new nodes *)

Section Labels.

Context {P : Platform}.

Lemma count_of_snoc c ns n c' :
  field n "nodeCategory" = VStr (tag c) ->
  count_of c' (ns ++ [n])
  = count_of c' ns
    + match c, c' with
      | rectangle, rectangle | circle, circle => 1
      | _, _ => 0
      end.
Proof.
  intros Hn. unfold count_of. rewrite filter_app, length_app. simpl.
  rewrite Hn. destruct c, c'; reflexivity.
Qed.

(** X25.  Nodes created one after the other are numbered by shape: each
    new label is the name of the shape and one more than the count of the
    nodes of that shape there at that time; the nodes there before stay in
    place, the new ones follow in the order of creation. *)
Theorem createAll_numbers (cs : list (NodeCategoryType * value)) (s : Flow) :
  Forall (fun n => has_data n = true) (nodes s) ->
  exists news,
    nodes (createAll cs s) = (nodes s ++ news)%list
    /\ List.length news = List.length cs
    /\ map (fun n => field n "label") news
       = numbering (count_of rectangle (nodes s)) (count_of circle (nodes s))
           (map fst cs)
    /\ map (fun n => lookup "type" n) news
       = map (fun cp => VStr (tag (fst cp))) cs
    /\ map (fun n => lookup "position" n) news = map snd cs
    /\ edges (createAll cs s) = edges s.
Proof.
  revert s. induction cs as [|[c p] cs IH]; intros s Hdata; simpl.
  - exists []. rewrite app_nil_r. repeat split; reflexivity.
  - destruct (createNewNode_cases c p s) as [Hsame | Hadds].
    { exfalso. destruct (createNewNode_adds c p s Hdata)
        as (n & _ & _ & _ & Hn & _).
      rewrite Hn in Hsame. apply (f_equal (@List.length obj)) in Hsame.
      rewrite length_app in Hsame. simpl in Hsame. lia. }
    destruct Hadds as (n & h & hs & Hn & _ & Hty & Hpos & Hnc & _ & Hch & _
                       & (k & Hk & Hlabel)).
    rewrite (count_where_has_category c _ Hdata) in Hk. injection Hk as <-.
    assert (Hdata' : Forall (fun n => has_data n = true)
                       (nodes (createNewNode c p s))).
    { rewrite Hn. apply Forall_app. split; [exact Hdata|].
      constructor; [|constructor].
      destruct (field_string_object _ _ _ Hnc) as (o & Ho & _).
      unfold has_data. rewrite Ho. reflexivity. }
    destruct (IH _ Hdata') as (news & Hnodes & Hlen & Hlabels & Htypes
                               & Hposs & Hedges).
    exists (n :: news). rewrite Hnodes, Hn, <- app_assoc. simpl.
    split; [reflexivity|]. split; [rewrite Hlen; reflexivity|].
    rewrite Hlabels, Htypes, Hposs, Hedges, Hlabel, Hty, Hpos.
    rewrite Hn, !(count_of_snoc c _ _ _ Hnc), createNewNode_edges.
    destruct c; simpl; rewrite ?Nat.add_0_r, ?Nat.add_1_r;
      repeat split; reflexivity.
Qed.

End Labels.

(** ** Code blocks *)














(** ** Connection points across a reshaping *)

Section AcrossShapes.

Context {P : Platform}.

(** The connection points of a node that was reshaped are the default
    ones of its new shape. *)
Lemma reshaped_customHandles nodeId c s s' n' :
  nodeId <> "" ->
  handleChangeNodeType nodeId c s = Ok s' ->
  In n' (nodes s') ->
  is_str (lookup "id" n') nodeId = true ->
  (exists n, In n (nodes s) /\ is_str (lookup "id" n) nodeId = true)
  /\ exists t, customHandles_of n' = defaultHandles c nodeId t.
Proof.
  intros Hid Hch Hin Hn'. unfold handleChangeNodeType in Hch.
  rewrite (truthy_nonempty _ Hid) in Hch.
  replace (truthy (VStr (tag c))) with true in Hch
    by (destruct c; reflexivity).
  simpl in Hch.
  destruct (mapM _ _ _) as [[nds|] t0] eqn:Hmap; [|discriminate].
  injection Hch as <-. simpl in Hin.
  destruct (mapM_In _ _ _ _ _ _ Hmap Hin) as (n & t1 & t2 & Hnin & Hn).
  destruct (changeNode_inv _ _ _ _ _ _ _ Hn)
    as [(Hno & -> & _) | (Hyes & Hsame & _ & _ & hs & Hhs & Hfield)];
    [congruence|].
  split; [exists n; auto|].
  apply is_str_eq in Hyes. rewrite Hyes in Hhs.
  exists t1. unfold customHandles_of, defaultHandles.
  rewrite Hfield, Hhs. reflexivity.
Qed.

(** X27.  The connection points of a rectangle are among those of a
    circle with the same id, which has two more, on top and at the
    bottom.  A node reshaped into a circle has the four connection-point
    ids of the circle, so every one a rectangle of its id has; a node
    reshaped into a rectangle has the two of the rectangle, and neither
    the one on top nor the one at the bottom. *)
Theorem rectangle_points_among_circle_points (nodeId : string) (t t' : nat) :
  nodeId <> "" ->
  incl (handle_ids (defaultHandles rectangle nodeId t))
       (handle_ids (defaultHandles circle nodeId t'))
  /\ (forall h,
        In h (handle_ids (defaultHandles circle nodeId t')) ->
        In h (handle_ids (defaultHandles rectangle nodeId t))
        \/ h = VStr (nodeId ++ "-top-target")
        \/ h = VStr (nodeId ++ "-bottom-source"))
  /\ (forall s s' n',
        handleChangeNodeType nodeId circle s = Ok s' ->
        In n' (nodes s') ->
        is_str (lookup "id" n') nodeId = true ->
        handle_ids (customHandles_of n')
        = [ VStr (nodeId ++ "-top-target");
            VStr (nodeId ++ "-bottom-source");
            VStr (nodeId ++ "-left-target");
            VStr (nodeId ++ "-right-source") ]
        /\ incl (handle_ids (defaultHandles rectangle nodeId t))
                (handle_ids (customHandles_of n')))
  /\ (forall s s' n',
        handleChangeNodeType nodeId rectangle s = Ok s' ->
        In n' (nodes s') ->
        is_str (lookup "id" n') nodeId = true ->
        handle_ids (customHandles_of n')
        = [ VStr (nodeId ++ "-left-target");
            VStr (nodeId ++ "-right-source") ]
        /\ ~ In (VStr (nodeId ++ "-top-target"))
                (handle_ids (customHandles_of n'))
        /\ ~ In (VStr (nodeId ++ "-bottom-source"))
                (handle_ids (customHandles_of n'))).
Proof.
  intros Hid.
  assert (Hne : String.eqb nodeId "" = false) by (apply String.eqb_neq, Hid).
  assert (Hincl : forall t1 t2,
            incl (handle_ids (defaultHandles rectangle nodeId t1))
                 (handle_ids (defaultHandles circle nodeId t2))).
  { intros t1 t2. rewrite !defaultHandles_ids, Hne. simpl.
    intros h [<- | [<- | []]]; simpl; auto. }
  split; [apply Hincl|]. split; [|split].
  - intros h. rewrite !defaultHandles_ids, Hne. simpl.
    intros [<- | [<- | [<- | [<- | []]]]]; auto.
  - intros s s' n' Hch Hin Hn'.
    destruct (reshaped_customHandles _ _ _ _ _ Hid Hch Hin Hn')
      as (_ & t1 & Hd).
    rewrite Hd. split; [|apply Hincl].
    rewrite defaultHandles_ids, Hne. reflexivity.
  - intros s s' n' Hch Hin Hn'.
    destruct (reshaped_customHandles _ _ _ _ _ Hid Hch Hin Hn')
      as (_ & t1 & Hd).
    rewrite Hd, defaultHandles_ids, Hne. simpl.
    split; [reflexivity|].
    split; intros [H | [H | []]]; injection H as H;
      apply append_inj_l in H; discriminate.
Qed.

End AcrossShapes.

(** ** What the load keeps *)

Section Keeps.

Context {P : Platform}.

Lemma getDefaultHandlesForShape_draws shapeType nodeId t v t' :
  getDefaultHandlesForShape shapeType nodeId t = (Ok v, t') ->
  (truthy nodeId = true -> t' = t) /\ (t' = t \/ t' = S t).
Proof.
  unfold getDefaultHandlesForShape, bind, ret, fresh_id.
  destruct (truthy nodeId); simpl;
    destruct (is_str shapeType "rectangle");
    try destruct (is_str shapeType "circle");
    intros H; injection H as _ <-;
    (split; [intros Ht; try discriminate Ht; reflexivity|auto]).
Qed.

(** X28.  The load keeps what it does not normalize: of a stored node
    object every property but the type and the data, the label, and every
    field of a data object but the category, the connection points, the
    color and the content.  It draws an id only for a node that has
    neither stored connection points nor an id, and then one. *)
Theorem loadNode_keeps_the_rest (o : obj) (t : nat) (n : obj) (t' : nat) :
  loadNode (VObj o) t = (Ok n, t') ->
  (forall k, k <> "type" -> k <> "data" -> lookup k n = lookup k o)
  /\ field n "label" = optget (lookup "data" o) "label"
  /\ (forall d k,
        lookup "data" o = VObj d ->
        k <> "nodeCategory" -> k <> "customHandles" ->
        k <> "color" -> k <> "content" ->
        field n k = lookup k d)
  /\ (t' = t \/ t' = S t)
  /\ (truthy (lookup "id" o) = true
      \/ nonempty_array (optget (lookup "data" o) "customHandles") = true ->
      t' = t).
Proof.
  unfold loadNode, bind, lift, ret. simpl.
  match goal with
  | |- match ?x with _ => _ end = _ -> _ => destruct x as [nc|]
  end; [|discriminate].
  assert (Hdraw : forall hs t1,
            (if nonempty_array (optget (lookup "data" o) "customHandles")
             then fun t0 : nat => (get (lookup "data" o) "customHandles", t0)
             else fun t0 : nat =>
                    getDefaultHandlesForShape nc (lookup "id" o) t0) t
            = (Ok hs, t1) ->
            (t1 = t \/ t1 = S t)
            /\ (truthy (lookup "id" o) = true
                \/ nonempty_array (optget (lookup "data" o) "customHandles")
                   = true -> t1 = t)).
  { intros hs t1.
    destruct (nonempty_array (optget (lookup "data" o) "customHandles")).
    - intros H. injection H as _ <-. auto.
    - intros Hhs.
      destruct (getDefaultHandlesForShape_draws _ _ _ _ _ Hhs) as (H1 & H2).
      split; [exact H2|]. intros [H | H]; [auto|discriminate]. }
  match goal with
  | |- (let (_, _) := ?x in _) = _ -> _ =>
      destruct x as [[hs|] t1] eqn:Hhs
  end; [|discriminate].
  specialize (Hdraw _ _ Hhs).
  intros H. injection H as <- <-.
  split; [|split; [|split; [|exact Hdraw]]].
  - intros k H1 H2. rewrite !assign_cons, assign_nil, !lookup_set.
    destruct (String.eqb_spec "data" k); [congruence|].
    destruct (String.eqb_spec "type" k); [congruence|]. reflexivity.
  - unfold field. lookups. unfold optget at 1. simpl. lookups.
    unfold or_else. destruct (truthy (lookup "data" o)) eqn:Ht.
    + apply optget_spread. simpl. tauto.
    + destruct (lookup "data" o); try discriminate Ht; reflexivity.
  - intros d k Hd H1 H2 H3 H4. unfold field. lookups.
    unfold optget at 1. simpl. rewrite Hd. simpl.
    rewrite ?assign_cons, ?assign_nil, ?lookup_set.
    destruct (String.eqb_spec "content" k); [congruence|].
    destruct (String.eqb_spec "color" k); [congruence|].
    destruct (String.eqb_spec "customHandles" k); [congruence|].
    destruct (String.eqb_spec "nodeCategory" k); [congruence|]. reflexivity.
Qed.

End Keeps.

(** ** Undo onto the loaded entry *)

Section LoadedEntry.

Context {P : Platform}.

(** X29.  Undo onto a first entry that is not in saved form (the graph
    loaded from a slot an earlier version wrote) does not stay there: the
    save effect takes the restored graph for a new one, cuts the history
    after the first entry and appends its snapshot.  The cursor is at 1
    again, the history has two entries whatever it held, and what could be
    redone is gone. *)
Theorem undo_onto_unsaved_entry (s : Flow) (e : FlowState) (ns : list obj) :
  reachable s ->
  currentStep s = 1 ->
  nth_error (history s) 0 = Some e ->
  rmap saveNode (map copyNode (fs_nodes e)) = Ok ns ->
  same_serialization e ns (map saveEdge (map copyEdge (fs_edges e))) = false ->
  exists u,
    step Undo s = Ok u
    /\ currentStep u = 1
    /\ history u
       = [ e; {| fs_nodes := ns; fs_edges := map saveEdge (fs_edges e) |} ]
    /\ graph_view u = entry_view e
    /\ undoDisabled u = false
    /\ redoDisabled u = true.
Proof.
  intros Hr Hc He Hns Hdiff.
  destruct (reachable_settled _ Hr) as (_ & Hdone & _).
  assert (Hu : undo s = restore e 0 s).
  { unfold undo. rewrite Hc. change (0 <? 1)%nat with true.
    change (1 - 1) with 0. cbv iota. rewrite He. reflexivity. }
  assert (Hfirst : firstn (0 + 1) (history s) = [e]).
  { destruct (history s) as [|e0 h]; [discriminate|].
    simpl in He. injection He as ->. reflexivity. }
  unfold step. simpl. rewrite Hu. unfold settle, saveEffect. simpl.
  rewrite Hdone, Hns. simpl.
  rewrite (record_snapshot_appended _ _ _ _ _ He Hdiff), Hfirst, copyEdges.
  eexists. split; [reflexivity|]. simpl.
  split; [reflexivity|]. split; [reflexivity|].
  split; [|split; reflexivity].
  unfold graph_view, entry_view. simpl. f_equal.
  rewrite map_map. apply map_ext, node_view_copyNode.
Qed.

End LoadedEntry.

(** ** The tour *)

Lemma browser_random k :
  (@random_below Browser.platform k (List.length COLORS)
   < List.length COLORS)%nat.
Proof.
  change (k mod 8 < 8)%nat. apply Nat.mod_upper_bound. discriminate.
Qed.

Lemma canvas_reachable : @reachable Browser.platform Sample.canvas.
Proof. apply (reachable_mount None 0). vm_compute. reflexivity. Qed.

Lemma drawn_step :
  @step Browser.platform (Mutate (CreateNode rectangle (Sample.at_xy 0 0)))
    Sample.canvas = Ok Sample.drawn.
Proof. vm_compute. reflexivity. Qed.

Lemma drawn_reachable : @reachable Browser.platform Sample.drawn.
Proof. apply (reachable_step _ _ _ canvas_reachable drawn_step). Qed.

Lemma two_drawn_step :
  @step Browser.platform (Mutate (CreateNode rectangle (Sample.at_xy 40 0)))
    Sample.drawn = Ok Tour.two_drawn.
Proof. vm_compute. reflexivity. Qed.

Lemma two_drawn_reachable : @reachable Browser.platform Tour.two_drawn.
Proof. apply (reachable_step _ _ _ drawn_reachable two_drawn_step). Qed.

Lemma one_back_reachable : @reachable Browser.platform Tour.one_back.
Proof.
  apply (reachable_step Undo _ _ two_drawn_reachable).
  vm_compute. reflexivity.
Qed.

Lemma linked_well_formed : well_formed Tour.linked.
Proof.
  assert (Hc : well_formed Sample.canvas).
  { apply (@mount_well_formed Browser.platform None 0). vm_compute.
    reflexivity. }
  assert (H1 : well_formed Sample.drawn).
  { refine (@step_well_formed Browser.platform _ _ _ (fun _ _ => eq_refl)
              browser_random _ drawn_step Hc). constructor. }
  assert (H2 : well_formed Tour.two_drawn).
  { refine (@step_well_formed Browser.platform _ _ _ (fun _ _ => eq_refl)
              browser_random _ two_drawn_step H1). constructor. }
  refine (@step_well_formed Browser.platform (Mutate (Connect Tour.link)) _ _
            (fun _ _ => eq_refl) browser_random _ _ H2);
    [constructor|vm_compute; reflexivity].
Qed.

(** Two rectangles have been drawn: the cursor is on the third of three
    entries. *)
Lemma reachable_cursor_in_range_witness :
  (currentStep Tour.two_drawn < List.length (history Tour.two_drawn))%nat
  /\ currentStep Tour.two_drawn = 2.
Proof.
  split; [|reflexivity].
  apply (@reachable_cursor_in_range Browser.platform Tour.two_drawn).
  apply two_drawn_reachable.
Defined.

(** After the first rectangle the slot holds the document of the one
    node. *)
Lemma reachable_slot_in_sync_witness :
  @slot_in_sync Browser.platform Sample.drawn.
Proof.
  apply (@reachable_slot_in_sync Browser.platform Sample.drawn).
  apply drawn_reachable.
Defined.

(** Drawing the first rectangle on the mounted canvas is recorded. *)
Lemma recorded_mutation_ends_history_witness :
  redoDisabled Sample.drawn = true
  /\ @step Browser.platform Redo Sample.drawn = Ok Sample.drawn.
Proof.
  destruct (@recorded_mutation_ends_history Browser.platform Sample.canvas
              (CreateNode rectangle (Sample.at_xy 0 0)) Sample.drawn
              canvas_reachable drawn_step)
    as (snap & _ & _ & _ & _ & Hredo & _ & Hstep).
  - vm_compute. discriminate.
  - split; assumption.
Defined.

(** Undo after the second rectangle shows the entry of the first. *)
Lemma undo_steps_back_witness :
  exists u,
    @step Browser.platform Undo Tour.two_drawn = Ok u
    /\ currentStep u = 1
    /\ graph_view u = entry_view Tour.second_entry.
Proof.
  destruct (@undo_steps_back Browser.platform Tour.two_drawn 1
              Tour.second_entry two_drawn_reachable)
    as (u & Hu & _ & Hc & Hv & _).
  - reflexivity.
  - vm_compute. reflexivity.
  - left. lia.
  - exists u. auto.
Defined.

(** Redo after that undo shows the entry of the second rectangle. *)
Lemma redo_steps_forward_witness :
  exists r,
    @step Browser.platform Redo Tour.one_back = Ok r
    /\ currentStep r = 2
    /\ graph_view r = entry_view Tour.third_entry.
Proof.
  destruct (@redo_steps_forward Browser.platform Tour.one_back
              Tour.third_entry one_back_reachable)
    as (r & Hr & _ & Hc & Hv & _).
  - vm_compute. reflexivity.
  - exists r. auto.
Defined.


(** On the mounted canvas both buttons are disabled. *)
Lemma toolbar_buttons_witness :
  undoDisabled Sample.canvas = true /\ undo Sample.canvas = Sample.canvas.
Proof.
  destruct (@toolbar_buttons Browser.platform Sample.canvas canvas_reachable)
    as ((Hu & _) & _).
  split; [reflexivity|]. apply Hu. reflexivity.
Defined.

(** The rectangle of the sample is renamed. *)
Lemma handleUpdateNodeData_merges_witness :
  edges (handleUpdateNodeData "id0" [ ("label", VStr "Start") ]
           Sample.two_nodes)
  = edges Sample.two_nodes.
Proof.
  apply (handleUpdateNodeData_merges "id0" [ ("label", VStr "Start") ]
           Sample.two_nodes).
  discriminate.
Defined.

(** A circle is added to the sample and removed again. *)
Lemma create_then_delete_witness :
  nodes (handleDeleteNode "id4"
           (@createNewNode Browser.platform circle (Sample.at_xy 80 0)
              Sample.two_nodes))
  = nodes Sample.two_nodes.
Proof.
  apply (@create_then_delete Browser.platform circle (Sample.at_xy 80 0)
           Sample.two_nodes).
  - repeat constructor.
  - vm_compute. discriminate.
  - vm_compute. reflexivity.
  - intros e He. vm_compute in He. contradiction.
Defined.

(** The first node of a new canvas. *)
Lemma createNewNode_adds_editor_node_witness :
  exists n,
    nodes (@createNewNode Browser.platform rectangle (Sample.at_xy 0 0)
             (initial None 0)) = [n]
    /\ editor_node n
    /\ field n "label" = VStr "Rectangle 1".
Proof.
  destruct (@createNewNode_adds_editor_node Browser.platform rectangle
              (Sample.at_xy 0 0) (initial None 0))
    as (n & Hn & _ & _ & _ & _ & _ & _ & Hed & _ & _ & _ & Hl & _).
  - constructor.
  - apply browser_random.
  - exists n. split; [exact Hn|]. split; [exact Hed|exact Hl].
Defined.

(** The first rectangle of a new canvas becomes a circle and a rectangle
    again. *)
Lemma reshape_round_trip_witness :
  let s := @createNewNode Browser.platform rectangle (Sample.at_xy 0 0)
             (initial None 0) in
  exists s1 s2,
    @handleChangeNodeType Browser.platform "id0" circle s = Ok s1
    /\ @handleChangeNodeType Browser.platform "id0" rectangle s1 = Ok s2
    /\ map node_view (nodes s2) = map node_view (nodes s).
Proof.
  intros s.
  destruct (@reshape_round_trip Browser.platform "id0" rectangle circle s)
    as (s1 & s2 & H1 & H2 & _ & _ & Hv).
  - discriminate.
  - repeat constructor.
  - repeat constructor. exists 1. split; [vm_compute; discriminate|].
    reflexivity.
  - exists s1, s2. auto.
Defined.

(** The connection points of [a] and of [b] share no id. *)
Lemma default_handle_ids_unique_witness :
  NoDup (handle_ids (@defaultHandles Browser.platform circle "a" 0))
  /\ ~ In (VStr "a-left-target")
         (handle_ids (@defaultHandles Browser.platform rectangle "b" 0)).
Proof.
  destruct (@default_handle_ids_unique Browser.platform circle "a" 0)
    as (Hnd & Hother).
  split; [exact Hnd|]. intros Hin.
  assert (Hab : "b" = "a").
  { apply (Hother rectangle "b" 0 (VStr "a-left-target")).
    - discriminate.
    - discriminate.
    - vm_compute. auto.
    - exact Hin. }
  discriminate Hab.
Defined.

(** The circle of the earlier slot, loaded, is loaded as it is. *)
Lemma loadNode_idempotent_witness :
  Forall (fun n => @loadNode Browser.platform (VObj n) 7 = (Ok n, 7))
    (nodes Sample.earlier_loaded).
Proof.
  destruct (@loadNode_idempotent Browser.platform 7) as (H & _).
  eapply Forall_impl; [intros n Hn; apply (H n Hn)|].
  apply (@loadEffect_editor_nodes Browser.platform).
Defined.

(** The edge [onConnect] makes of the stray connection is loaded as it
    is. *)
Lemma loadEdge_normalizes_witness :
  loadEdge (VObj (newEdge Sample.stray_connection "id4"))
  = Ok (newEdge Sample.stray_connection "id4").
Proof.
  destruct loadEdge_normalizes as (_ & _ & _ & Hfix & Hnew).
  apply Hfix, Hnew.
Defined.

(** The slot with a [null] edge: the circle is loaded, the slot removed. *)
Lemma unreadable_edges_keep_nodes_witness :
  let s := @loadEffect Browser.platform
             (initial (Some (Browser.print Tour.broken_document)) 0) in
  List.length (nodes s) = 1 /\ edges s = [] /\ localStorage s = None.
Proof.
  intros s.
  destruct (@unreadable_edges_keep_nodes Browser.platform
              (Browser.print Tour.broken_document) Tour.broken_document 0)
    as (H & _).
  - vm_compute. discriminate.
  - vm_compute. reflexivity.
  - destruct (@loadNodes Browser.platform Tour.broken_document 0)
      as [[ns|] t'] eqn:Hn; [|vm_compute in Hn; discriminate].
    destruct (H ns t' eq_refl) as (Hnodes & Hedges & Hslot & _).
    + vm_compute. reflexivity.
    + split; [|split]; [|exact Hedges|exact Hslot].
      vm_compute. reflexivity.
Defined.

(** The mount, two rectangles and a connection. *)
Lemma editor_graphs_well_formed_witness : well_formed Tour.linked.
Proof.
  apply (@editor_graphs_well_formed Browser.platform None 0
           [ Mutate (CreateNode rectangle (Sample.at_xy 0 0));
             Mutate (CreateNode rectangle (Sample.at_xy 40 0));
             Mutate (Connect Tour.link) ] Sample.canvas Tour.linked).
  - reflexivity.
  - apply browser_random.
  - vm_compute. reflexivity.
  - repeat constructor.
  - vm_compute. reflexivity.
Defined.

(** The editor is mounted again on the slot the connected rectangles were
    saved to. *)
Lemma reload_is_fixed_point_witness :
  exists s',
    @mount Browser.platform (localStorage Tour.linked) 9 = Ok s'
    /\ graph_view s' = graph_view Tour.linked
    /\ List.length (history s') = 1
    /\ localStorage s' = localStorage Tour.linked.
Proof.
  destruct linked_well_formed as (Hn & He & _).
  destruct (@reload_is_fixed_point Browser.platform Tour.linked 9
              Tour.linked_saved
              (Browser.print
                 (document Tour.linked_saved
                    (map saveEdge (edges Tour.linked))))
              Hn He)
    as (s' & Hm & _ & _ & Hv & Hh & _ & _ & Hl & _).
  - vm_compute. reflexivity.
  - reflexivity.
  - vm_compute. reflexivity.
  - vm_compute. discriminate.
  - vm_compute. reflexivity.
  - exists s'. rewrite Hh. auto.
Defined.

(** A rectangle is drawn on the mounted canvas. *)
Lemma editor_events_return_witness :
  exists s',
    @step Browser.platform (Mutate (CreateNode rectangle (Sample.at_xy 0 0)))
      Sample.canvas = Ok s'.
Proof.
  destruct (@editor_events_return Browser.platform
              (Mutate (CreateNode rectangle (Sample.at_xy 0 0))) Sample.canvas)
    as (H & _).
  - reflexivity.
  - apply browser_random.
  - apply (@mount_well_formed Browser.platform None 0). vm_compute.
    reflexivity.
  - constructor.
  - destruct H as (s' & Hs' & _); [discriminate|]. exists s'. exact Hs'.
Defined.

(** The first rectangle is clicked, then removed with the key Delete. *)
Lemma handleKeyDown_shortcuts_witness :
  In (DispatchDeleteNode (VStr "id0"))
    (handleKeyDown Tour.delete_key (onNodeClick Tour.first_drawn Sample.drawn))
  /\ selectedNode
       (handleDeleteNode "id0" (onNodeClick Tour.first_drawn Sample.drawn))
     = None.
Proof.
  split.
  - apply (handleKeyDown_shortcuts Tour.delete_key
             (onNodeClick Tour.first_drawn Sample.drawn)).
    split; [reflexivity|]. split; [discriminate|]. split; [discriminate|].
    exists Tour.first_drawn. split; reflexivity.
  - destruct (handleKeyDown_shortcuts Tour.delete_key Sample.drawn)
      as (_ & _ & _ & _ & H & _).
    apply (H Tour.first_drawn "id0"); [reflexivity|discriminate].
Defined.

(** The first rectangle is selected: nothing is recorded. *)
Lemma unsaved_changes_record_nothing_witness :
  exists s1,
    @step Browser.platform (Mutate (NodesChanged Tour.drawn_selected))
      Sample.drawn = Ok s1
    /\ history s1 = history Sample.drawn.
Proof.
  destruct (@unsaved_changes_record_nothing Browser.platform Sample.drawn
              Tour.drawn_selected (edges Sample.drawn) drawn_reachable)
    as (s1 & s2 & H1 & _ & _ & _ & Hh & _).
  - vm_compute. reflexivity.
  - reflexivity.
  - exists s1. auto.
Defined.

(** The three entries of the two rectangles. *)
Lemma history_has_no_repeats_witness :
  @no_repeats Browser.platform (history Tour.two_drawn).
Proof.
  apply (@history_has_no_repeats Browser.platform Tour.two_drawn).
  apply two_drawn_reachable.
Defined.

(** The link of the tour, made a second time. *)
Lemma onConnect_refuses_duplicates_witness :
  edges (@onConnect Browser.platform Tour.link Tour.linked) = edges Tour.linked.
Proof.
  destruct (@onConnect_refuses_duplicates Browser.platform Tour.link
              Tour.two_drawn) as (H & _).
  - reflexivity.
  - destruct H as (H & _).
    + exists "id0". reflexivity.
    + exists "id2". reflexivity.
    + exact I.
    + exact I.
    + vm_compute. reflexivity.
Defined.

(** A rectangle, a circle and a rectangle on a new canvas. *)
Lemma createAll_numbers_witness :
  exists news,
    nodes (@createAll Browser.platform Tour.three_shapes (initial None 0))
    = news
    /\ map (fun n => field n "label") news
       = [ VStr "Rectangle 1"; VStr "Circle 1"; VStr "Rectangle 2" ].
Proof.
  destruct (@createAll_numbers Browser.platform Tour.three_shapes
              (initial None 0)) as (news & Hn & _ & Hl & _).
  - constructor.
  - exists news. split; [exact Hn|exact Hl].
Defined.


(** The left target of the rectangle [n1] is a point of the circle
    [n1]. *)
Lemma rectangle_points_among_circle_points_witness :
  In (VStr "n1-left-target")
    (handle_ids (@defaultHandles Browser.platform circle "n1" 0)).
Proof.
  destruct (@rectangle_points_among_circle_points Browser.platform "n1" 0 0)
    as (Hincl & _).
  - discriminate.
  - apply Hincl. vm_compute. auto.
Defined.

(** The drifted node keeps its [zIndex], its label and its note. *)
Lemma loadNode_keeps_the_rest_witness :
  lookup "zIndex" Tour.drifted_node_loaded = VNum (Int 3)
  /\ field Tour.drifted_node_loaded "label" = VStr "A"
  /\ field Tour.drifted_node_loaded "note" = VStr "kept".
Proof.
  destruct (@loadNode_keeps_the_rest Browser.platform Tour.drifted_node 0
              Tour.drifted_node_loaded 0)
    as (Hk & Hl & Hf & _).
  - vm_compute. reflexivity.
  - split; [|split].
    + rewrite Hk by discriminate. reflexivity.
    + rewrite Hl. reflexivity.
    + rewrite (Hf _ "note" eq_refl) by discriminate. reflexivity.
Defined.

(** Undo after the mount on the earlier slot: the cursor is at 1 again. *)
Lemma undo_onto_unsaved_entry_witness :
  exists u,
    @step Browser.platform Undo Tour.earlier_mounted = Ok u
    /\ currentStep u = 1
    /\ List.length (history u) = 2.
Proof.
  destruct (@undo_onto_unsaved_entry Browser.platform Tour.earlier_mounted
              Tour.earlier_entry Sample.earlier_snapshot)
    as (u & Hu & Hc & Hh & _).
  - apply (reachable_mount (Some (Browser.print Sample.earlier_document)) 0).
    vm_compute. reflexivity.
  - reflexivity.
  - vm_compute. reflexivity.
  - vm_compute. reflexivity.
  - vm_compute. reflexivity.
  - exists u. rewrite Hh. auto.
Defined.
